(** * Sensitive-value masking tool: masker.py, scanner.py and the report

    A shallow embedding of the masking engine ([masker.py]), of the file
    scanner, the backup manager and the file processor ([scanner.py]) and
    of the counters of the report ([reporter.py]), followed by the
    properties proved about them.

    Conventions of the embedding.
    - A Python [str] is a Rocq [string]; a character is a code point below
      256.  The white-space class is the one of [str.strip()], [str.isspace()]
      and the regular expression escape [\s] restricted to that range.
    - A Python value that the code inspects dynamically ([None], [str], a
      number) is a [Py.value].
    - A raised exception is the [Raise] outcome of [Py.result]; every
      exception below is an instance of Python's [Exception], given by its
      class and the text [str(e)].  The texts of the exceptions of the
      file system are those of Linux.
    - Compiled regular expressions of the configuration are opaque objects
      with the two methods the code calls, [search] and [match]; where the
      code compiles them, [re.compile] is a pair of parameters: the pattern
      that it gives, if any, and the exception that it raises otherwise.
      The two regular expressions written in the source are translated by
      hand, and the translations are shown to match exactly the strings of
      the shape that the expressions describe.
    - The scanner walks a directory tree; the backup manager and the file
      processor run in a state monad over the manager and a disk that maps
      a path to the content of the file there: the text as the bytes of
      the file give it, which reading in text mode changes at the line
      ends.  The disk holds files, not directories: two paths are two
      files, and a path names a file or nothing.  What directories,
      permissions and the like make of a call on the file system is a
      parameter, [refuses], which gives the exception of a call that
      fails for such a reason; the statements that need a call to succeed
      say of which call they need it.  [fnmatch.fnmatch],
      [os.path.abspath], the clock, [json.loads] and the text that
      [json.dump] writes are parameters as well.

    Outline: the modules [Py], [Re], [Masker], [Scanner] and [Reporter]
    hold the embedding; [Says] the vocabulary of the statements; [Spec] the
    definitions that follow the words of the specification; [Example] the
    configurations of the worked examples.  The sections after them hold the
    lemmas and the theorems: first those on the rewriting of lines, on the
    key precedence, on the scan and on the backups of one file, then those
    on what the maskers have in common, on the choice of the masker and the
    growth of the patterns, on what the scanner yields, on backups and
    their restoring in general, on the file processor and on the report. *)

From Stdlib Require Import String Ascii List Bool Arith Lia.
From stdpp Require Import gmap strings list.
Import ListNotations.

#[local] Open Scope string_scope.
#[local] Open Scope list_scope.
#[local] Open Scope nat_scope.

(* ===================================================================== *)
(** * Python values, exceptions and string methods *)
(* ===================================================================== *)

Module Py.

(** Dynamically typed values, as far as the code tells them apart. *)
Inductive value : Type :=
| VNone
| VStr (s : string)
| VInt (n : Z).

(** Exceptions ([Exception] subclasses); the payload is [str(e)].
    [ReError] is [re.error]; [Other] stands for an exception of a class
    that is not listed, with the name of the class. *)
Inductive exn : Type :=
| AttributeError (msg : string)
| FileNotFoundError (msg : string)
| FileExistsError (msg : string)
| SameFileError (msg : string)
| JSONDecodeError (msg : string)
| ValueError (msg : string)
| ReError (msg : string)
| OverflowError (msg : string)
| Other (class_name msg : string).

Definition str_of_exn (e : exn) : string :=
  match e with
  | AttributeError m | FileNotFoundError m | FileExistsError m
  | SameFileError m | JSONDecodeError m | ValueError m
  | ReError m | OverflowError m | Other _ m => m
  end.

Inductive result (A : Type) : Type :=
| Ok (a : A)
| Raise (e : exn).
Arguments Ok {A} a.
Arguments Raise {A} e.

Definition bind {A B} (r : result A) (k : A -> result B) : result B :=
  match r with
  | Ok a => k a
  | Raise e => Raise e
  end.

(** [try: body except Exception as e: handler(e)] *)
Definition try_except {A} (body : result A) (handler : exn -> result A)
  : result A :=
  match body with
  | Ok a => Ok a
  | Raise e => handler e
  end.

Definition type_name (v : value) : string :=
  match v with
  | VNone => "NoneType"
  | VStr _ => "str"
  | VInt _ => "int"
  end.

(** Looking up a [str] method on a value: [AttributeError] on the others. *)
Definition str_method (meth : string) (v : value) : result string :=
  match v with
  | VStr s => Ok s
  | _ => Raise (AttributeError
           ("'" +:+ type_name v +:+ "' object has no attribute '" +:+ meth +:+ "'"))
  end.

(** ** Characters *)

(** White space of [str.strip()] and of [\s], code points below 256. *)
Definition is_space (c : ascii) : bool :=
  let n := nat_of_ascii c in
  ((9 <=? n) && (n <=? 13)) || ((28 <=? n) && (n <=? 32))
  || (n =? 133) || (n =? 160).

Definition in_chars (chars : string) (c : ascii) : bool :=
  existsb (Ascii.eqb c) (list_ascii_of_string chars).

Definition is_upper (c : ascii) : bool :=
  let n := nat_of_ascii c in (65 <=? n) && (n <=? 90).

Definition lower_char (c : ascii) : ascii :=
  if is_upper c then ascii_of_nat (nat_of_ascii c + 32) else c.

Fixpoint lower (s : string) : string :=
  match s with
  | EmptyString => EmptyString
  | String c s' => String (lower_char c) (lower s')
  end.

(** ** String methods *)

Definition len (s : string) : nat := String.length s.

Definition is_empty (s : string) : bool :=
  match s with EmptyString => true | _ => false end.

(** [s[n:]] *)
Fixpoint drop (n : nat) (s : string) : string :=
  match n, s with
  | 0, _ => s
  | S n', String _ s' => drop n' s'
  | S _, EmptyString => EmptyString
  end.

Fixpoint lstrip_by (p : ascii -> bool) (s : string) : string :=
  match s with
  | EmptyString => EmptyString
  | String c s' => if p c then lstrip_by p s' else s
  end.

Fixpoint rstrip_by (p : ascii -> bool) (s : string) : string :=
  match s with
  | EmptyString => EmptyString
  | String c s' =>
      let r := rstrip_by p s' in
      if is_empty r && p c then EmptyString else String c r
  end.

Definition strip_by (p : ascii -> bool) (s : string) : string :=
  rstrip_by p (lstrip_by p s).

(** [s.lstrip()], [s.strip()], [s.strip(chars)] *)
Definition lstrip (s : string) : string := lstrip_by is_space s.
Definition strip (s : string) : string := strip_by is_space s.
Definition strip_chars (chars : string) (s : string) : string :=
  strip_by (in_chars chars) s.

(** [s.startswith(p)], [s.endswith(p)], [sub in s] *)
Definition startswith (p s : string) : bool := String.prefix p s.

Fixpoint endswith (suf s : string) : bool :=
  String.eqb s suf ||
  match s with
  | EmptyString => false
  | String _ s' => endswith suf s'
  end.

Fixpoint contains (sub s : string) : bool :=
  String.prefix sub s ||
  match s with
  | EmptyString => false
  | String _ s' => contains sub s'
  end.

(** [s.split(sep)] for a one-character separator. *)
Fixpoint split (sep : ascii) (s : string) : list string :=
  match s with
  | EmptyString => [EmptyString]
  | String c s' =>
      if Ascii.eqb c sep then EmptyString :: split sep s'
      else match split sep s' with
           | hd :: tl => String c hd :: tl
           | [] => [String c EmptyString]
           end
  end.

(** [s.split(sep, 1)] for a one-character separator. *)
Fixpoint split1 (sep : ascii) (s : string) : list string :=
  match s with
  | EmptyString => [EmptyString]
  | String c s' =>
      if Ascii.eqb c sep then [EmptyString; s']
      else match split1 sep s' with
           | hd :: tl => String c hd :: tl
           | [] => [String c EmptyString]
           end
  end.

(** [sep.join(parts)] *)
Definition join (sep : string) (parts : list string) : string :=
  String.concat sep parts.

(** [s.replace(old, new, 1)]: the leftmost occurrence only. *)
Fixpoint replace_first_go (old new s : string) : string :=
  if String.prefix old s then new +:+ drop (len old) s
  else match s with
       | EmptyString => EmptyString
       | String c s' => String c (replace_first_go old new s')
       end.

Definition replace_first (old new s : string) : string :=
  replace_first_go old new s.

(** [xs[i]] on a list that is known to be long enough. *)
Definition item (i : nat) (xs : list string) : string := nth i xs EmptyString.

(** ** The text of the exceptions of the file system *)

Definition backslash : ascii := ascii_of_nat 92.
Definition single_quote : ascii := ascii_of_nat 39.
Definition double_quote : ascii := ascii_of_nat 34.

(** [str.isprintable()] of a character: the code points 32 to 126 and 161
    to 255 without the soft hyphen 173. *)
Definition is_printable (c : ascii) : bool :=
  let n := nat_of_ascii c in
  (32 <=? n) && (n <=? 126) || (161 <=? n) && negb (n =? 173).

Definition hex_digit (n : nat) : ascii :=
  nth n (list_ascii_of_string "0123456789abcdef") "0"%char.

(** One character of [repr(s)] between the quotes. *)
Definition repr_char (quote c : ascii) : string :=
  if Ascii.eqb c quote || Ascii.eqb c backslash
  then String backslash (String c EmptyString)
  else if Ascii.eqb c (ascii_of_nat 9) then String backslash "t"
  else if Ascii.eqb c (ascii_of_nat 10) then String backslash "n"
  else if Ascii.eqb c (ascii_of_nat 13) then String backslash "r"
  else if is_printable c then String c EmptyString
  else
    let n := nat_of_ascii c in
    String backslash
      (String "x" (String (hex_digit (n / 16))
                     (String (hex_digit (n mod 16)) EmptyString))).

Fixpoint repr_chars (quote : ascii) (s : string) : string :=
  match s with
  | EmptyString => EmptyString
  | String c s' => repr_char quote c +:+ repr_chars quote s'
  end.

(** [repr(s)] of a [str]: in single quotes, or in double quotes when the
    string holds a single quote and no double quote. *)
Definition repr (s : string) : string :=
  let quote :=
    if contains (String single_quote EmptyString) s
       && negb (contains (String double_quote EmptyString) s)
    then double_quote else single_quote in
  String quote (repr_chars quote s) +:+ String quote EmptyString.

(** [str(e)] of the [FileNotFoundError] of a call on the path [p]. *)
Definition no_such_file (p : string) : string :=
  "[Errno 2] No such file or directory: " +:+ repr p.

(** [str(e)] of the [FileExistsError] of [os.mkdir] on the path [p]. *)
Definition file_exists (p : string) : string :=
  "[Errno 17] File exists: " +:+ repr p.

(** [str(e)] of the [SameFileError] of [shutil.copyfile]. *)
Definition same_file (src dst : string) : string :=
  repr src +:+ " and " +:+ repr dst +:+ " are the same file".

(** What reading in text mode makes of the line ends: [open(p, 'r')]
    turns a carriage return with its line feed, and a carriage return
    alone, into a line feed. *)
Fixpoint universal_newlines (s : string) : string :=
  match s with
  | EmptyString => EmptyString
  | String c rest =>
      if Ascii.eqb c (ascii_of_nat 13) then
        match rest with
        | String c' rest' =>
            if Ascii.eqb c' (ascii_of_nat 10)
            then String c' (universal_newlines rest')
            else String (ascii_of_nat 10) (universal_newlines rest)
        | EmptyString => String (ascii_of_nat 10) EmptyString
        end
      else String c (universal_newlines rest)
  end.

End Py.

Notation "'let*' x ':=' r 'in' k" := (Py.bind r (fun x => k))
  (at level 10, x name, r at level 100, k at level 200).

(* ===================================================================== *)
(** * Regular expressions *)
(* ===================================================================== *)

Module Re.

(** A compiled pattern of the configuration: [p.search(s)] and
    [p.match(s)], read for their truth value only. *)
Record Pattern : Type := {
  search : string -> bool;
  match_ : string -> bool
}.

(** [re.compile(src, re.IGNORECASE)] and [re.compile(src)] for a source
    [src] of ASCII letters, digits and underscores, such as ['password'] or
    ['token']: [search] looks for [src] anywhere, [match] at the start, and
    ignoring case is comparing in lower case. *)
Definition compile_literal (ignorecase : bool) (src : string) : Pattern :=
  let fold := if ignorecase then Py.lower else (fun s => s) in
  {| search := fun s => Py.contains (fold src) (fold s);
     match_ := fun s => Py.startswith (fold src) (fold s) |}.

(** Longest prefix of characters satisfying [p], and the rest. *)
Fixpoint span (p : ascii -> bool) (s : string) : string * string :=
  match s with
  | EmptyString => (EmptyString, EmptyString)
  | String c s' =>
      if p c then let '(a, b) := span p s' in (String c a, b)
      else (EmptyString, s)
  end.

Definition newline : ascii := "010"%char.

(** The tail [( .* )$] of both patterns: the dot stops at a line feed and
    the dollar accepts the end of the string or a final line feed. *)
Definition dot_star_end (s : string) : option string :=
  let '(body, tail) := span (fun c => negb (Ascii.eqb c newline)) s in
  match tail with
  | EmptyString => Some body
  | String _ EmptyString => Some body
  | _ => None
  end.

Definition is_sep (c : ascii) : bool :=
  Ascii.eqb c "="%char || Ascii.eqb c ":"%char.

(** [re.match(r'^([^=:]+)[=:]( .* )$', line)]: groups 1 and 2.  The first
    group is greedy, and giving characters back cannot help, since the
    character after a shorter group is not a separator. *)
Definition match_properties (line : string) : option (string * string) :=
  let '(g1, rest) := span (fun c => negb (is_sep c)) line in
  match g1, rest with
  | String _ _, String _ rest' =>
      match dot_star_end rest' with
      | Some g2 => Some (g1, g2)
      | None => None
      end
  | _, _ => None
  end.

Definition is_alpha_ (c : ascii) : bool :=
  let n := nat_of_ascii c in
  ((65 <=? n) && (n <=? 90)) || ((97 <=? n) && (n <=? 122)) || (n =? 95).

Definition is_digit (c : ascii) : bool :=
  let n := nat_of_ascii c in (48 <=? n) && (n <=? 57).

Definition is_word (c : ascii) : bool := is_alpha_ c || is_digit c.

(** The part [([A-Za-z_][A-Za-z0-9_]* )=( .* )$] of the pattern below, from
    the start of [s]: its two groups. *)
Definition match_assignment (s : string) : option (string * string) :=
  match s with
  | String c s' =>
      if is_alpha_ c then
        let '(more, rest) := span is_word s' in
        match rest with
        | String "=" v =>
            match dot_star_end v with
            | Some g3 => Some (String c more, g3)
            | None => None
            end
        | _ => None
        end
      else None
  | EmptyString => None
  end.

(** [re.match(r'^(export\s+)?([A-Za-z_][A-Za-z0-9_]* )=( .* )$', line)]:
    groups 1 ([None] when the optional group took no part), 2 and 3.  The
    optional group is tried first, with all the white space that follows
    [export]; when the rest fails after it the match is retried without. *)
Definition match_env (line : string) : option (option string * string * string) :=
  let without :=
    match match_assignment line with
    | Some (g2, g3) => Some (None, g2, g3)
    | None => None
    end in
  if Py.startswith "export" line then
    let '(ws, rest) := span Py.is_space (Py.drop 6 line) in
    match ws with
    | String _ _ =>
        match match_assignment rest with
        | Some (g2, g3) => Some (Some ("export" +:+ ws), g2, g3)
        | None => without
        end
    | EmptyString => without
    end
  else without.

End Re.

(* ===================================================================== *)
(** * masker.py *)
(* ===================================================================== *)

Module Masker.

Import Py.

(** One entry of [masked_items]: the dict with the keys ['line'], ['key'],
    ['original_value'] and ['type']. *)
Record MaskingItem : Type := {
  item_line : nat;
  item_key : string;
  item_original_value : string;
  item_type : string
}.

Record MaskingResult : Type := {
  file_path : value;
  original_content : value;
  masked_content : value;
  masked_items : list MaskingItem;
  error : option string
}.

Definition is_success (r : MaskingResult) : bool :=
  match error r with None => true | Some _ => false end.

Definition masked_count (r : MaskingResult) : nat := length (masked_items r).

(** ** SensitivePatternMatcher *)

Record SensitivePatternMatcher : Type := {
  key_patterns : list Re.Pattern;
  value_patterns : list Re.Pattern;
  exclude_key_patterns : list Re.Pattern;
  exclude_value_patterns : list Re.Pattern
}.

(** [for pattern in patterns: if pattern.search(key): return ...] reaches
    its [return] iff some pattern of the list matches. *)
Fixpoint some_search (patterns : list Re.Pattern) (key : string) : bool :=
  match patterns with
  | [] => false
  | pattern :: rest =>
      if Re.search pattern key then true else some_search rest key
  end.

Fixpoint some_match (patterns : list Re.Pattern) (v : string) : bool :=
  match patterns with
  | [] => false
  | pattern :: rest =>
      if Re.match_ pattern v then true else some_match rest v
  end.

Definition is_sensitive_key (self : SensitivePatternMatcher) (key : string)
  : bool :=
  if some_search (exclude_key_patterns self) key then false
  else if some_search (key_patterns self) key then true
  else false.

Definition is_sensitive_value (self : SensitivePatternMatcher) (v : value)
  : bool :=
  match v with
  | VStr s =>
      if some_match (exclude_value_patterns self) s then false
      else if some_match (value_patterns self) s then true
      else false
  | _ => false
  end.

Definition isinstance_str (v : value) : bool :=
  match v with VStr _ => true | _ => false end.

Definition should_mask (self : SensitivePatternMatcher) (key : string)
  (v : value) : bool :=
  match v with
  | VNone => false
  | VStr EmptyString => false
  | _ =>
      if match v with
         | VStr s => startswith "***" s && endswith "***" s
         | _ => false
         end
      then false
      else is_sensitive_key self key
           || (isinstance_str v && is_sensitive_value self v)
  end.

(** The double quote, as a one-character string. *)
Definition dq : string := String (ascii_of_nat 34) EmptyString.

(** The argument of the two [strip] calls that remove quotes: the double
    and the single quote. *)
Definition quote_chars : string := String (ascii_of_nat 34) "'".

Definition is_nil {A} (xs : list A) : bool :=
  match xs with [] => true | _ => false end.

(** [for line_num, line in enumerate(lines, line_num): body], for a body
    that appends one line to [result_lines] and some items to
    [masked_items]: the two lists at the end of the loop. *)
Fixpoint for_each_line (body : nat -> string -> string * list MaskingItem)
  (line_num : nat) (lines : list string) : list string * list MaskingItem :=
  match lines with
  | [] => ([], [])
  | line :: rest =>
      let '(out, items) := body line_num line in
      let '(result_lines, masked_items) :=
        for_each_line body (S line_num) rest in
      (out :: result_lines, items ++ masked_items)
  end.

(** ** YamlMasker *)

Module YamlMasker.

Record t : Type := { matcher : SensitivePatternMatcher; mask_format : string }.

(** The [while] loop that unwinds the two stacks.  Every round removes an
    element of [indent_stack], so [length indent_stack] rounds are enough
    ([adjust_complete] below). *)
Fixpoint adjust (fuel current_indent : nat) (key_stack : list string)
  (indent_stack : list nat) : list string * list nat :=
  match fuel with
  | 0 => (key_stack, indent_stack)
  | S fuel' =>
      if (1 <? length indent_stack) && (current_indent <=? List.last indent_stack 0)
      then adjust fuel' current_indent
             (if is_nil key_stack then key_stack else removelast key_stack)
             (removelast indent_stack)
      else (key_stack, indent_stack)
  end.

(** The body of the [for] loop: the line appended to [result_lines], the
    items appended to [masked_items] and the two stacks afterwards. *)
Definition mask_line (self : t) (line_num : nat) (line : string)
  (key_stack : list string) (indent_stack : list nat)
  : string * list MaskingItem * (list string * list nat) :=
  if is_empty (strip line) || startswith "#" (strip line)
  then (line, [], (key_stack, indent_stack))
  else
    let stripped := lstrip line in
    let current_indent := len line - len stripped in
    let '(key_stack, indent_stack) :=
      adjust (length indent_stack) current_indent key_stack indent_stack in
    if contains ":" stripped && negb (startswith "-" stripped) then
      let key_part := strip (item 0 (split1 ":" stripped)) in
      let value_part :=
        if contains ":" stripped then strip (item 1 (split1 ":" stripped))
        else EmptyString in
      let full_key :=
        if is_nil key_stack then key_part
        else join "." (key_stack ++ [key_part]) in
      if negb (is_empty value_part) && negb (startswith "#" value_part) then
        let actual_value := strip_chars quote_chars value_part in
        if should_mask (matcher self) full_key (VStr actual_value) then
          let masked_line :=
            replace_first value_part (dq +:+ mask_format self +:+ dq) line in
          (masked_line,
           [{| item_line := line_num; item_key := full_key;
               item_original_value := actual_value; item_type := "yaml" |}],
           (key_stack, indent_stack))
        else (line, [], (key_stack, indent_stack))
      else (line, [], (key_stack ++ [key_part], indent_stack ++ [current_indent]))
    else (line, [], (key_stack, indent_stack)).

(** [for line_num, line in enumerate(lines, line_num)], from the given
    stacks: [result_lines] and [masked_items] at the end. *)
Fixpoint walk_lines (self : t) (line_num : nat) (lines : list string)
  (key_stack : list string) (indent_stack : list nat)
  : list string * list MaskingItem :=
  match lines with
  | [] => ([], [])
  | line :: rest =>
      let '(out, items, (key_stack', indent_stack')) :=
        mask_line self line_num line key_stack indent_stack in
      let '(result_lines, masked_items) :=
        walk_lines self (S line_num) rest key_stack' indent_stack' in
      (out :: result_lines, items ++ masked_items)
  end.

(** [result_lines] and [masked_items] when the loop has ended. *)
Definition mask_lines (self : t) (content : string)
  : list string * list MaskingItem :=
  let lines := split Re.newline content in
  walk_lines self 1 lines [] [0].

Definition mask_content (self : t) (content : string)
  : string * list MaskingItem :=
  let '(result_lines, masked_items) := mask_lines self content in
  (join (String Re.newline EmptyString) result_lines, masked_items).

End YamlMasker.

(** ** PropertiesMasker *)

Module PropertiesMasker.

Record t : Type := { matcher : SensitivePatternMatcher; mask_format : string }.

Definition mask_line (self : t) (line_num : nat) (line : string)
  : string * list MaskingItem :=
  let stripped := strip line in
  if is_empty stripped || startswith "#" stripped || startswith "!" stripped
  then (line, [])
  else
    match Re.match_properties line with
    | Some (g1, g2) =>
        let key := strip g1 in
        let v := strip g2 in
        if should_mask (matcher self) key (VStr v) then
          let separator := if contains "=" line then "=" else ":" in
          let masked_line := key +:+ separator +:+ mask_format self in
          (masked_line,
           [{| item_line := line_num; item_key := key;
               item_original_value := v; item_type := "properties" |}])
        else (line, [])
    | None => (line, [])
    end.

(** [result_lines] and [masked_items] when the loop has ended. *)
Definition mask_lines (self : t) (content : string)
  : list string * list MaskingItem :=
  let lines := split Re.newline content in
  for_each_line (mask_line self) 1 lines.

Definition mask_content (self : t) (content : string)
  : string * list MaskingItem :=
  let '(result_lines, masked_items) := mask_lines self content in
  (join (String Re.newline EmptyString) result_lines, masked_items).

End PropertiesMasker.

(** ** EnvMasker *)

Module EnvMasker.

Record t : Type := { matcher : SensitivePatternMatcher; mask_format : string }.

Definition mask_line (self : t) (line_num : nat) (line : string)
  : string * list MaskingItem :=
  let stripped := strip line in
  if is_empty stripped || startswith "#" stripped
  then (line, [])
  else
    match Re.match_env line with
    | Some (g1, g2, g3) =>
        let export_prefix :=
          match g1 with Some p => p | None => EmptyString end in
        let key := g2 in
        let v := strip_chars quote_chars g3 in
        if should_mask (matcher self) key (VStr v) then
          let masked_line :=
            export_prefix +:+ key +:+ "=" +:+ dq +:+ mask_format self +:+ dq in
          (masked_line,
           [{| item_line := line_num; item_key := key;
               item_original_value := v; item_type := "env" |}])
        else (line, [])
    | None => (line, [])
    end.

(** [result_lines] and [masked_items] when the loop has ended. *)
Definition mask_lines (self : t) (content : string)
  : list string * list MaskingItem :=
  let lines := split Re.newline content in
  for_each_line (mask_line self) 1 lines.

Definition mask_content (self : t) (content : string)
  : string * list MaskingItem :=
  let '(result_lines, masked_items) := mask_lines self content in
  (join (String Re.newline EmptyString) result_lines, masked_items).

End EnvMasker.

(** ** MaskingEngine *)

Record MaskingEngine : Type := {
  mask_format : string;
  matcher : SensitivePatternMatcher;
  yaml_masker : YamlMasker.t;
  properties_masker : PropertiesMasker.t;
  env_masker : EnvMasker.t
}.

(** [__init__], from the mask format and the compiled patterns of the
    configuration: one matcher shared by the three maskers. *)
Definition new_engine (fmt : string) (m : SensitivePatternMatcher)
  : MaskingEngine :=
  {| mask_format := fmt;
     matcher := m;
     yaml_masker := {| YamlMasker.matcher := m; YamlMasker.mask_format := fmt |};
     properties_masker :=
       {| PropertiesMasker.matcher := m; PropertiesMasker.mask_format := fmt |};
     env_masker := {| EnvMasker.matcher := m; EnvMasker.mask_format := fmt |} |}.

(** The [try] block of [mask_file]: the choice of the masker and its run.
    [file_path.endswith] and [content.split] are the attribute look-ups that
    fail on a value that is no [str]. *)
Definition mask_file_try (self : MaskingEngine) (path content : value)
  : result (string * list MaskingItem) :=
  let* p := str_method "endswith" path in
  if endswith ".yml" p || endswith ".yaml" p then
    let* c := str_method "split" content in
    Ok (YamlMasker.mask_content (yaml_masker self) c)
  else if endswith ".properties" p then
    let* c := str_method "split" content in
    Ok (PropertiesMasker.mask_content (properties_masker self) c)
  else if endswith ".env" p || contains ".env" p then
    let* c := str_method "split" content in
    Ok (EnvMasker.mask_content (env_masker self) c)
  else
    let* c := str_method "split" content in
    Ok (PropertiesMasker.mask_content (properties_masker self) c).

Definition mask_file (self : MaskingEngine) (path content : value)
  : result MaskingResult :=
  try_except
    (let* out := mask_file_try self path content in
     let '(masked, items) := out in
     Ok {| file_path := path;
           original_content := content;
           masked_content := VStr masked;
           masked_items := items;
           error := None |})
    (fun e =>
     Ok {| file_path := path;
           original_content := content;
           masked_content := content;
           masked_items := [];
           error := Some (str_of_exn e) |}).

(** ** Compiling the patterns *)

Section Compiling.

(** [re.compile(src, re.IGNORECASE)] when the flag is set and
    [re.compile(src)] otherwise: the compiled pattern, or nothing when the
    call raises. *)
Variable re_compile : bool -> string -> option Re.Pattern.

(** The exception of a call that raises: [re.error] for a source that is
    no regular expression, and one of another class for a source that the
    compiler gives up on, such as the [OverflowError] of a repetition
    count that is too large. *)
Variable re_raises : bool -> string -> exn.

(** [[re.compile(p, flags) for p in srcs]]: the first source that does not
    compile ends the comprehension with its exception. *)
Fixpoint compile_all (ignorecase : bool) (srcs : list string)
  : option (list Re.Pattern) :=
  match srcs with
  | [] => Some []
  | p :: rest =>
      match re_compile ignorecase p with
      | Some compiled =>
          match compile_all ignorecase rest with
          | Some more => Some (compiled :: more)
          | None => None
          end
      | None => None
      end
  end.

(** [SensitivePatternMatcher.__init__]; an argument left out, or [None],
    stands for the empty list. *)
Definition new_matcher (key_patterns : list string)
  (value_patterns exclude_key_patterns exclude_value_patterns
     : option (list string))
  : option SensitivePatternMatcher :=
  match compile_all true key_patterns with
  | Some kp =>
      match compile_all false (default [] value_patterns) with
      | Some vp =>
          match compile_all true (default [] exclude_key_patterns) with
          | Some ekp =>
              match compile_all false (default [] exclude_value_patterns) with
              | Some evp =>
                  Some {| Masker.key_patterns := kp;
                          Masker.value_patterns := vp;
                          Masker.exclude_key_patterns := ekp;
                          Masker.exclude_value_patterns := evp |}
              | None => None
              end
          | None => None
          end
      | None => None
      end
  | None => None
  end.

(** The entries of the configuration dict that the engine reads; [None]
    for a key that the dict does not have. *)
Record Config : Type := {
  cfg_mask_format : option string;
  cfg_sensitive_key_patterns : option (list string);
  cfg_sensitive_value_patterns : option (list string);
  cfg_exclude_key_patterns : option (list string);
  cfg_exclude_value_patterns : option (list string)
}.

(** [MaskingEngine.__init__(config)]: nothing when the compiling of a
    pattern of the configuration raises. *)
Definition engine_init (config : Config) : option MaskingEngine :=
  let fmt := default "***MASKED***" (cfg_mask_format config) in
  match new_matcher (default [] (cfg_sensitive_key_patterns config))
          (Some (default [] (cfg_sensitive_value_patterns config)))
          (Some (default [] (cfg_exclude_key_patterns config)))
          (Some (default [] (cfg_exclude_value_patterns config))) with
  | Some m => Some (new_engine fmt m)
  | None => None
  end.

(** The matcher after [self.key_patterns.append(compiled)]. *)
Definition grown (m : SensitivePatternMatcher) (compiled : Re.Pattern)
  : SensitivePatternMatcher :=
  {| key_patterns := key_patterns m ++ [compiled];
     value_patterns := value_patterns m;
     exclude_key_patterns := exclude_key_patterns m;
     exclude_value_patterns := exclude_value_patterns m |}.

(** [self.matcher.key_patterns.append(compiled)] in the engine.  The
    matcher of the engine is the very object that [__init__] handed to the
    three maskers, so the list that grows is the one that each of them
    reads. *)
Definition append_key_pattern (self : MaskingEngine) (compiled : Re.Pattern)
  : MaskingEngine :=
  let m := grown (matcher self) compiled in
  {| mask_format := mask_format self;
     matcher := m;
     yaml_masker :=
       {| YamlMasker.matcher := m;
          YamlMasker.mask_format := YamlMasker.mask_format (yaml_masker self) |};
     properties_masker :=
       {| PropertiesMasker.matcher := m;
          PropertiesMasker.mask_format :=
            PropertiesMasker.mask_format (properties_masker self) |};
     env_masker :=
       {| EnvMasker.matcher := m;
          EnvMasker.mask_format := EnvMasker.mask_format (env_masker self) |} |}.

(** [except re.error] *)
Definition is_re_error (e : exn) : bool :=
  match e with
  | ReError _ => true
  | _ => false
  end.

(** [add_sensitive_patterns(patterns)]: the outcome of the call and the
    engine that it leaves.  A pattern that raises [re.error] is passed
    over; another exception ends the loop and the call, and the patterns
    appended before it stay. *)
Fixpoint add_sensitive_patterns (self : MaskingEngine) (patterns : list string)
  : result unit * MaskingEngine :=
  match patterns with
  | [] => (Ok tt, self)
  | pattern :: rest =>
      match re_compile true pattern with
      | Some compiled =>
          add_sensitive_patterns (append_key_pattern self compiled) rest
      | None =>
          let e := re_raises true pattern in
          if is_re_error e then add_sensitive_patterns self rest
          else (Raise e, self)
      end
  end.

End Compiling.

End Masker.

(* ===================================================================== *)
(** * scanner.py *)
(* ===================================================================== *)

Module Scanner.

Import Py.

(** ** os.path *)

(** [os.path.join(a, b)] *)
Definition path_join (a b : string) : string :=
  if startswith "/" b then b
  else if is_empty a || endswith "/" a then a +:+ b
  else a +:+ "/" +:+ b.

(** [[x for x in p.split('/') if x]] *)
Definition components (p : string) : list string :=
  filter (fun x => negb (is_empty x) = true) (split "/" p).

(** [len(os.path.commonprefix([xs, ys]))] on two lists of components. *)
Fixpoint common_len (xs ys : list string) : nat :=
  match xs, ys with
  | x :: xs', y :: ys' => if String.eqb x y then S (common_len xs' ys') else 0
  | _, _ => 0
  end.

Section Environment.

(** [fnmatch.fnmatch(name, pattern)] and [os.path.abspath(path)], the
    latter depending on the working directory of the process. *)
Variable fnmatch : string -> string -> bool.
Variable abspath : string -> string.

(** [os.path.relpath(path, start)] for a non-empty [path]; on an empty one
    it raises [ValueError].  The paths that [scan] passes are not empty:
    they are joined to the absolute path of the project. *)
Definition relpath (path start : string) : string :=
  let start_list := components (abspath start) in
  let path_list := components (abspath path) in
  let i := common_len start_list path_list in
  let rel_list :=
    repeat ".." (length start_list - i) ++ List.skipn i path_list in
  match rel_list with
  | [] => "."
  | first :: more => fold_left path_join more first
  end.

(** ** FileScanner *)

Record FileScanner : Type := {
  file_patterns : list string;
  exclude_dirs : gset string;
  include_patterns : list string;
  exclude_patterns : list string
}.

Definition _should_exclude_dir (self : FileScanner) (dir_name : string) : bool :=
  bool_decide (dir_name ∈ exclude_dirs self) || startswith "." dir_name.

Fixpoint _matches_pattern (filename : string) (patterns : list string) : bool :=
  match patterns with
  | [] => false
  | pattern :: rest =>
      if fnmatch filename pattern then true else _matches_pattern filename rest
  end.

Fixpoint some_exclude (file_path filename : string) (patterns : list string)
  : bool :=
  match patterns with
  | [] => false
  | pattern :: rest =>
      if fnmatch file_path pattern || fnmatch filename pattern then true
      else some_exclude file_path filename rest
  end.

Definition _should_process_file (self : FileScanner)
  (file_path filename : string) : bool :=
  if some_exclude file_path filename (exclude_patterns self) then false
  else if negb (Masker.is_nil (include_patterns self))
  then _matches_pattern filename (include_patterns self)
  else _matches_pattern filename (file_patterns self).

(** A directory as [os.walk] reports it: the names of its files and its
    sub-directories, each with its own content. *)
#[local] Unset Elimination Schemes.
Inductive tree : Type :=
| Dir (files : list string) (dirs : list (string * tree)).
#[local] Set Elimination Schemes.

(** The loop over [os.walk] below directory [root], whose content is [t].
    [os.walk] reports [root] with its [dirs] and [files]; the body removes
    the excluded names from [dirs] in place and yields the accepted files;
    then [os.walk] goes on with the directories left in [dirs], in order. *)
Fixpoint scan_walk (self : FileScanner) (project_path root : string)
  (t : tree) : list string :=
  match t with
  | Dir files dirs =>
      flat_map (fun filename =>
                  let file_path := path_join root filename in
                  let rel_path := relpath file_path project_path in
                  if _should_process_file self rel_path filename
                  then [file_path] else [])
               files
      ++ flat_map (fun d =>
                     if _should_exclude_dir self (fst d) then []
                     else scan_walk self project_path
                            (path_join root (fst d)) (snd d))
                  dirs
  end.

(** [scan(project_path)], the directory at [project_path] holding [t]: the
    yielded paths in order. *)
Definition scan (self : FileScanner) (project_path : string) (t : tree)
  : list string :=
  let project_path := abspath project_path in
  scan_walk self project_path project_path t.

(** ** BackupManager *)

(** A Python dict from [str] to [str]: its items in insertion order. *)
Definition dict : Type := list (string * string).

Fixpoint dict_get (d : dict) (k : string) : option string :=
  match d with
  | [] => None
  | (k', v) :: rest => if String.eqb k' k then Some v else dict_get rest k
  end.

(** [d[k] = v]: an existing key keeps its place, a new one goes last. *)
Fixpoint dict_set (d : dict) (k v : string) : dict :=
  match d with
  | [] => [(k, v)]
  | (k', v') :: rest =>
      if String.eqb k' k then (k', v) :: rest
      else (k', v') :: dict_set rest k v
  end.

(** [d.update(other)] *)
Definition dict_update (d other : dict) : dict :=
  fold_left (fun acc kv => dict_set acc (fst kv) (snd kv)) other d.

(** What a file holds: a text, or the text that [json.dump] has written
    for a dict, given by the dict.  Directories are not represented: a path
    names a file or nothing. *)
Inductive file_data : Type :=
| Text (s : string)
| Json (d : dict).

Record BackupManager : Type := {
  backup_dir_name : string;
  suffix : string;
  _backup_manifest : dict
}.

(** The manager and the files on disk (path to content); an exception
    leaves both as they were when it was raised. *)
Record state : Type := {
  manager : BackupManager;
  disk : gmap string file_data
}.

Definition M (A : Type) : Type := state -> result A * state.

Definition ret {A} (a : A) : M A := fun st => (Ok a, st).

Definition raise {A} (e : exn) : M A := fun st => (Raise e, st).

Definition mbind {A B} (m : M A) (k : A -> M B) : M B :=
  fun st =>
    match m st with
    | (Ok a, st') => k a st'
    | (Raise e, st') => (Raise e, st')
    end.

Notation "'do' x <- m ; k" := (mbind m (fun x => k))
  (at level 10, x name, m at level 100, k at level 200).
Notation "'do_' m ; k" := (mbind m (fun _ => k))
  (at level 10, m at level 100, k at level 200).

(** The calls that the file system can refuse for a reason that the disk
    does not show, such as a directory that is missing or protected:
    [os.makedirs], [shutil.copy2], and [open] for reading and for writing
    with what is done on the open file. *)
Inductive syscall : Type :=
| Makedirs (d : string)
| Copy2 (src dst : string)
| OpenRead (p : string)
| OpenWrite (p : string).

(** The exception of a call that the file system refuses, such as the
    [FileNotFoundError] of [shutil.copy2] and of [open(p, 'w')] for a path
    in a directory that does not exist, or a [PermissionError]; a refused
    call has changed no file. *)
Variable refuses : syscall -> option exn.

(** What [json.load] returns: a dict, given by the members of the JSON
    object in the order of the document, each a [str], where a name may
    come more than once; or a value of another type ([list], [str], [int],
    [float], [bool], [NoneType]), given by the name of the type.  An object
    with a member that is no [str] is not covered. *)
Inductive loaded : Type :=
| Members (pairs : dict)
| Another (type_name : string).

(** [json.loads] on a text: what it returns, or the [JSONDecodeError] that
    it raises. *)
Variable json_loads : string -> result loaded.

(** [os.path.exists(p)] *)
Definition path_exists (p : string) : M bool :=
  fun st => (Ok (bool_decide (is_Some (disk st !! p))), st).

(** [os.makedirs(d, exist_ok=True)]: [FileExistsError] when [d] is a
    file, and what the file system refuses the call with. *)
Definition makedirs (d : string) : M unit :=
  fun st =>
    match disk st !! d with
    | Some _ => (Raise (FileExistsError (file_exists d)), st)
    | None =>
        match refuses (Makedirs d) with
        | Some e => (Raise e, st)
        | None => (Ok tt, st)
        end
    end.

(** [shutil.copy2(src, dst)]: [FileNotFoundError] for a source that does
    not exist, [SameFileError] for a file onto itself, and what the file
    system refuses the copy with; the copy holds what the source holds. *)
Definition copy2 (src dst : string) : M unit :=
  fun st =>
    match disk st !! src with
    | None => (Raise (FileNotFoundError (no_such_file src)), st)
    | Some data =>
        if String.eqb src dst
        then (Raise (SameFileError (same_file src dst)), st)
        else
          match refuses (Copy2 src dst) with
          | Some e => (Raise e, st)
          | None => (Ok tt, {| manager := manager st;
                               disk := <[dst := data]> (disk st) |})
          end
    end.

(** [json.load(f)] on a file that is open for reading: the members of
    the object are put into a fresh dict one after the other, so that of
    two members with the same name the first fixes the place and the last
    the value. *)
Definition json_of (data : file_data) : result loaded :=
  match data with
  | Json members => Ok (Members (dict_update [] members))
  | Text s =>
      match json_loads (universal_newlines s) with
      | Ok (Members pairs) => Ok (Members (dict_update [] pairs))
      | Ok (Another type_name) => Ok (Another type_name)
      | Raise e => Raise e
      end
  end.

(** [with open(p, 'r') as f: json.load(f)]; the text is read in text
    mode. *)
Definition json_load (p : string) : M loaded :=
  fun st =>
    match disk st !! p with
    | None => (Raise (FileNotFoundError (no_such_file p)), st)
    | Some data =>
        match refuses (OpenRead p) with
        | Some e => (Raise e, st)
        | None => (json_of data, st)
        end
    end.

(** Looking up a [dict] method on what [json.load] has returned:
    [AttributeError] on a value of another type. *)
Definition dict_method (meth : string) (v : loaded) : result dict :=
  match v with
  | Members d => Ok d
  | Another type_name =>
      Raise (AttributeError
        ("'" +:+ type_name +:+ "' object has no attribute '" +:+ meth +:+ "'"))
  end.

(** [with open(p, 'w') as f: json.dump(d, f)]; the file system may refuse
    the call. *)
Definition json_dump (d : dict) (p : string) : M unit :=
  fun st =>
    match refuses (OpenWrite p) with
    | Some e => (Raise e, st)
    | None =>
        (Ok tt, {| manager := manager st; disk := <[p := Json d]> (disk st) |})
    end.

Definition get_self : M BackupManager := fun st => (Ok (manager st), st).

(** A computation that does not touch the state. *)
Definition lift {A} (r : result A) : M A := fun st => (r, st).

(** [self._backup_manifest[k] = v] *)
Definition manifest_setitem (k v : string) : M unit :=
  fun st =>
    (Ok tt,
     {| manager :=
          {| backup_dir_name := backup_dir_name (manager st);
             suffix := suffix (manager st);
             _backup_manifest := dict_set (_backup_manifest (manager st)) k v |};
        disk := disk st |}).

Definition _get_backup_dir (self : BackupManager) (project_path : string)
  : string :=
  path_join project_path (backup_dir_name self).

(** [s.replace('/', '_')] *)
Fixpoint replace_sep (s : string) : string :=
  match s with
  | EmptyString => EmptyString
  | String c s' =>
      String (if Ascii.eqb c "/"%char then "_"%char else c) (replace_sep s')
  end.

(** [timestamp] is [datetime.now().strftime('%Y%m%d_%H%M%S')] at the call. *)
Definition _get_backup_path (self : BackupManager) (timestamp : string)
  (original_path project_path : string) : result string :=
  let backup_dir := _get_backup_dir self project_path in
  if is_empty original_path then Raise (ValueError "no path specified")
  else
    let rel_path := relpath original_path project_path in
    let backup_filename :=
      replace_sep rel_path +:+ "_" +:+ timestamp +:+ suffix self in
    Ok (path_join backup_dir backup_filename).

Definition manifest_path (self : BackupManager) (project_path : string)
  : string :=
  path_join (_get_backup_dir self project_path) "manifest.json".

Definition _save_manifest (project_path : string) : M unit :=
  do self <- get_self;
  let manifest_path := manifest_path self project_path in
  do present <- path_exists manifest_path;
  do existing <-
    (if present then json_load manifest_path else ret (Members []));
  do self <- get_self;
  do existing <- lift (dict_method "update" existing);
  let existing := dict_update existing (_backup_manifest self) in
  json_dump existing manifest_path.

Definition create_backup (timestamp : string) (file_path project_path : string)
  : M string :=
  do self <- get_self;
  let backup_dir := _get_backup_dir self project_path in
  do_ makedirs backup_dir;
  do backup_path <-
    lift (_get_backup_path self timestamp file_path project_path);
  do_ copy2 file_path backup_path;
  do_ manifest_setitem file_path backup_path;
  do_ _save_manifest project_path;
  ret backup_path.

(** [for original_path, backup_path in items: ...] of [restore_all] *)
Fixpoint restore_items (items : dict) (restored : list string)
  : M (list string) :=
  match items with
  | [] => ret restored
  | (original_path, backup_path) :: rest =>
      do present <- path_exists backup_path;
      if present then
        do_ copy2 backup_path original_path;
        restore_items rest (restored ++ [original_path])
      else restore_items rest restored
  end.

Definition restore_all (project_path : string) : M (list string) :=
  do self <- get_self;
  let manifest_path := manifest_path self project_path in
  do present <- path_exists manifest_path;
  if negb present then ret []
  else
    do manifest <- json_load manifest_path;
    do items <- lift (dict_method "items" manifest);
    restore_items items [].

Definition get_latest_backup (file_path project_path : string)
  : M (option string) :=
  do self <- get_self;
  let manifest_path := manifest_path self project_path in
  do present <- path_exists manifest_path;
  if negb present then ret None
  else
    do manifest <- json_load manifest_path;
    do manifest <- lift (dict_method "get" manifest);
    ret (dict_get manifest file_path).

(** ** FileScanner.scan_multiple *)

(** [scan_multiple(project_paths)], each path with the directory that
    [os.walk] finds there: [yield from] one scan after the other. *)
Definition scan_multiple (self : FileScanner)
  (project_paths : list (string * tree)) : list string :=
  flat_map (fun project => scan self (fst project) (snd project)) project_paths.

(** ** FileProcessor *)

Section Files.

(** The text that [json.dump] writes for a dict. *)
Variable json_text : dict -> string.

Definition text_of_file (data : file_data) : string :=
  match data with
  | Text s => s
  | Json d => json_text d
  end.

(** The [BackupManager] object of the state, as an attribute value. *)
Inductive manager_ref : Type := TheManager.

Record FileProcessor : Type := {
  backup_manager : option manager_ref
}.

(** [with open(file_path, 'r') as f: return f.read()]: the text of the
    file with the line ends as text mode gives them; [FileNotFoundError]
    for a file that does not exist, and what the file system refuses the
    reading with. *)
Definition read_file (file_path : string) : M string :=
  fun st =>
    match disk st !! file_path with
    | None => (Raise (FileNotFoundError (no_such_file file_path)), st)
    | Some data =>
        match refuses (OpenRead file_path) with
        | Some e => (Raise e, st)
        | None => (Ok (universal_newlines (text_of_file data)), st)
        end
    end.

(** [with open(file_path, 'w') as f: f.write(content)]: the file holds
    the content as it is, a line feed being the line end of the platform;
    the file system may refuse the call, as it does with
    [FileNotFoundError] when the directory of the path does not exist. *)
Definition write_text (file_path content : string) : M unit :=
  fun st =>
    match refuses (OpenWrite file_path) with
    | Some e => (Raise e, st)
    | None =>
        (Ok tt, {| manager := manager st;
                   disk := <[file_path := Text content]> (disk st) |})
    end.

(** The truth value of an optional [str]: [None] and [''] are false. *)
Definition truthy (s : option string) : bool :=
  match s with
  | Some s => negb (is_empty s)
  | None => false
  end.

(** [write_file(file_path, content, project_path, create_backup)];
    [timestamp] is the reading of the clock if a backup is made. *)
Definition write_file (self : FileProcessor) (timestamp : string)
  (file_path content : string) (project_path : option string)
  (create_backup_flag : bool) : M unit :=
  do_ (if create_backup_flag
          && bool_decide (is_Some (backup_manager self))
          && truthy project_path
       then
         do_ create_backup timestamp file_path (default "" project_path);
         ret tt
       else ret tt);
  write_text file_path content.

(** [process_file(file_path, processor_func, project_path, create_backup,
    dry_run)]; [processor_func] is a function of the content that may
    raise. *)
Definition process_file (self : FileProcessor) (timestamp : string)
  (file_path : string) (processor_func : string -> result string)
  (project_path : option string) (create_backup_flag dry_run : bool)
  : M string :=
  do content <- read_file file_path;
  do processed_content <- lift (processor_func content);
  do_ (if negb dry_run && negb (String.eqb content processed_content)
       then write_file self timestamp file_path processed_content
              project_path create_backup_flag
       else ret tt);
  ret processed_content.

End Files.

End Environment.

End Scanner.

(* ===================================================================== *)
(** * reporter.py: the counters of a report *)
(* ===================================================================== *)

Module Reporter.

Import Py.

Record FileReport : Type := {
  file_path : string;
  relative_path : string;
  masked_count : Z;
  masked_items : list Masker.MaskingItem;
  backup_path : option string;
  error : option string
}.

Definition is_success (r : FileReport) : bool :=
  match error r with None => true | Some _ => false end.

Record MaskingReport : Type := {
  project_path : string;
  timestamp : string;
  total_files_scanned : Z;
  total_files_masked : Z;
  total_items_masked : Z;
  files : list FileReport;
  errors : list string;
  config_used : list (string * value);
  llm_used : bool;
  dry_run : bool
}.

(** [MaskingReport(project_path=..., llm_used=..., dry_run=...)], as the
    command line tool builds it; [timestamp] is the reading of the clock. *)
Definition new_report (project_path timestamp : string)
  (llm_used dry_run : bool) : MaskingReport :=
  {| project_path := project_path;
     timestamp := timestamp;
     total_files_scanned := 0;
     total_files_masked := 0;
     total_items_masked := 0;
     files := [];
     errors := [];
     config_used := [];
     llm_used := llm_used;
     dry_run := dry_run |}.

(** The truth value of [file_report.error]: [None] and [''] are false. *)
Definition error_text (r : FileReport) : option string :=
  match error r with
  | Some e => if is_empty e then None else Some e
  | None => None
  end.

Definition add_file_report (self : MaskingReport) (file_report : FileReport)
  : MaskingReport :=
  let counted := is_success file_report && (0 <? masked_count file_report)%Z in
  {| project_path := project_path self;
     timestamp := timestamp self;
     total_files_scanned := (total_files_scanned self + 1)%Z;
     total_files_masked :=
       if counted then (total_files_masked self + 1)%Z
       else total_files_masked self;
     total_items_masked :=
       if counted
       then (total_items_masked self + masked_count file_report)%Z
       else total_items_masked self;
     files := files self ++ [file_report];
     errors :=
       match error_text file_report with
       | Some e => errors self ++ [file_path file_report +:+ ": " +:+ e]
       | None => errors self
       end;
     config_used := config_used self;
     llm_used := llm_used self;
     dry_run := dry_run self |}.

(** The entry ['has_errors'] of [to_dict()]: [len(self.errors) > 0]. *)
Definition has_errors (self : MaskingReport) : bool :=
  0 <? length (errors self).

End Reporter.

(* ===================================================================== *)
(** * Vocabulary of the statements *)
(* ===================================================================== *)

Module Says.

Import Py Masker.

(** Every character of [s] satisfies [p]. *)
Fixpoint all_chars (p : ascii -> bool) (s : string) : bool :=
  match s with
  | EmptyString => true
  | String c s' => p c && all_chars p s'
  end.

Definition first_char (s : string) : option ascii :=
  match s with
  | EmptyString => None
  | String c _ => Some c
  end.

Fixpoint last_char (s : string) : option ascii :=
  match s with
  | EmptyString => None
  | String c EmptyString => Some c
  | String _ s' => last_char s'
  end.

(** [s] neither starts nor ends with a character satisfying [p]. *)
Definition bare (p : ascii -> bool) (s : string) : Prop :=
  (forall c, first_char s = Some c -> p c = false)
  /\ (forall c, last_char s = Some c -> p c = false).

(** The leading white space of a line. *)
Definition indentation (line : string) : string := (Re.span is_space line).1.

(** The separator that the properties masker writes. *)
Definition written_separator (line : string) : string :=
  if contains "=" line then "=" else ":".

(** Group 1 of the env pattern as the code uses it: [group(1) or '']. *)
Definition env_prefix (g1 : option string) : string :=
  match g1 with Some p => p | None => EmptyString end.

(** The raw value and the key text of a YAML line: what follows and what
    precedes the first colon, trimmed. *)
Definition yaml_value_part (line : string) : string :=
  strip (item 1 (split1 ":" (lstrip line))).

Definition yaml_key_part (line : string) : string :=
  strip (item 0 (split1 ":" (lstrip line))).

(** What the [try] block of [mask_file] returns when nothing is raised: the
    output of one of the three maskers of the engine on the whole content. *)
Definition masker_output (self : MaskingEngine) (c : string)
  (out : string * list MaskingItem) : Prop :=
  out = YamlMasker.mask_content (yaml_masker self) c
  \/ out = PropertiesMasker.mask_content (properties_masker self) c
  \/ out = EnvMasker.mask_content (env_masker self) c.

Definition not_newline (c : ascii) : bool := negb (Ascii.eqb c Re.newline).

(** A mask format, without line feed, that has three stars at each end:
    the kind of value that [should_mask] takes for masked already. *)
Definition starred (fmt : string) : Prop :=
  startswith "***" fmt = true /\ endswith "***" fmt = true
  /\ all_chars not_newline fmt = true.

(** The mask in double quotes, as the YAML and the env masker write it. *)
Definition quoted (fmt : string) : string := dq +:+ fmt +:+ dq.

(** The shape of group 2 of the env pattern: a letter or an underscore,
    then letters, digits and underscores. *)
Definition identifier (k : string) : Prop :=
  exists c more, k = String c more /\ Re.is_alpha_ c = true
                 /\ all_chars Re.is_word more = true.

(** What the YAML masker does to a masked line [line], written [out]: the
    leftmost occurrence of the raw value gives way to the quoted mask; this
    occurrence lies behind the indentation; and it is the value itself,
    behind the key text, the colon and the gap, unless the same text occurs
    earlier in the line. *)
Definition yaml_frame (fmt line out : string) (it : MaskingItem) : Prop :=
  let v := yaml_value_part line in
  item_original_value it = strip_chars quote_chars v
  /\ indentation out = indentation line
  /\ (exists pre post,
        line = indentation line +:+ pre +:+ v +:+ post
        /\ out = indentation line +:+ pre +:+ quoted fmt +:+ post
        /\ forall pre' post', line = pre' +:+ v +:+ post' ->
                              len (indentation line +:+ pre) <= len pre')
  /\ (exists key_text gap post,
        line = indentation line +:+ key_text +:+ ":" +:+ gap +:+ v +:+ post
        /\ yaml_key_part line = strip key_text
        /\ all_chars is_space gap = true
        /\ ((forall pre' post', line = pre' +:+ v +:+ post' ->
               len (indentation line +:+ key_text +:+ ":" +:+ gap) <= len pre')
            -> out = indentation line +:+ key_text +:+ ":" +:+ gap
                     +:+ quoted fmt +:+ post)).

(** What the env masker does to a masked line: the export prefix, the key
    and the [=] stay, the raw value gives way to the quoted mask; there is
    no indentation before or after. *)
Definition env_frame (fmt line out : string) (it : MaskingItem) : Prop :=
  exists prefix raw,
    line = prefix +:+ item_key it +:+ "=" +:+ raw
    /\ out = prefix +:+ item_key it +:+ "=" +:+ quoted fmt
    /\ item_original_value it = strip_chars quote_chars raw
    /\ indentation line = "" /\ indentation out = "".

(** What the properties masker does to a masked line: the line is written
    anew from the trimmed key, the separator and the mask; the white space
    around the key and the value is not kept. *)
Definition properties_frame (fmt line out : string) (it : MaskingItem) : Prop :=
  exists before sep after,
    line = before +:+ String sep after
    /\ Re.is_sep sep = true
    /\ item_key it = strip before
    /\ item_original_value it = strip after
    /\ out = item_key it +:+ written_separator line +:+ fmt.

(** ** The backup manager *)

(** The keys of a Python dict are distinct. *)
Definition is_dict (d : Scanner.dict) : Prop := NoDup d.*1.

(** The dict that [_save_manifest] starts from: empty without a manifest
    file, the members of the manifest file otherwise, if it holds a JSON
    object. *)
Definition manifest_on_disk (json_loads : string -> Py.result Scanner.loaded)
  (disk : gmap string Scanner.file_data) (manifest_path : string)
  : option Scanner.dict :=
  match disk !! manifest_path with
  | None => Some []
  | Some data =>
      match Scanner.json_of json_loads data with
      | Py.Ok (Scanner.Members d) => Some d
      | _ => None
      end
  end.

(** The manager with another in-memory manifest. *)
Definition with_manifest (self : Scanner.BackupManager) (m : Scanner.dict)
  : Scanner.BackupManager :=
  {| Scanner.backup_dir_name := Scanner.backup_dir_name self;
     Scanner.suffix := Scanner.suffix self;
     Scanner._backup_manifest := m |}.

(** The state after something else has written [data] to [path]. *)
Definition written (path : string) (data : Scanner.file_data)
  (st : Scanner.state) : Scanner.state :=
  {| Scanner.manager := Scanner.manager st;
     Scanner.disk := <[path := data]> (Scanner.disk st) |}.

(** An entry of a manifest that [restore_all] can copy back without
    touching the backup file [bp]: its original path is neither its own
    backup path nor [bp]. *)
Definition safe_entry (bp : string) (e : string * string) : bool :=
  negb (String.eqb e.1 e.2) && negb (String.eqb e.1 bp).

(** The file system lets [restore_all] copy the backup of the entry back
    to its original path. *)
Definition not_refused (refuses : Scanner.syscall -> option Py.exn)
  (e : string * string) : bool :=
  match refuses (Scanner.Copy2 e.2 e.1) with
  | None => true
  | Some _ => false
  end.

(** ** The directory tree of the scanner *)

Definition no_slash (c : ascii) : bool := negb (Ascii.eqb c "/"%char).

(** A name of a directory entry: not empty and without [/]. *)
Definition name_ok (n : string) : bool :=
  negb (is_empty n) && all_chars no_slash n.

(** Every name in the tree is the name of a directory entry. *)
Fixpoint names_ok (t : Scanner.tree) : bool :=
  match t with
  | Scanner.Dir files dirs =>
      forallb name_ok files
      && forallb (fun d => name_ok d.1 && names_ok d.2) dirs
  end.

(** The tree has a file named [f] in the directory reached from its root
    through the directories [ds]. *)
Fixpoint has_file (t : Scanner.tree) (ds : list string) (f : string) : bool :=
  match t with
  | Scanner.Dir files dirs =>
      match ds with
      | [] => existsb (String.eqb f) files
      | d :: ds' =>
          existsb (fun e => String.eqb e.1 d && has_file e.2 ds' f) dirs
      end
  end.

(** The path of that file as [os.walk] and [os.path.join] build it from
    the path [root] of the root directory. *)
Definition path_of (root : string) (ds : list string) (f : string) : string :=
  Scanner.path_join (fold_left Scanner.path_join ds root) f.

(** None of the directories [ds] has an excluded name. *)
Definition kept (self : Scanner.FileScanner) (ds : list string) : bool :=
  forallb (fun d => negb (Scanner._should_exclude_dir self d)) ds.

(** The prefix that the first [join] puts before a name. *)
Definition with_slash (root : string) : string :=
  if is_empty root || endswith "/" root then root else root +:+ "/".

(** The names that follow the first one, each behind a slash. *)
Fixpoint slashed (ns : list string) : string :=
  match ns with
  | [] => EmptyString
  | n :: ns' => "/" +:+ n +:+ slashed ns'
  end.

(** ** What the three maskers have in common *)

(** The items come in the order of the lines they name, one item a line
    at most. *)
Definition in_line_order (items : list MaskingItem) : Prop :=
  forall j k a b,
    items !! j = Some a -> items !! k = Some b -> j < k ->
    item_line a < item_line b.

(** [out] holds the [result_lines] and the [masked_items] of a masker for
    the lines [lines]: as many lines come out as went in; there are no more
    items than lines; every item names a line of the input, counted from
    1; the items are in line order; and a line that no item names is written
    as it was read. *)
Definition line_by_line (lines : list string)
  (out : list string * list MaskingItem) : Prop :=
  length out.1 = length lines
  /\ length out.2 <= length lines
  /\ (forall it, it ∈ out.2 -> 1 <= item_line it <= length lines)
  /\ in_line_order out.2
  /\ (forall i line,
        lines !! i = Some line ->
        (forall it, it ∈ out.2 -> item_line it <> S i) ->
        out.1 !! i = Some line).

(** The body of a loop over the lines that writes the line back unless it
    records one item, under the number it was given. *)
Definition one_item_body (body : nat -> string -> string * list MaskingItem)
  : Prop :=
  forall m line,
    ((body m line).2 = [] /\ (body m line).1 = line)
    \/ exists it, (body m line).2 = [it] /\ item_line it = m.

(** The masker wrote line [i], counted from 0, as it read it, and recorded
    nothing for it. *)
Definition passed_over (out : list string * list MaskingItem) (i : nat)
  (line : string) : Prop :=
  out.1 !! i = Some line /\ forall it, it ∈ out.2 -> item_line it <> S i.

(** A line that every masker passes over: blank, or a comment. *)
Definition blank_or_comment (line : string) : bool :=
  is_empty (strip line) || startswith "#" (strip line).

(** A matcher under which nothing is sensitive. *)
Definition nothing_sensitive (m : SensitivePatternMatcher) : Prop :=
  forall key v, should_mask m key (VStr v) = false.

(** ** The engine and its matcher *)

(** The three maskers read the matcher of the engine, as [__init__] sets
    them up. *)
Definition shares_matcher (self : MaskingEngine) : Prop :=
  YamlMasker.matcher (yaml_masker self) = matcher self
  /\ PropertiesMasker.matcher (properties_masker self) = matcher self
  /\ EnvMasker.matcher (env_masker self) = matcher self.

(** Whatever [m] masks, [m'] masks as well. *)
Definition masks_at_least (m m' : SensitivePatternMatcher) : Prop :=
  forall key v, should_mask m key (VStr v) = true ->
                should_mask m' key (VStr v) = true.

(** [re.compile(src, re.IGNORECASE)] raises an exception that is no
    [re.error]. *)
Definition gives_up (re_compile : bool -> string -> option Re.Pattern)
  (re_raises : bool -> string -> Py.exn) (src : string) : bool :=
  match re_compile true src with
  | Some _ => false
  | None => negb (is_re_error (re_raises true src))
  end.

(** The sources before the first one that satisfies [stop]. *)
Fixpoint before_first (stop : string -> bool) (srcs : list string)
  : list string :=
  match srcs with
  | [] => []
  | src :: rest => if stop src then [] else src :: before_first stop rest
  end.

(** ** Restoring and processing *)

(** No original path of the manifest is the backup path of an entry. *)
Definition separate (d : list (string * string)) : Prop :=
  forall o b o' b', (o, b) ∈ d -> (o', b') ∈ d -> o <> b'.

Definition separate_check (d : list (string * string)) : bool :=
  forallb (fun e => forallb (fun e' => negb (String.eqb e.1 e'.2)) d) d.

(** The backup file of the entry is on the disk. *)
Definition present (disk : gmap string Scanner.file_data) (e : string * string)
  : bool :=
  bool_decide (is_Some (disk !! e.2)).

(** The entries of the manifest that [restore_all] can copy back. *)
Definition restorable (disk : gmap string Scanner.file_data)
  (manifest : list (string * string)) : list (string * string) :=
  List.filter (present disk) manifest.

(** The test of [write_file] before it makes a backup. *)
Definition backs_up (self : Scanner.FileProcessor) (project_path : option string)
  (create_backup_flag : bool) : bool :=
  create_backup_flag
  && bool_decide (is_Some (Scanner.backup_manager self))
  && Scanner.truthy project_path.

(** No directory of the tree lists a name twice, be it the name of a file
    or of a directory. *)
Fixpoint distinct_names (t : Scanner.tree) : bool :=
  match t with
  | Scanner.Dir files dirs =>
      bool_decide (NoDup (files ++ dirs.*1))
      && forallb (fun d => distinct_names d.2) dirs
  end.

(** ** The report *)

(** A file report that [add_file_report] counts as masked. *)
Definition counted (fr : Reporter.FileReport) : bool :=
  Reporter.is_success fr && (0 <? Reporter.masked_count fr)%Z.

(** The line that [add_file_report] appends to [errors], if any. *)
Definition error_line (fr : Reporter.FileReport) : option string :=
  match Reporter.error_text fr with
  | Some e => Some (Reporter.file_path fr +:+ ": " +:+ e)
  | None => None
  end.

(** The items of the file reports that count as masked. *)
Fixpoint items_of (frs : list Reporter.FileReport) : Z :=
  match frs with
  | [] => 0%Z
  | fr :: rest =>
      ((if counted fr then Reporter.masked_count fr else 0) + items_of rest)%Z
  end.

(** The report after [add_file_report] for each of [frs] in turn. *)
Definition report_of (start : Reporter.MaskingReport)
  (frs : list Reporter.FileReport) : Reporter.MaskingReport :=
  fold_left Reporter.add_file_report frs start.

End Says.

(* ===================================================================== *)
(** * Definitions that follow the words of the specification *)
(* ===================================================================== *)

Module Spec.

Import Py Masker Says.

(** "Stripping one layer of matching leading/trailing quote characters":
    a value that starts and ends with the same quote character loses these
    two characters; any other value is left as it is. *)
Definition unquote_one_layer (raw : string) : string :=
  match first_char raw, last_char raw with
  | Some a, Some b =>
      if in_chars quote_chars a && Ascii.eqb a b && (2 <=? len raw)
      then String.substring 1 (len raw - 2) raw
      else raw
  | _, _ => raw
  end.

(** "Maintains an explicit stack of (indentLevel, keyName) pairs": the
    innermost scope first. *)
Definition scopes : Type := list (nat * string).

(** "Pop the stack while its top indent >= current indent." *)
Fixpoint pop_scopes (indent : nat) (st : scopes) : scopes :=
  match st with
  | [] => []
  | (top, _) :: st' => if indent <=? top then pop_scopes indent st' else st
  end.

(** "Build the full dotted path by joining the remaining stack's keys with
    the current key." *)
Definition dotted_path (st : scopes) (key : string) : string :=
  join "." (rev (map snd st) ++ [key]).

(** One "non-blank, non-comment line" of the YAML masker: the item it
    records, if any, and the stack after it. *)
Definition yaml_step (m : SensitivePatternMatcher) (line_num : nat)
  (line : string) (st : scopes) : list MaskingItem * scopes :=
  if is_empty (strip line) || startswith "#" (strip line) then ([], st)
  else
    let indent := len (indentation line) in
    let st := pop_scopes indent st in
    if contains ":" (lstrip line) && negb (startswith "-" (lstrip line)) then
      let key := yaml_key_part line in
      let raw := yaml_value_part line in
      if is_empty raw || startswith "#" raw then ([], (indent, key) :: st)
      else
        let unquoted := strip_chars quote_chars raw in
        if should_mask m (dotted_path st key) (VStr unquoted)
        then ([{| item_line := line_num; item_key := dotted_path st key;
                  item_original_value := unquoted; item_type := "yaml" |}],
              st)
        else ([], st)
    else ([], st).

(** How the two stacks of the code hold these scopes: the keys from the
    outermost to the innermost, and the indents likewise above the
    sentinel 0. *)
Definition stacks_of (st : scopes) : list string * list nat :=
  (rev (map snd st), 0 :: rev (map fst st)).

Fixpoint yaml_items (m : SensitivePatternMatcher) (line_num : nat)
  (lines : list string) (st : scopes) : list MaskingItem :=
  match lines with
  | [] => []
  | line :: rest =>
      let '(items, st') := yaml_step m line_num line st in
      items ++ yaml_items m (S line_num) rest st'
  end.

End Spec.

(* ===================================================================== *)
(** * Configurations and inputs of the worked examples *)
(* ===================================================================== *)

Module Example.

Import Py Masker.

Definition nl : string := String Re.newline EmptyString.

(** The default mask format of the configuration. *)
Definition default_format : string := "***MASKED***".

(** A matcher whose key patterns are the given literal sources, compiled
    with [re.IGNORECASE], and that has no other pattern. *)
Definition keys_matcher (srcs : list string) : SensitivePatternMatcher :=
  {| key_patterns := map (Re.compile_literal true) srcs;
     value_patterns := [];
     exclude_key_patterns := [];
     exclude_value_patterns := [] |}.

Definition password_matcher : SensitivePatternMatcher :=
  keys_matcher ["password"; "token"].

Definition yaml_masker : YamlMasker.t :=
  {| YamlMasker.matcher := password_matcher;
     YamlMasker.mask_format := default_format |}.

Definition properties_masker : PropertiesMasker.t :=
  {| PropertiesMasker.matcher := password_matcher;
     PropertiesMasker.mask_format := default_format |}.

Definition env_masker : EnvMasker.t :=
  {| EnvMasker.matcher := password_matcher;
     EnvMasker.mask_format := default_format |}.

Definition engine : MaskingEngine := new_engine default_format password_matcher.

(** Key pattern [password], excluded key pattern [hint], value pattern
    [secret]. *)
Definition hint_matcher : SensitivePatternMatcher :=
  {| key_patterns := [Re.compile_literal true "password"];
     value_patterns := [Re.compile_literal false "secret"];
     exclude_key_patterns := [Re.compile_literal true "hint"];
     exclude_value_patterns := [] |}.

Definition hint_env_masker : EnvMasker.t :=
  {| EnvMasker.matcher := hint_matcher;
     EnvMasker.mask_format := default_format |}.

(** The nested YAML document of the specification, with two spaces of
    indentation per level. *)
Definition nested_yaml : string :=
  "spring:" +:+ nl +:+ "  datasource:" +:+ nl +:+ "    password: hunter2".

(** A project with an excluded directory [node_modules] that holds a
    directory with an ordinary name and a matching file in it. *)
Definition project_tree : Scanner.tree :=
  Scanner.Dir ["application.yml"; "README.md"]
    [("node_modules",
      Scanner.Dir ["package.json"]
        [("config", Scanner.Dir ["application.yml"] [])]);
     ("src", Scanner.Dir ["application.yml"] [])].

Definition scanner : Scanner.FileScanner :=
  {| Scanner.file_patterns := ["application.yml"; ".env"];
     Scanner.exclude_dirs := {["node_modules"; "target"]};
     Scanner.include_patterns := [];
     Scanner.exclude_patterns := [] |}.

(** [fnmatch.fnmatch] on patterns without wildcard: equality of names. *)
Definition fnmatch_literal (name pattern : string) : bool :=
  String.eqb name pattern.

(** [os.path.abspath] on paths that are absolute and normalised. *)
Definition abspath_id (path : string) : string := path.

(** A fresh backup manager with its default settings, and a disk with
    one configuration file in each of two projects. *)
Definition backup_manager : Scanner.BackupManager :=
  {| Scanner.backup_dir_name := ".masking_backup";
     Scanner.suffix := ".backup";
     Scanner._backup_manifest := [] |}.

Definition two_projects : Scanner.state :=
  {| Scanner.manager := backup_manager;
     Scanner.disk :=
       <["/srv/a/application.yml" := Scanner.Text "password: one"]>
         (<["/srv/b/.env" := Scanner.Text "TOKEN=two"]> ∅) |}.

(** The first project after an earlier run of the tool: the manifest
    lists the backup of a file in the directory [sub], and the backup is
    there. *)
Definition earlier_run : Scanner.state :=
  {| Scanner.manager := backup_manager;
     Scanner.disk :=
       <["/srv/a/.masking_backup/manifest.json" :=
           Scanner.Json
             [("/srv/a/sub/app.yml",
               "/srv/a/.masking_backup/sub_app.yml_20231231_090000.backup")]]>
         (<["/srv/a/.masking_backup/sub_app.yml_20231231_090000.backup" :=
              Scanner.Text "password: zero"]>
            (<["/srv/a/application.yml" := Scanner.Text "password: one"]> ∅))
  |}.

(** A configuration whose [mask_format] is not wrapped in stars. *)
Definition redacted_env_masker : EnvMasker.t :=
  {| EnvMasker.matcher := password_matcher;
     EnvMasker.mask_format := "[REDACTED]" |}.

(** [re.compile] on the sources of the examples: a source of letters,
    digits and underscores compiles to the pattern that matches it as it
    stands; the two other sources of the examples raise. *)
Definition compile_words (ignorecase : bool) (src : string)
  : option Re.Pattern :=
  if Says.all_chars Re.is_word src
  then Some (Re.compile_literal ignorecase src)
  else None.

(** A repetition count that the compiler gives up on. *)
Definition huge_repeat : string := "a{99999999999999999999}".

(** What [re.compile] raises on the two sources of the examples that do
    not compile: [OverflowError] on [huge_repeat], [re.error] on an opening
    bracket alone. *)
Definition raises_words (ignorecase : bool) (src : string) : Py.exn :=
  if String.eqb src huge_repeat
  then Py.OverflowError "the repetition number is too large"
  else Py.ReError "unterminated character set at position 0".

(** An env file with a key that the patterns of [engine] do not cover. *)
Definition env_with_api_key : string :=
  "TOKEN=abc123" +:+ nl +:+ "API_KEY=xyz789".

(** A project with a file in a directory and a file beside it whose name
    is the path of the first with an underscore for the slash. *)
Definition colliding_files : Scanner.state :=
  {| Scanner.manager := backup_manager;
     Scanner.disk :=
       <["/srv/a/conf/app.yml" := Scanner.Text "password: one"]>
         (<["/srv/a/conf_app.yml" := Scanner.Text "password: two"]> ∅) |}.

(** The first project with a file whose line ends with a carriage return
    and a line feed. *)
Definition crlf_project : Scanner.state :=
  {| Scanner.manager := backup_manager;
     Scanner.disk :=
       <["/srv/a/application.yml" :=
           Scanner.Text ("password: one" +:+ String (ascii_of_nat 13) nl)]> ∅
  |}.

(** A file processor that holds the backup manager. *)
Definition processor : Scanner.FileProcessor :=
  {| Scanner.backup_manager := Some Scanner.TheManager |}.

(** A function of the content that masks everything. *)
Definition mask_everything (content : string) : Py.result string :=
  Py.Ok "password: ***".

(** A file system that refuses no call. *)
Definition never_refuses (c : Scanner.syscall) : option Py.exn := None.

(** [json.loads] on the texts of the examples, none of which is JSON: it
    finds no value at their first character.  No other text is handed to
    it in the examples. *)
Definition no_json (text : string) : Py.result Scanner.loaded :=
  Py.Raise (Py.JSONDecodeError "Expecting value: line 1 column 1 (char 0)").

(** The text of a manifest is never asked for in the examples. *)
Definition no_json_text (d : Scanner.dict) : string := "".

(** The directory [/srv/a/sub] is gone: no file can be copied to it. *)
Definition sub_is_gone (c : Scanner.syscall) : option Py.exn :=
  match c with
  | Scanner.Copy2 src dst =>
      if Py.startswith "/srv/a/sub/" dst
      then Some (Py.FileNotFoundError (Py.no_such_file dst))
      else None
  | _ => None
  end.

End Example.

(* ===================================================================== *)
(** * Facts about the string methods *)
(* ===================================================================== *)

#[local] Arguments String.append !s1 s2 : simpl nomatch.
#[local] Arguments Py.startswith : simpl never.
#[local] Arguments Py.endswith : simpl never.
#[local] Arguments Py.contains : simpl never.
#[local] Arguments Py.strip : simpl never.
#[local] Arguments Py.lstrip : simpl never.
#[local] Arguments Py.strip_chars : simpl never.
#[local] Arguments Py.replace_first : simpl never.
#[local] Arguments Py.split1 : simpl never.
#[local] Arguments Py.split : simpl never.
#[local] Arguments Py.join : simpl never.
#[local] Arguments Masker.should_mask : simpl never.
#[local] Arguments Masker.dq : simpl never.
#[local] Arguments Masker.quote_chars : simpl never.

Section StringFacts.

Import Py Says.

Lemma app_empty_r (s : string) : s +:+ "" = s.
Proof. induction s as [|c s IH]; simpl; [done | by rewrite IH]. Qed.

Lemma app_assoc_s (a b c : string) : (a +:+ b) +:+ c = a +:+ (b +:+ c).
Proof. induction a as [|x a IH]; simpl; [done | by rewrite IH]. Qed.

Lemma len_app (a b : string) : len (a +:+ b) = len a + len b.
Proof. induction a as [|x a IH]; simpl; [done | unfold len in *; simpl; lia]. Qed.

Lemma prefix_app (a b : string) : String.prefix a (a +:+ b) = true.
Proof.
  induction a as [|x a IH]; simpl.
  - by destruct b.
  - destruct (ascii_dec x x); [exact IH | done].
Qed.

Lemma startswith_char a c n :
  startswith (String a "") (String c n) = Ascii.eqb a c.
Proof.
  unfold startswith.
  change (String.prefix (String a "") (String c n))
    with (if ascii_dec a c then String.prefix "" n else false).
  destruct (ascii_dec a c) as [->|H].
  - rewrite Ascii.eqb_refl. by destruct n.
  - symmetry. by apply Ascii.eqb_neq.
Qed.

Lemma prefix_split (a s : string) :
  String.prefix a s = true -> s = a +:+ drop (len a) s.
Proof.
  revert s. induction a as [|x a IH]; intros s H; [done|].
  destruct s as [|y s]; simpl in H; [done|].
  destruct (ascii_dec x y) as [->|]; [|done].
  simpl. f_equal. by apply IH.
Qed.

Lemma split_cons sep c s :
  split sep (String c s) =
  if Ascii.eqb c sep then "" :: split sep s
  else match split sep s with
       | hd :: tl => String c hd :: tl
       | [] => [String c ""]
       end.
Proof. reflexivity. Qed.

Lemma split1_cons sep c s :
  split1 sep (String c s) =
  if Ascii.eqb c sep then [""; s]
  else match split1 sep s with
       | hd :: tl => String c hd :: tl
       | [] => [String c ""]
       end.
Proof. reflexivity. Qed.

(** ** Splitting off a run of characters *)

Lemma span_spec p s :
  s = (Re.span p s).1 +:+ (Re.span p s).2
  /\ all_chars p (Re.span p s).1 = true
  /\ (forall c, first_char (Re.span p s).2 = Some c -> p c = false).
Proof.
  induction s as [|c s (IH1 & IH2 & IH3)]; simpl; [done|].
  destruct (p c) eqn:E.
  - destruct (Re.span p s) as [a b]. simpl in *.
    split; [by rewrite IH1 at 1|]. by rewrite E.
  - simpl. split; [done|]. split; [done|]. by intros ? [= <-].
Qed.

Lemma lstrip_by_span p s : lstrip_by p s = (Re.span p s).2.
Proof.
  induction s as [|c s IH]; simpl; [done|].
  destruct (p c); [|done]. rewrite IH. by destruct (Re.span p s).
Qed.

(** A line is its indentation followed by [line.lstrip()]. *)
Lemma indentation_lstrip line : line = indentation line +:+ lstrip line.
Proof.
  unfold indentation, lstrip. rewrite lstrip_by_span. apply span_spec.
Qed.

Lemma indentation_spaces line : all_chars is_space (indentation line) = true.
Proof. apply span_spec. Qed.

Lemma lstrip_first line c :
  first_char (lstrip line) = Some c -> is_space c = false.
Proof. unfold lstrip. rewrite lstrip_by_span. apply span_spec. Qed.

Lemma rstrip_by_spec p s :
  exists r,
    s = rstrip_by p s +:+ r
    /\ all_chars p r = true
    /\ (forall c, last_char (rstrip_by p s) = Some c -> p c = false)
    /\ (forall c, first_char (rstrip_by p s) = Some c -> first_char s = Some c).
Proof.
  induction s as [|c s (r & IH1 & IH2 & IH3 & IH4)]; simpl.
  - by exists "".
  - destruct (rstrip_by p s) as [|d t] eqn:E; simpl.
    + destruct (p c) eqn:Ec.
      * exists (String c s). simpl in IH1. subst r.
        split; [done|]. split; [|done]. simpl. by rewrite Ec.
      * exists r. simpl in IH1. subst r. split; [done|]. split; [done|].
        split; [|done]. by intros ? [= <-].
    + exists r. split; [by rewrite IH1 at 1|]. split; [done|].
      split; [|done]. intros x. by apply IH3.
Qed.

(** [strip] removes a run of characters of the class at each end, and what
    is left neither starts nor ends with one. *)
Lemma strip_by_spec p s :
  exists l r,
    s = l +:+ strip_by p s +:+ r
    /\ all_chars p l = true /\ all_chars p r = true
    /\ bare p (strip_by p s).
Proof.
  unfold strip_by.
  destruct (span_spec p s) as (H1 & H2 & H3).
  destruct (rstrip_by_spec p (lstrip_by p s)) as (r & R1 & R2 & R3 & R4).
  exists (Re.span p s).1, r. rewrite <- R1.
  rewrite lstrip_by_span in *.
  split; [done|]. split; [done|]. split; [done|]. split; [|done].
  intros c Hc. apply R4 in Hc. by apply H3.
Qed.

(** ** Replacing the leftmost occurrence *)

Lemma drop_app a b : drop (len a) (a +:+ b) = b.
Proof. induction a as [|c a IH]; simpl; [done | exact IH]. Qed.

Lemma app_same_length a b a' b' :
  a +:+ b = a' +:+ b' -> len a = len a' -> a = a' /\ b = b'.
Proof.
  revert a'. induction a as [|c a IH]; intros [|c' a'] H Hl; try done.
  simpl in H. injection H as -> H. unfold len in Hl. simpl in Hl.
  destruct (IH a' H) as [-> ->]; [unfold len; lia | done].
Qed.

Lemma replace_first_go_eq old new s :
  replace_first_go old new s =
  if String.prefix old s then new +:+ drop (len old) s
  else match s with
       | "" => ""
       | String c s' => String c (replace_first_go old new s')
       end.
Proof. by destruct s. Qed.

(** When [old] occurs in [s], [s.replace(old, new, 1)] replaces its
    leftmost occurrence and nothing else. *)
Lemma replace_first_spec old new s :
  (exists pre post, s = pre +:+ old +:+ post) ->
  exists pre post,
    s = pre +:+ old +:+ post
    /\ replace_first old new s = pre +:+ new +:+ post
    /\ forall pre' post', s = pre' +:+ old +:+ post' -> len pre <= len pre'.
Proof.
  unfold replace_first. induction s as [|c s IH]; intros (pre0 & post0 & H0).
  - destruct pre0; [|done]. destruct old; [|done]. simpl in H0. subst post0.
    exists "", "". simpl. split; [done|]. split; [by rewrite app_empty_r|].
    intros. unfold len. simpl. lia.
  - rewrite replace_first_go_eq.
    destruct (String.prefix old (String c s)) eqn:Hp.
    + exists "", (drop (len old) (String c s)).
      split; [by apply prefix_split|]. split; [done|].
      intros. unfold len. simpl. lia.
    + destruct pre0 as [|d pre0].
      { simpl in H0. rewrite H0, prefix_app in Hp. done. }
      simpl in H0. injection H0 as <- H0.
      destruct IH as (pre & post & H1 & H2 & H3); [by exists pre0, post0|].
      exists (String c pre), post. split; [simpl; by f_equal|].
      split; [simpl; by f_equal|].
      intros [|d pre'] post' H'.
      { simpl in H'. rewrite H', prefix_app in Hp. done. }
      simpl in H'. injection H' as _ H'. apply H3 in H'.
      unfold len in *. simpl. lia.
Qed.

(** An occurrence of a string that starts with a character outside a
    class begins after any run of characters of the class. *)
Lemma occurrence_after_run p run rest pre v post c :
  run +:+ rest = pre +:+ v +:+ post ->
  all_chars p run = true -> first_char v = Some c -> p c = false ->
  exists pre', pre = run +:+ pre'.
Proof.
  revert pre. induction run as [|a run IH]; intros pre H Hr Hv Hc.
  - by exists pre.
  - simpl in Hr. apply andb_true_iff in Hr as [Ha Hr].
    destruct pre as [|b pre].
    + destruct v as [|x v]; [done|]. injection Hv as ->.
      simpl in H. injection H as -> _. congruence.
    + simpl in H. injection H as -> H.
      destruct (IH pre H Hr Hv Hc) as [pre' ->]. by exists pre'.
Qed.

(** [s.split(sep, 1)] when [sep] occurs in [s]. *)
Lemma split1_spec sep s :
  contains (String sep "") s = true ->
  exists k rest,
    s = k +:+ String sep rest /\ split1 sep s = [k; rest].
Proof.
  induction s as [|c s IH]; [done|].
  rewrite split1_cons. unfold contains. fold contains.
  destruct (Ascii.eqb_spec c sep) as [->|Hne].
  - intros _. by exists "", s.
  - intros H. apply orb_true_iff in H as [H|H].
    + simpl in H. destruct (ascii_dec sep c); congruence.
    + destruct (IH H) as (k & rest & -> & ->).
      by exists (String c k), rest.
Qed.

End StringFacts.

(* ===================================================================== *)
(** * The pattern matcher *)
(* ===================================================================== *)

Section Matcher.

Import Py Masker.

Lemma some_search_true (ps : list Re.Pattern) (k : string) :
  some_search ps k = true <-> Exists (fun p => Re.search p k = true) ps.
Proof.
  induction ps as [|p ps IH]; simpl.
  - split; [done | by intros H; inversion H].
  - destruct (Re.search p k) eqn:E.
    + split; [by left | done].
    + rewrite IH. split; [by right|].
      intros H; inversion H; subst; [congruence | done].
Qed.

Lemma some_search_false (ps : list Re.Pattern) (k : string) :
  some_search ps k = false <-> Forall (fun p => Re.search p k = false) ps.
Proof.
  induction ps as [|p ps IH]; simpl.
  - split; [by constructor | done].
  - destruct (Re.search p k) eqn:E.
    + split; [done | by intros H; inversion H; subst; congruence].
    + rewrite IH. split; [by constructor|].
      by intros H; inversion H.
Qed.

Lemma is_sensitive_key_true (m : SensitivePatternMatcher) (key : string) :
  is_sensitive_key m key = true <->
  Forall (fun p => Re.search p key = false) (exclude_key_patterns m)
  /\ Exists (fun p => Re.search p key = true) (key_patterns m).
Proof.
  unfold is_sensitive_key.
  rewrite <- some_search_false, <- some_search_true.
  destruct (some_search (exclude_key_patterns m) key),
    (some_search (key_patterns m) key); intuition congruence.
Qed.

Lemma excluded_key_not_sensitive (m : SensitivePatternMatcher) (key : string) :
  Exists (fun p => Re.search p key = true) (exclude_key_patterns m) ->
  is_sensitive_key m key = false.
Proof.
  intros H%some_search_true. unfold is_sensitive_key. by rewrite H.
Qed.

(** A pair that is masked has a sensitive key or a sensitive value. *)
Lemma should_mask_true (m : SensitivePatternMatcher) (key : string) (v : value) :
  should_mask m key v = true ->
  is_sensitive_key m key = true \/ is_sensitive_value m v = true.
Proof.
  unfold should_mask. intros H.
  destruct v as [|s|n]; [done| |].
  - destruct s as [|c s]; [done|].
    destruct (startswith "***" (String c s) && endswith "***" (String c s));
      [done|].
    apply orb_true_iff in H as [H|H]; [by left | by right].
  - apply orb_true_iff in H as [H|H]; [by left | done].
Qed.

Lemma should_mask_none (m : SensitivePatternMatcher) (key : string) :
  should_mask m key VNone = false.
Proof. reflexivity. Qed.

Lemma should_mask_empty (m : SensitivePatternMatcher) (key : string) :
  should_mask m key (VStr "") = false.
Proof. reflexivity. Qed.

(** The guard against a second masking looks for three stars at both ends. *)
Lemma should_mask_starred (m : SensitivePatternMatcher) (key s : string) :
  startswith "***" s = true -> endswith "***" s = true ->
  should_mask m key (VStr s) = false.
Proof.
  intros H1 H2. unfold should_mask. destruct s; [done|]. by rewrite H1, H2.
Qed.

End Matcher.

(* ===================================================================== *)
(** * The loops over the lines *)
(* ===================================================================== *)

Section Loops.

Import Py Masker.

Lemma for_each_line_length body n lines :
  length (for_each_line body n lines).1 = length lines.
Proof.
  revert n. induction lines as [|l lines IH]; intros n; simpl; [done|].
  destruct (body n l) as [out its].
  specialize (IH (S n)).
  destruct (for_each_line body (S n) lines) as [rl ms]. simpl in *. lia.
Qed.

Lemma for_each_line_lookup body n lines i line :
  lines !! i = Some line ->
  (for_each_line body n lines).1 !! i = Some (body (n + i) line).1.
Proof.
  revert n i. induction lines as [|l lines IH]; intros n i H; [done|].
  simpl. destruct (body n l) as [out its] eqn:E.
  specialize (IH (S n)).
  destruct (for_each_line body (S n) lines) as [rl ms]. simpl in *.
  destruct i as [|i]; simpl in *.
  - injection H as ->. by rewrite Nat.add_0_r, E.
  - rewrite (IH i H). by rewrite Nat.add_succ_r.
Qed.

Lemma for_each_line_items body n lines it :
  it ∈ (for_each_line body n lines).2 <->
  exists i line, lines !! i = Some line /\ it ∈ (body (n + i) line).2.
Proof.
  revert n. induction lines as [|l lines IH]; intros n; simpl.
  - split; [by intros ?%elem_of_nil | by intros (i & line & ? & _)].
  - destruct (body n l) as [out its] eqn:E.
    specialize (IH (S n)).
    destruct (for_each_line body (S n) lines) as [rl ms]. simpl in *.
    rewrite elem_of_app, IH. split.
    + intros [H | (i & line & H1 & H2)].
      * exists 0, l. by rewrite Nat.add_0_r, E.
      * exists (S i), line. split; [done|].
        by rewrite Nat.add_succ_r.
    + intros ([|i] & line & H1 & H2); simpl in H1.
      * injection H1 as ->. left. by rewrite Nat.add_0_r, E in H2.
      * right. exists i, line. split; [done|].
        by rewrite Nat.add_succ_r in H2.
Qed.

End Loops.

(* ===================================================================== *)
(** * One line of each masker *)
(* ===================================================================== *)

Section OneLine.

Import Py Masker Says.

(** A properties line that yields an item: how it was read and rewritten. *)
Lemma properties_line_masked self n line it :
  it ∈ (PropertiesMasker.mask_line self n line).2 ->
  exists g1 g2,
    Re.match_properties line = Some (g1, g2)
    /\ should_mask (PropertiesMasker.matcher self) (strip g1) (VStr (strip g2)) = true
    /\ it = {| item_line := n; item_key := strip g1;
               item_original_value := strip g2; item_type := "properties" |}
    /\ PropertiesMasker.mask_line self n line =
       (strip g1 +:+ written_separator line +:+ PropertiesMasker.mask_format self,
        [it]).
Proof.
  unfold PropertiesMasker.mask_line, written_separator.
  destruct (is_empty (strip line) || startswith "#" (strip line)
            || startswith "!" (strip line)); [by intros ?%elem_of_nil|].
  destruct (Re.match_properties line) as [[g1 g2]|]; [|by intros ?%elem_of_nil].
  destruct (should_mask _ _ _) eqn:E; [|by intros ?%elem_of_nil].
  simpl. intros ->%list_elem_of_singleton. by exists g1, g2.
Qed.

(** A properties line that yields no item is passed on as it is. *)
Lemma properties_line_kept self n line :
  (PropertiesMasker.mask_line self n line).2 = [] ->
  (PropertiesMasker.mask_line self n line).1 = line.
Proof.
  unfold PropertiesMasker.mask_line.
  destruct (is_empty (strip line) || startswith "#" (strip line)
            || startswith "!" (strip line)); [done|].
  destruct (Re.match_properties line) as [[g1 g2]|]; [|done].
  by destruct (should_mask _ _ _).
Qed.

Lemma env_line_masked self n line it :
  it ∈ (EnvMasker.mask_line self n line).2 ->
  exists g1 g2 g3,
    Re.match_env line = Some (g1, g2, g3)
    /\ should_mask (EnvMasker.matcher self) g2
         (VStr (strip_chars quote_chars g3)) = true
    /\ it = {| item_line := n; item_key := g2;
               item_original_value := strip_chars quote_chars g3;
               item_type := "env" |}
    /\ EnvMasker.mask_line self n line =
       (env_prefix g1 +:+ g2 +:+ "=" +:+ dq +:+ EnvMasker.mask_format self +:+ dq,
        [it]).
Proof.
  unfold EnvMasker.mask_line.
  destruct (is_empty (strip line) || startswith "#" (strip line));
    [by intros ?%elem_of_nil|].
  destruct (Re.match_env line) as [[[g1 g2] g3]|]; [|by intros ?%elem_of_nil].
  destruct (should_mask _ _ _) eqn:E; [|by intros ?%elem_of_nil].
  simpl. intros ->%list_elem_of_singleton. by exists g1, g2, g3.
Qed.

Lemma env_line_kept self n line :
  (EnvMasker.mask_line self n line).2 = [] ->
  (EnvMasker.mask_line self n line).1 = line.
Proof.
  unfold EnvMasker.mask_line.
  destruct (is_empty (strip line) || startswith "#" (strip line)); [done|].
  destruct (Re.match_env line) as [[[g1 g2] g3]|]; [|done].
  by destruct (should_mask _ _ _).
Qed.

Lemma yaml_line_masked self n line ks ids it :
  it ∈ (YamlMasker.mask_line self n line ks ids).1.2 ->
  exists full_key,
    contains ":" (lstrip line) = true
    /\ yaml_value_part line <> ""
    /\ should_mask (YamlMasker.matcher self) full_key
         (VStr (strip_chars quote_chars (yaml_value_part line))) = true
    /\ it = {| item_line := n; item_key := full_key;
               item_original_value := strip_chars quote_chars (yaml_value_part line);
               item_type := "yaml" |}
    /\ (YamlMasker.mask_line self n line ks ids).1 =
       (replace_first (yaml_value_part line)
          (dq +:+ YamlMasker.mask_format self +:+ dq) line, [it]).
Proof.
  unfold YamlMasker.mask_line, yaml_value_part. cbv zeta.
  destruct (is_empty (strip line) || startswith "#" (strip line));
    [by intros ?%elem_of_nil|].
  destruct (YamlMasker.adjust _ _ _ _) as [ks' ids'].
  destruct (contains ":" (lstrip line)) eqn:Hc; simpl;
    [|by intros ?%elem_of_nil].
  destruct (negb (startswith "-" (lstrip line))); simpl;
    [|by intros ?%elem_of_nil].
  destruct (strip (item 1 (split1 ":" (lstrip line)))) as [|c v] eqn:Hv;
    cbn [is_empty negb andb]; [by intros ?%elem_of_nil|].
  destruct (negb (startswith "#" (String c v))); [|by intros ?%elem_of_nil].
  match goal with |- context [should_mask ?m ?k ?v] =>
    destruct (should_mask m k v) eqn:E; [|by intros ?%elem_of_nil] end.
  cbn [fst snd]. intros ->%list_elem_of_singleton. by eexists.
Qed.

End OneLine.

(* ===================================================================== *)
(** * PropertiesMasker: the rewritten line *)
(* ===================================================================== *)

Section Properties.

Import Py Masker Says.

(** The item of line [i + 1], if there is one, comes from that line. *)
Lemma properties_item_of_line self content i line it :
  split Re.newline content !! i = Some line ->
  it ∈ (PropertiesMasker.mask_lines self content).2 ->
  item_line it = S i ->
  it ∈ (PropertiesMasker.mask_line self (S i) line).2.
Proof.
  intros Hl Hit Hn. unfold PropertiesMasker.mask_lines in Hit.
  apply for_each_line_items in Hit as (j & line' & Hj & Hin).
  pose proof Hin as Hin'.
  apply properties_line_masked in Hin' as (g1 & g2 & _ & _ & -> & _).
  simpl in Hn. injection Hn as <-.
  rewrite Hl in Hj. by injection Hj as ->.
Qed.

(** C7. A masked properties line is rewritten whole as the trimmed key, a
    separator and the mask format, without quotes; the separator is [=] when
    the line has an [=] anywhere and [:] otherwise, also when the key and the
    value were split at a colon; [db.password=s3cr3t] becomes
    [db.password=***MASKED***]. *)
Theorem properties_masked_line_rewritten
  (self : PropertiesMasker.t) (content : string) (i : nat) (line : string)
  (it : MaskingItem) :
  split Re.newline content !! i = Some line ->
  it ∈ (PropertiesMasker.mask_lines self content).2 ->
  item_line it = S i ->
  (PropertiesMasker.mask_lines self content).1 !! i =
    Some (item_key it
          +:+ (if contains "=" line then "=" else ":")
          +:+ PropertiesMasker.mask_format self)
  /\ (exists g1 g2, Re.match_properties line = Some (g1, g2)
                    /\ item_key it = strip g1
                    /\ item_original_value it = strip g2)
  /\ PropertiesMasker.mask_content Example.properties_masker "db.password=s3cr3t"
     = ("db.password=***MASKED***",
        [{| item_line := 1; item_key := "db.password";
            item_original_value := "s3cr3t"; item_type := "properties" |}])
  /\ PropertiesMasker.mask_content Example.properties_masker "db.password: a=b"
     = ("db.password=***MASKED***",
        [{| item_line := 1; item_key := "db.password";
            item_original_value := "a=b"; item_type := "properties" |}]).
Proof.
  intros Hl Hit Hn.
  pose proof (properties_item_of_line _ _ _ _ _ Hl Hit Hn) as Hin.
  apply properties_line_masked in Hin as (g1 & g2 & Hm & _ & Hit' & Hout).
  split; [|split; [|split; reflexivity]].
  - unfold PropertiesMasker.mask_lines.
    rewrite (for_each_line_lookup _ _ _ _ _ Hl). simpl. rewrite Hout.
    by rewrite Hit'.
  - exists g1, g2. by rewrite Hit'.
Qed.

(** The theorem at work on an indented line that is split at a colon. *)
Lemma properties_masked_line_rewritten_witness :
  (PropertiesMasker.mask_lines Example.properties_masker
     ("# database" +:+ Example.nl +:+ "  db.password : s3cr3t")).1 !! 1 =
    Some ("db.password" +:+ ":" +:+ "***MASKED***").
Proof.
  refine (proj1 (properties_masked_line_rewritten Example.properties_masker
            ("# database" +:+ Example.nl +:+ "  db.password : s3cr3t") 1
            "  db.password : s3cr3t"
            {| item_line := 2; item_key := "db.password";
               item_original_value := "s3cr3t"; item_type := "properties" |}
            _ _ _)).
  - reflexivity.
  - vm_compute. apply list_elem_of_here.
  - reflexivity.
Defined.

End Properties.

(* ===================================================================== *)
(** * MaskingEngine.mask_file *)
(* ===================================================================== *)

Section Engine.

Import Py Masker Says.

Lemma mask_file_try_ok self path content out :
  mask_file_try self path content = Ok out ->
  exists p c, path = VStr p /\ content = VStr c /\ masker_output self c out.
Proof.
  unfold mask_file_try, masker_output.
  destruct path as [|p|n]; [done| |done]. simpl.
  destruct content as [|c|n]; simpl.
  - by repeat case_match.
  - intros H. exists p, c. split; [done|]. split; [done|].
    repeat case_match; injection H as <-; auto.
  - by repeat case_match.
Qed.

(** C1. [mask_file] returns a result for every path and content and never
    raises; a result with [error] set carries the content it was given, a
    result without carries the whole output of one masker; and the result
    is a success exactly when [error] is absent. *)
Theorem mask_file_all_or_nothing
  (self : MaskingEngine) (path content : value) :
  exists r : MaskingResult,
    mask_file self path content = Ok r
    /\ original_content r = content
    /\ (error r <> None -> masked_content r = content /\ masked_items r = [])
    /\ (error r = None ->
        exists c masked,
          content = VStr c /\ masked_content r = VStr masked
          /\ masker_output self c (masked, masked_items r))
    /\ (is_success r = true <-> error r = None).
Proof.
  unfold mask_file.
  destruct (mask_file_try self path content) as [[masked items]|e] eqn:E;
    simpl; eexists; (split; [reflexivity|]); simpl.
  - apply mask_file_try_ok in E as (p & c & -> & -> & Hout).
    repeat split; try done. intros _. by exists c, masked.
  - repeat split; try done.
Qed.

(** With a path and a content that are strings nothing is raised inside. *)
Lemma mask_file_on_strings self (p c : string) :
  exists r, mask_file self (VStr p) (VStr c) = Ok r /\ error r = None.
Proof.
  unfold mask_file, mask_file_try. simpl.
  repeat case_match; simpl;
    match goal with
    | |- context [let '(_, _) := ?o in _] => destruct o
    end; by eexists.
Qed.

(** A content that is no [str] makes [content.split] fail; the failure is
    reported in [error] and the content is handed back. *)
Example mask_file_on_none :
  mask_file Example.engine (VStr "application.yml") VNone =
  Ok {| file_path := VStr "application.yml";
        original_content := VNone;
        masked_content := VNone;
        masked_items := [];
        error := Some "'NoneType' object has no attribute 'split'" |}.
Proof. reflexivity. Qed.

End Engine.

(* ===================================================================== *)
(** * The two regular expressions of the source *)
(* ===================================================================== *)

Section Regex.

Import Py Masker Says.

Lemma dot_star_end_spec v g :
  Re.dot_star_end v = Some g ->
  all_chars not_newline g = true
  /\ (v = g \/ v = g +:+ String Re.newline "").
Proof.
  unfold Re.dot_star_end.
  destruct (span_spec not_newline v) as (H1 & H2 & H3).
  fold not_newline.
  destruct (Re.span not_newline v) as [body tail]. simpl in *.
  destruct tail as [|c [|d tail]]; intros [= <-]; try done.
  - split; [done|]. left. by rewrite app_empty_r in H1.
  - split; [done|]. right.
    specialize (H3 c eq_refl). unfold not_newline in H3.
    apply negb_false_iff, Ascii.eqb_eq in H3. by subst c.
Qed.

Lemma all_chars_app p a b :
  all_chars p (a +:+ b) = all_chars p a && all_chars p b.
Proof.
  induction a as [|c a IH]; simpl; [done|]. rewrite IH. by destruct (p c).
Qed.

(** The lines of [content.split('\n')] hold no line feed. *)
Lemma split_no_sep sep s line :
  line ∈ split sep s ->
  all_chars (fun c => negb (Ascii.eqb c sep)) line = true.
Proof.
  revert line. induction s as [|c s IH]; intros line.
  - by intros ->%list_elem_of_singleton.
  - rewrite split_cons. destruct (Ascii.eqb c sep) eqn:E.
    + intros [->|H]%elem_of_cons; [done | by apply IH].
    + destruct (split sep s) as [|hd tl].
      * intros ->%list_elem_of_singleton. simpl. by rewrite E.
      * intros [->|H]%elem_of_cons.
        -- simpl. rewrite E. simpl. apply IH. by left.
        -- apply IH. by right.
Qed.

Lemma line_of_content content i line :
  split Re.newline content !! i = Some line ->
  all_chars not_newline line = true.
Proof.
  intros H. apply (split_no_sep Re.newline content).
  by apply list_elem_of_lookup_2 in H.
Qed.

(** On a line without line feed the dollar matched at the very end. *)
Lemma no_newline_tail a g :
  all_chars not_newline (a +:+ g +:+ String Re.newline "") = true -> False.
Proof.
  rewrite !all_chars_app. simpl all_chars.
  replace (not_newline Re.newline) with false by done.
  by rewrite !andb_false_r.
Qed.

Lemma match_properties_spec line g1 g2 :
  Re.match_properties line = Some (g1, g2) ->
  exists sep tail,
    line = g1 +:+ String sep (g2 +:+ tail)
    /\ g1 <> "" /\ Re.is_sep sep = true
    /\ all_chars (fun c => negb (Re.is_sep c)) g1 = true
    /\ (tail = "" \/ tail = String Re.newline "").
Proof.
  unfold Re.match_properties.
  destruct (span_spec (fun c => negb (Re.is_sep c)) line) as (H1 & H2 & H3).
  destruct (Re.span _ line) as [a rest]. simpl in *.
  destruct a as [|c a]; [by destruct rest|].
  destruct rest as [|sep rest]; [done|].
  destruct (Re.dot_star_end rest) as [g|] eqn:E; [|done].
  intros [= <- <-]. apply dot_star_end_spec in E as (_ & E).
  specialize (H3 sep eq_refl). apply negb_false_iff in H3.
  destruct E as [->| ->].
  - exists sep, "". rewrite app_empty_r. by repeat split; auto.
  - exists sep, (String Re.newline ""). by repeat split; auto.
Qed.

Lemma match_assignment_spec s k v :
  Re.match_assignment s = Some (k, v) ->
  identifier k
  /\ exists tail, s = k +:+ "=" +:+ v +:+ tail
                  /\ (tail = "" \/ tail = String Re.newline "").
Proof.
  unfold Re.match_assignment.
  destruct s as [|c s]; [done|].
  destruct (Re.is_alpha_ c) eqn:Ec; [|done].
  destruct (span_spec Re.is_word s) as (H1 & H2 & H3).
  destruct (Re.span Re.is_word s) as [more rest]. simpl in *.
  destruct rest as [|e rest]; [done|].
  destruct (Ascii.eqb_spec e "="%char) as [->|Hne].
  2:{ by destruct e as [[] [] [] [] [] [] [] []]. }
  destruct (Re.dot_star_end rest) as [g|] eqn:E; [|done].
  intros [= <- <-]. apply dot_star_end_spec in E as (_ & E).
  split; [by exists c, more|].
  destruct E as [->| ->].
  - exists "". rewrite app_empty_r. split; [|by left].
    simpl. f_equal. by rewrite H1 at 1.
  - exists (String Re.newline ""). split; [|by right].
    simpl. f_equal. by rewrite H1 at 1.
Qed.

Lemma match_env_spec line g1 g2 g3 :
  Re.match_env line = Some (g1, g2, g3) ->
  identifier g2
  /\ (g1 = None
      \/ exists ws, g1 = Some ("export" +:+ ws) /\ ws <> ""
                    /\ all_chars is_space ws = true)
  /\ exists tail, line = env_prefix g1 +:+ g2 +:+ "=" +:+ g3 +:+ tail
                  /\ (tail = "" \/ tail = String Re.newline "").
Proof.
  unfold Re.match_env.
  assert (Hwithout :
    match Re.match_assignment line with
    | Some (g2', g3') => Some (None, g2', g3')
    | None => None
    end = Some (g1, g2, g3) ->
    identifier g2
    /\ (g1 = None
        \/ exists ws, g1 = Some ("export" +:+ ws) /\ ws <> ""
                      /\ all_chars is_space ws = true)
    /\ exists tail, line = env_prefix g1 +:+ g2 +:+ "=" +:+ g3 +:+ tail
                    /\ (tail = "" \/ tail = String Re.newline "")).
  { destruct (Re.match_assignment line) as [[k v]|] eqn:E; [|done].
    intros [= <- <- <-]. apply match_assignment_spec in E as (Hk & tail & E & Ht).
    split; [done|]. split; [by left|]. by exists tail. }
  destruct (startswith "export" line) eqn:Hp; [|done].
  apply prefix_split in Hp. change (len "export") with 6 in Hp.
  remember (drop 6 line) as rem eqn:Hrem. clear Hrem.
  destruct (span_spec is_space rem) as (H1 & H2 & H3).
  destruct (Re.span is_space rem) as [ws rest]. cbn [fst snd] in H1, H2, H3.
  destruct ws as [|w ws]; [done|].
  destruct (Re.match_assignment rest) as [[k v]|] eqn:E; [|done].
  intros [= <- <- <-]. apply match_assignment_spec in E as (Hk & tail & E & Ht).
  split; [done|]. split.
  - right. by exists (String w ws).
  - exists tail. split; [|done].
    rewrite Hp, H1, E. reflexivity.
Qed.

(** Conversely, every string of the shape that a pattern describes is
    matched, with the groups one expects. *)

Lemma span_app p a b :
  all_chars p a = true ->
  (forall c, first_char b = Some c -> p c = false) ->
  Re.span p (a +:+ b) = (a, b).
Proof.
  intros Ha Hb. induction a as [|c a IH]; simpl in *.
  - destruct b as [|c b]; [done|]. simpl. by rewrite (Hb c eq_refl).
  - apply andb_true_iff in Ha as [-> Ha]. by rewrite (IH Ha).
Qed.

Lemma dot_star_end_complete v :
  all_chars not_newline v = true -> Re.dot_star_end v = Some v.
Proof.
  intros H. unfold Re.dot_star_end. fold not_newline.
  rewrite <- (app_empty_r v) at 1. by rewrite (span_app _ _ "" H).
Qed.

Lemma match_properties_complete g1 sep g2 :
  g1 <> "" -> all_chars (fun c => negb (Re.is_sep c)) g1 = true ->
  Re.is_sep sep = true -> all_chars not_newline g2 = true ->
  Re.match_properties (g1 +:+ String sep g2) = Some (g1, g2).
Proof.
  intros Hne H1 Hs H2. unfold Re.match_properties.
  rewrite (span_app _ g1 (String sep g2) H1).
  2:{ intros c [= <-]. by rewrite Hs. }
  destruct g1; [done|]. by rewrite (dot_star_end_complete _ H2).
Qed.

Lemma match_assignment_complete k v :
  identifier k -> all_chars not_newline v = true ->
  Re.match_assignment (k +:+ "=" +:+ v) = Some (k, v).
Proof.
  intros (c & more & -> & Hc & Hm) Hv. unfold Re.match_assignment.
  simpl. rewrite Hc.
  rewrite (span_app _ more (String "=" v) Hm); [|by intros ? [= <-]].
  change (Ascii.eqb "=" "=") with true. cbn iota.
  by rewrite (dot_star_end_complete _ Hv).
Qed.

Lemma word_not_space c : Re.is_word c = true -> is_space c = false.
Proof. by destruct c as [[] [] [] [] [] [] [] []]. Qed.

Lemma match_env_complete_plain k v :
  identifier k -> all_chars not_newline v = true ->
  Re.match_env (k +:+ "=" +:+ v) = Some (None, k, v).
Proof.
  intros Hk Hv. unfold Re.match_env.
  rewrite (match_assignment_complete _ _ Hk Hv).
  destruct (startswith "export" (k +:+ "=" +:+ v)) eqn:Hp; [|done].
  destruct (Re.span is_space (drop 6 (k +:+ "=" +:+ v))) as [ws rest] eqn:Hs.
  destruct ws as [|w ws]; [done|]. exfalso.
  pose proof (span_spec is_space (drop 6 (k +:+ "=" +:+ v))) as (H1 & H2 & _).
  rewrite Hs in H1, H2. cbn [fst snd] in H1, H2.
  simpl in H2. apply andb_true_iff in H2 as [Hw _].
  destruct Hk as (c & more & -> & Hc & Hm).
  apply prefix_split in Hp. change (len "export") with 6 in Hp.
  assert (forall n s, all_chars Re.is_word s = true ->
            forall x t, drop n (s +:+ "=" +:+ v) = String x t ->
            n <= len s -> is_space x = false) as Hdrop.
  { clear. intros n. induction n as [|n IH]; intros s Hs x t Hd Hn.
    - destruct s as [|y s]; simpl in Hd; injection Hd as <- _; [done|].
      simpl in Hs. apply andb_true_iff in Hs as [Hy _]. by apply word_not_space.
    - destruct s as [|y s]; [unfold len in Hn; simpl in Hn; lia|].
      simpl in Hs. apply andb_true_iff in Hs as [_ Hs].
      simpl in Hd. apply (IH s Hs x t Hd). unfold len in *. simpl in Hn. lia. }
  assert (6 <= len (String c more)) as Hlen.
  { destruct (le_lt_dec 6 (len (String c more))) as [|Hlt]; [done|]. exfalso.
    clear -Hp Hlt Hm Hc.
    do 6 (destruct more as [|? more];
          [by destruct c as [[] [] [] [] [] [] [] []]; simpl in Hp |
           try (unfold len in Hlt; simpl in Hlt; lia)]). }
  assert (all_chars Re.is_word (String c more) = true) as Hall.
  { simpl. rewrite Hm. unfold Re.is_word. by rewrite Hc. }
  rewrite (Hdrop 6 (String c more) Hall w (ws +:+ rest) H1 Hlen) in Hw. done.
Qed.

Lemma match_env_complete_export ws k v :
  ws <> "" -> all_chars is_space ws = true ->
  identifier k -> all_chars not_newline v = true ->
  Re.match_env ("export" +:+ ws +:+ k +:+ "=" +:+ v)
  = Some (Some ("export" +:+ ws), k, v).
Proof.
  intros Hne Hws Hk Hv. unfold Re.match_env.
  replace (startswith "export" ("export" +:+ ws +:+ k +:+ "=" +:+ v))
    with true by (symmetry; apply prefix_app).
  change (drop 6 ("export" +:+ ws +:+ k +:+ "=" +:+ v))
    with (ws +:+ k +:+ "=" +:+ v).
  rewrite (span_app _ ws (k +:+ "=" +:+ v) Hws).
  - destruct ws; [done|]. by rewrite (match_assignment_complete _ _ Hk Hv).
  - destruct Hk as (c & more & -> & Hc & _). intros x [= <-].
    apply word_not_space. unfold Re.is_word. by rewrite Hc.
Qed.

End Regex.

(* ===================================================================== *)
(** * EnvMasker: the classified value and the rewritten line *)
(* ===================================================================== *)

Section Env.

Import Py Masker Says.

Lemma strip_keeps_first line c :
  first_char line = Some c -> is_space c = false ->
  exists r, strip line = String c r.
Proof.
  destruct line as [|d s]; [done|]. intros [= ->] Hc.
  unfold strip, strip_by. simpl. rewrite Hc. simpl. rewrite Hc.
  rewrite andb_false_r. by eexists.
Qed.

Lemma alpha_not_space c : Re.is_alpha_ c = true -> is_space c = false.
Proof. by destruct c as [[] [] [] [] [] [] [] []]. Qed.

Lemma alpha_not_hash c r :
  Re.is_alpha_ c = true -> startswith "#" (String c r) = false.
Proof. by destruct c as [[] [] [] [] [] [] [] []]. Qed.

Lemma match_env_first line g :
  Re.match_env line = Some g ->
  exists c, first_char line = Some c /\ Re.is_alpha_ c = true.
Proof.
  destruct g as [[g1 g2] g3].
  intros ((c & more & -> & Hc & _) & Hg1 & tail & -> & _)%match_env_spec.
  destruct Hg1 as [->|(ws & -> & _)]; simpl.
  - by exists c.
  - by exists "e"%char.
Qed.

(** A line that the env pattern matches is neither blank nor a comment. *)
Lemma match_env_not_skipped line g :
  Re.match_env line = Some g ->
  is_empty (strip line) || startswith "#" (strip line) = false.
Proof.
  intros (c & Hc & Ha)%match_env_first.
  destruct (strip_keeps_first line c Hc (alpha_not_space c Ha)) as [r ->].
  simpl. by apply alpha_not_hash.
Qed.

Lemma env_mask_line_matched self n line g1 g2 g3 :
  Re.match_env line = Some (g1, g2, g3) ->
  EnvMasker.mask_line self n line =
  if should_mask (EnvMasker.matcher self) g2 (VStr (strip_chars quote_chars g3))
  then (env_prefix g1 +:+ g2 +:+ "=" +:+ dq +:+ EnvMasker.mask_format self +:+ dq,
        [{| item_line := n; item_key := g2;
            item_original_value := strip_chars quote_chars g3;
            item_type := "env" |}])
  else (line, []).
Proof.
  intros H. unfold EnvMasker.mask_line.
  by rewrite (match_env_not_skipped _ _ H), H.
Qed.

(** On a line of the content the tail of the pattern took the whole rest. *)
Lemma env_line_of_content content i line g1 g2 g3 :
  split Re.newline content !! i = Some line ->
  Re.match_env line = Some (g1, g2, g3) ->
  line = env_prefix g1 +:+ g2 +:+ "=" +:+ g3.
Proof.
  intros Hl (_ & _ & tail & Hline & [->| ->])%match_env_spec.
  - by rewrite app_empty_r in Hline.
  - apply line_of_content in Hl. rewrite Hline in Hl.
    exfalso. apply (no_newline_tail (env_prefix g1 +:+ g2 +:+ "=") g3).
    by rewrite !app_assoc_s.
Qed.

(** C6, the claim as stated, fails: the value that is classified has lost
    every quote character at both ends, not one matching pair.  For the line
    [TOKEN=] followed by ['abc'] in double quotes the classified value is
    [abc], while stripping one layer of matching quotes leaves ['abc']. *)
Lemma env_unquote_is_not_one_layer :
  let raw := dq +:+ "'abc'" +:+ dq in
  let line := "TOKEN=" +:+ raw in
  Re.match_env line = Some (None, "TOKEN", raw)
  /\ map item_original_value (EnvMasker.mask_line Example.env_masker 1 line).2
     = ["abc"]
  /\ Spec.unquote_one_layer raw = "'abc'"
  /\ map item_original_value (EnvMasker.mask_line Example.env_masker 1 line).2
     <> [Spec.unquote_one_layer raw].
Proof. by vm_compute. Qed.

(** C6, amended. For a line of the content that the env pattern matches,
    the line is the export prefix, the key, [=] and the raw value; the value
    that is classified is the raw value without the quote characters, of
    either kind and however many, at its two ends; a masked line becomes the
    export prefix, the key, [=] and the mask format in double quotes, and any
    other line is kept; [export TOKEN=abc123] becomes
    [export TOKEN="***MASKED***"]. *)
Theorem env_line_value_and_rewrite
  (self : EnvMasker.t) (content : string) (i : nat) (line : string)
  (g1 : option string) (g2 g3 : string) :
  split Re.newline content !! i = Some line ->
  Re.match_env line = Some (g1, g2, g3) ->
  let v := strip_chars quote_chars g3 in
  let masked :=
    env_prefix g1 +:+ g2 +:+ "=" +:+ dq +:+ EnvMasker.mask_format self +:+ dq in
  let it := {| item_line := S i; item_key := g2;
               item_original_value := v; item_type := "env" |} in
  line = env_prefix g1 +:+ g2 +:+ "=" +:+ g3
  /\ (exists l r, g3 = l +:+ v +:+ r
                  /\ all_chars (in_chars quote_chars) l = true
                  /\ all_chars (in_chars quote_chars) r = true
                  /\ bare (in_chars quote_chars) v)
  /\ (EnvMasker.mask_lines self content).1 !! i =
     Some (if should_mask (EnvMasker.matcher self) g2 (VStr v)
           then masked else line)
  /\ (it ∈ (EnvMasker.mask_lines self content).2 <->
      should_mask (EnvMasker.matcher self) g2 (VStr v) = true)
  /\ EnvMasker.mask_content Example.env_masker "export TOKEN=abc123"
     = ("export TOKEN=" +:+ dq +:+ "***MASKED***" +:+ dq,
        [{| item_line := 1; item_key := "TOKEN";
            item_original_value := "abc123"; item_type := "env" |}]).
Proof.
  intros Hl Hm v masked it.
  split; [|split; [|split; [|split; [|reflexivity]]]].
  - by apply (env_line_of_content content i).
  - apply strip_by_spec.
  - unfold EnvMasker.mask_lines.
    rewrite (for_each_line_lookup _ _ _ _ _ Hl). simpl.
    rewrite (env_mask_line_matched _ _ _ _ _ _ Hm).
    by destruct (should_mask _ _ _).
  - unfold EnvMasker.mask_lines. rewrite for_each_line_items. split.
    + intros (j & line' & Hj & Hin).
      apply env_line_masked in Hin as (h1 & h2 & h3 & Hm' & Hs & Hit & _).
      injection Hit as Hij Hk Hv. symmetry in Hij. subst j.
      rewrite Hl in Hj. injection Hj as <-.
      rewrite Hm in Hm'. by injection Hm' as <- <- <-.
    + intros Hs. exists i, line. split; [done|]. simpl.
      rewrite (env_mask_line_matched _ _ _ _ _ _ Hm). fold v. rewrite Hs.
      apply list_elem_of_here.
Qed.

(** The theorem at work on a line with an export prefix and a value in
    single quotes. *)
Lemma env_line_value_and_rewrite_witness :
  (EnvMasker.mask_lines Example.env_masker
     ("# secrets" +:+ Example.nl +:+ "export  TOKEN='abc123'")).1 !! 1 =
  Some ("export  TOKEN=" +:+ dq +:+ "***MASKED***" +:+ dq).
Proof.
  refine (proj1 (proj2 (proj2
    (env_line_value_and_rewrite Example.env_masker
       ("# secrets" +:+ Example.nl +:+ "export  TOKEN='abc123'") 1
       "export  TOKEN='abc123'" (Some "export  ") "TOKEN" "'abc123'" _ _)))).
  - reflexivity.
  - reflexivity.
Defined.

End Env.

(* ===================================================================== *)
(** * What is masked passed [should_mask] *)
(* ===================================================================== *)

Section Items.

Import Py Masker Says.

Lemma yaml_walk_items self n lines ks ids it :
  it ∈ (YamlMasker.walk_lines self n lines ks ids).2 ->
  exists i line ks' ids',
    lines !! i = Some line
    /\ it ∈ (YamlMasker.mask_line self (n + i) line ks' ids').1.2.
Proof.
  revert n ks ids. induction lines as [|l lines IH]; intros n ks ids; simpl.
  - by intros ?%elem_of_nil.
  - destruct (YamlMasker.mask_line self n l ks ids) as [[out its] [ks1 ids1]] eqn:E.
    specialize (IH (S n) ks1 ids1).
    destruct (YamlMasker.walk_lines self (S n) lines ks1 ids1) as [rl ms].
    simpl in *. intros [H|H]%elem_of_app.
    + exists 0, l, ks, ids. by rewrite Nat.add_0_r, E.
    + destruct (IH H) as (i & line & ks' & ids' & H1 & H2).
      exists (S i), line, ks', ids'. by rewrite Nat.add_succ_r.
Qed.

(** Every item of the three maskers stands for a pair that [should_mask]
    accepted. *)
Lemma yaml_items_accepted self content it :
  it ∈ (YamlMasker.mask_lines self content).2 ->
  should_mask (YamlMasker.matcher self) (item_key it)
    (VStr (item_original_value it)) = true.
Proof.
  intros (i & line & ks & ids & _ & H)%yaml_walk_items.
  by apply yaml_line_masked in H as (k & _ & _ & Hs & -> & _).
Qed.

Lemma properties_items_accepted self content it :
  it ∈ (PropertiesMasker.mask_lines self content).2 ->
  should_mask (PropertiesMasker.matcher self) (item_key it)
    (VStr (item_original_value it)) = true.
Proof.
  intros (i & line & _ & H)%for_each_line_items.
  by apply properties_line_masked in H as (g1 & g2 & _ & Hs & -> & _).
Qed.

Lemma env_items_accepted self content it :
  it ∈ (EnvMasker.mask_lines self content).2 ->
  should_mask (EnvMasker.matcher self) (item_key it)
    (VStr (item_original_value it)) = true.
Proof.
  intros (i & line & _ & H)%for_each_line_items.
  by apply env_line_masked in H as (g1 & g2 & g3 & _ & Hs & -> & _).
Qed.

(** [mask_content] returns the items of [mask_lines]. *)
Lemma yaml_content_items self content :
  (YamlMasker.mask_content self content).2 = (YamlMasker.mask_lines self content).2.
Proof.
  unfold YamlMasker.mask_content. by destruct (YamlMasker.mask_lines self content).
Qed.

Lemma properties_content_items self content :
  (PropertiesMasker.mask_content self content).2
  = (PropertiesMasker.mask_lines self content).2.
Proof.
  unfold PropertiesMasker.mask_content.
  by destruct (PropertiesMasker.mask_lines self content).
Qed.

Lemma env_content_items self content :
  (EnvMasker.mask_content self content).2 = (EnvMasker.mask_lines self content).2.
Proof.
  unfold EnvMasker.mask_content. by destruct (EnvMasker.mask_lines self content).
Qed.

(** C4, the claim as stated, fails in its last part: the key
    [PASSWORD_HINT] matches the key pattern [password] and the excluded key
    pattern [hint], and the env masker still masks its line, because the
    value matches the value pattern [secret]. *)
Lemma excluded_key_masked_for_its_value :
  let m := Example.hint_matcher in
  Exists (fun p => Re.search p "PASSWORD_HINT" = true) (key_patterns m)
  /\ Exists (fun p => Re.search p "PASSWORD_HINT" = true) (exclude_key_patterns m)
  /\ EnvMasker.mask_content Example.hint_env_masker "PASSWORD_HINT=secret123"
     = ("PASSWORD_HINT=" +:+ dq +:+ "***MASKED***" +:+ dq,
        [{| item_line := 1; item_key := "PASSWORD_HINT";
            item_original_value := "secret123"; item_type := "env" |}]).
Proof.
  split; [by apply Exists_cons_hd|]. split; [by apply Exists_cons_hd|].
  reflexivity.
Qed.

(** C4, amended. [is_sensitive_key] is true exactly when no excluded key
    pattern matches the key and some key pattern does, the exclusion being
    decided first.  A key that matches an excluded key pattern is therefore
    never sensitive as a key, whatever key patterns it matches, and no masker
    masks a line on account of it: an item with such a key has a value that
    is sensitive by itself. *)
Theorem exclude_key_precedence
  (m : SensitivePatternMatcher) (key : string) :
  (is_sensitive_key m key = true <->
   Forall (fun p => Re.search p key = false) (exclude_key_patterns m)
   /\ Exists (fun p => Re.search p key = true) (key_patterns m))
  /\ (Exists (fun p => Re.search p key = true) (exclude_key_patterns m) ->
      is_sensitive_key m key = false
      /\ (forall v, should_mask m key v = true -> is_sensitive_value m v = true)
      /\ forall (fmt content : string) (it : MaskingItem),
           item_key it = key ->
           it ∈ (YamlMasker.mask_content
                   {| YamlMasker.matcher := m;
                      YamlMasker.mask_format := fmt |} content).2
           \/ it ∈ (PropertiesMasker.mask_content
                      {| PropertiesMasker.matcher := m;
                         PropertiesMasker.mask_format := fmt |} content).2
           \/ it ∈ (EnvMasker.mask_content
                      {| EnvMasker.matcher := m;
                         EnvMasker.mask_format := fmt |} content).2 ->
           is_sensitive_value m (VStr (item_original_value it)) = true).
Proof.
  split; [apply is_sensitive_key_true|].
  intros Hex. pose proof (excluded_key_not_sensitive _ _ Hex) as Hk.
  assert (forall v, should_mask m key v = true -> is_sensitive_value m v = true)
    as Hv.
  { intros v [H|H]%should_mask_true; [congruence | done]. }
  split; [done|]. split; [done|].
  intros fmt content it <- [H|[H|H]]; apply Hv.
  - rewrite yaml_content_items in H. by apply yaml_items_accepted in H.
  - rewrite properties_content_items in H.
    by apply properties_items_accepted in H.
  - rewrite env_content_items in H. by apply env_items_accepted in H.
Qed.

(** The theorem at work on a key that matches a key pattern and an
    excluded key pattern. *)
Lemma exclude_key_precedence_witness :
  is_sensitive_key Example.hint_matcher "PASSWORD_HINT" = false.
Proof.
  refine (proj1 (proj2 (exclude_key_precedence Example.hint_matcher
                          "PASSWORD_HINT") _)).
  by apply Exists_cons_hd.
Defined.

(** A value that is masked is neither empty nor wrapped in stars. *)
Lemma should_mask_guard m key s :
  should_mask m key (VStr s) = true ->
  s <> "" /\ startswith "***" s && endswith "***" s = false.
Proof.
  intros H. split.
  - intros ->. by rewrite should_mask_empty in H.
  - destruct (startswith "***" s && endswith "***" s) eqn:E; [|done].
    apply andb_true_iff in E as [E1 E2].
    by rewrite (should_mask_starred _ _ _ E1 E2) in H.
Qed.

(** No masker records an item for a value that is empty or that starts and
    ends with three stars. *)
Lemma items_pass_guard m fmt content it :
  it ∈ (YamlMasker.mask_content
          {| YamlMasker.matcher := m; YamlMasker.mask_format := fmt |}
          content).2
  \/ it ∈ (PropertiesMasker.mask_content
             {| PropertiesMasker.matcher := m;
                PropertiesMasker.mask_format := fmt |} content).2
  \/ it ∈ (EnvMasker.mask_content
             {| EnvMasker.matcher := m; EnvMasker.mask_format := fmt |}
             content).2 ->
  item_original_value it <> ""
  /\ startswith "***" (item_original_value it)
     && endswith "***" (item_original_value it) = false.
Proof.
  intros [H|[H|H]]; apply (should_mask_guard m (item_key it)).
  - rewrite yaml_content_items in H. by apply yaml_items_accepted in H.
  - rewrite properties_content_items in H.
    by apply properties_items_accepted in H.
  - rewrite env_content_items in H. by apply env_items_accepted in H.
Qed.

(** C5. The guard of [should_mask] against a second masking knows the stars
    of the default format, not the configured format.  With the format
    [[REDACTED]] the line [TOKEN=abc123] is masked, and masking the output
    once more yields an item again, whose original value is the mask format
    itself; with the default format the second run yields nothing (for
    every content and every format with stars at both ends, see
    [env_remask_starred] and [properties_remask_starred]). *)
Theorem remasking_configured_format_yields_item :
  let once := EnvMasker.mask_content Example.redacted_env_masker "TOKEN=abc123" in
  once = ("TOKEN=" +:+ dq +:+ "[REDACTED]" +:+ dq,
          [{| item_line := 1; item_key := "TOKEN";
              item_original_value := "abc123"; item_type := "env" |}])
  /\ (EnvMasker.mask_content Example.redacted_env_masker once.1).2
     = [{| item_line := 1; item_key := "TOKEN";
           item_original_value := "[REDACTED]"; item_type := "env" |}]
  /\ should_mask Example.password_matcher "TOKEN" (VStr "[REDACTED]") = true
  /\ (EnvMasker.mask_content Example.env_masker
        (EnvMasker.mask_content Example.env_masker "TOKEN=abc123").1).2 = [].
Proof. by vm_compute. Qed.

End Items.

(* ===================================================================== *)
(** * YamlMasker: the key path *)
(* ===================================================================== *)

Section YamlPath.

Import Py Masker Says Spec.

(** The [while] loop of [adjust] has come to its end when the fuel
    [length indent_stack] is used up: its condition is false on the result. *)
Lemma adjust_complete fuel cur ks ids :
  length ids <= fuel ->
  let '(ks', ids') := YamlMasker.adjust fuel cur ks ids in
  (1 <? length ids') && (cur <=? List.last ids' 0) = false.
Proof.
  revert ks ids. induction fuel as [|fuel IH]; intros ks ids Hlen.
  - destruct ids; [done | simpl in Hlen; lia].
  - cbn [YamlMasker.adjust].
    destruct ((1 <? length ids) && (cur <=? List.last ids 0)) eqn:E; [|done].
    apply IH. destruct ids as [|x ids]; [done|].
    rewrite List.removelast_firstn_len, List.length_firstn. simpl in *. lia.
Qed.

Lemma adjust_pops (st : Spec.scopes) fuel cur :
  length st < fuel ->
  YamlMasker.adjust fuel cur (stacks_of st).1 (stacks_of st).2
  = stacks_of (Spec.pop_scopes cur st).
Proof.
  revert fuel. induction st as [|[top k] st IH]; intros fuel Hlen.
  - destruct fuel; [done|]. reflexivity.
  - destruct fuel as [|fuel]; [simpl in Hlen; lia|].
    cbn [YamlMasker.adjust stacks_of fst snd map rev Spec.pop_scopes].
    rewrite app_comm_cons, List.last_last, length_app. simpl length.
    replace (1 <? S (length (rev (map fst st))) + 1) with true
      by (symmetry; apply Nat.ltb_lt; lia).
    cbn [andb]. destruct (cur <=? top); [|by rewrite <- app_comm_cons].
    rewrite List.removelast_last.
    replace (is_nil (rev (map snd st) ++ [k])) with false
      by (by destruct (rev (map snd st))).
    rewrite List.removelast_last.
    apply (IH fuel). simpl in Hlen. lia.
Qed.

Lemma current_indent_eq line :
  len line - len (lstrip line) = len (indentation line).
Proof.
  rewrite (indentation_lstrip line) at 1. rewrite len_app. lia.
Qed.

Lemma full_key_eq (st : Spec.scopes) key :
  (if is_nil (rev (map snd st)) then key
   else join "." (rev (map snd st) ++ [key]))
  = Spec.dotted_path st key.
Proof.
  unfold Spec.dotted_path.
  by destruct (rev (map snd st)).
Qed.

(** One line: the code and the specification record the same items and
    stay in step. *)
Lemma mask_line_step self n line (st : Spec.scopes) :
  let '(out, items, stacks) :=
    YamlMasker.mask_line self n line (stacks_of st).1 (stacks_of st).2 in
  let '(items', st') := Spec.yaml_step (YamlMasker.matcher self) n line st in
  items = items' /\ stacks = stacks_of st'.
Proof.
  unfold YamlMasker.mask_line, Spec.yaml_step. cbv zeta.
  destruct (is_empty (strip line) || startswith "#" (strip line)); [done|].
  rewrite current_indent_eq.
  replace (length (stacks_of st).2) with (S (length st))
    by (simpl; by rewrite length_rev, length_map).
  rewrite adjust_pops by lia.
  set (st1 := Spec.pop_scopes (len (indentation line)) st).
  unfold stacks_of. cbv beta iota.
  destruct (contains ":" (lstrip line)) eqn:Hc; cbn [andb]; [|done].
  destruct (negb (startswith "-" (lstrip line))); [|done].
  rewrite full_key_eq. fold (yaml_key_part line) (yaml_value_part line).
  destruct (yaml_value_part line) as [|c v] eqn:Hv; cbn [is_empty negb andb orb];
    [done|].
  destruct (startswith "#" (String c v)); cbn [negb]; [done|].
  by destruct (should_mask _ _ _).
Qed.

Lemma walk_lines_refines self n lines (st : Spec.scopes) :
  (YamlMasker.walk_lines self n lines (stacks_of st).1 (stacks_of st).2).2
  = Spec.yaml_items (YamlMasker.matcher self) n lines st.
Proof.
  revert n st. induction lines as [|l lines IH]; intros n st; [done|].
  cbn [YamlMasker.walk_lines Spec.yaml_items].
  pose proof (mask_line_step self n l st) as Hstep.
  destruct (YamlMasker.mask_line self n l _ _) as [[out items] [ks ids]].
  destruct (Spec.yaml_step _ n l st) as [items' st'].
  destruct Hstep as [<- [= -> ->]].
  specialize (IH (S n) st').
  destruct (YamlMasker.walk_lines self (S n) lines _ _) as [rl ms].
  simpl in *. by rewrite IH.
Qed.

(** C2, the claim as stated, fails in its example: on the input of the
    claim, whose third line is indented by four spaces, the rewritten line
    keeps these four spaces and is not the line with six spaces. *)
Lemma yaml_nested_line_keeps_four_spaces :
  ~ ((YamlMasker.mask_content Example.yaml_masker Example.nested_yaml).2
     = [{| item_line := 3; item_key := "spring.datasource.password";
           item_original_value := "hunter2"; item_type := "yaml" |}]
     /\ (YamlMasker.mask_lines Example.yaml_masker Example.nested_yaml).1 !! 2
        = Some ("      password: " +:+ dq +:+ "***MASKED***" +:+ dq)).
Proof. intros [_ H]. vm_compute in H. discriminate H. Qed.

(** C2, amended. The items of [mask_content] are those of the stack of
    (indent, key) pairs of the specification: the scopes whose indent is at
    least the indent of the line are popped, and the key of an item is the
    keys of the remaining scopes and the key of the line, joined by dots.
    On the nested document one item is recorded, with the key
    [spring.datasource.password] and the original value [hunter2], and the
    rewritten line is [    password: "***MASKED***"], indented by the four
    spaces of the input line. *)
Theorem yaml_item_keys_follow_indentation
  (self : YamlMasker.t) (content : string) :
  (YamlMasker.mask_content self content).2
  = Spec.yaml_items (YamlMasker.matcher self) 1 (split Re.newline content) []
  /\ YamlMasker.mask_content Example.yaml_masker Example.nested_yaml
     = ("spring:" +:+ Example.nl +:+ "  datasource:" +:+ Example.nl
        +:+ "    password: " +:+ dq +:+ "***MASKED***" +:+ dq,
        [{| item_line := 3; item_key := "spring.datasource.password";
            item_original_value := "hunter2"; item_type := "yaml" |}])
  /\ (YamlMasker.mask_lines Example.yaml_masker Example.nested_yaml).1 !! 2
     = Some ("    password: " +:+ dq +:+ "***MASKED***" +:+ dq).
Proof.
  split; [|split; reflexivity].
  rewrite yaml_content_items. unfold YamlMasker.mask_lines.
  apply (walk_lines_refines self 1 _ []).
Qed.

End YamlPath.

(* ===================================================================== *)
(** * What a masker changes in a line *)
(* ===================================================================== *)

Section Frame.

Import Py Masker Says.

(** The line written for line [i] of the content and the item of that
    line come from one call of [mask_line]. *)
Lemma yaml_walk_lookup self n lines ks ids i line :
  lines !! i = Some line ->
  exists ks' ids',
    (YamlMasker.walk_lines self n lines ks ids).1 !! i
    = Some (YamlMasker.mask_line self (n + i) line ks' ids').1.1
    /\ forall it, it ∈ (YamlMasker.walk_lines self n lines ks ids).2 ->
                  item_line it = n + i ->
                  it ∈ (YamlMasker.mask_line self (n + i) line ks' ids').1.2.
Proof.
  revert n ks ids i. induction lines as [|l lines IH]; intros n ks ids i Hl;
    [done|].
  cbn [YamlMasker.walk_lines].
  destruct (YamlMasker.mask_line self n l ks ids) as [[out its] [ks1 ids1]] eqn:E.
  pose proof (yaml_walk_items self (S n) lines ks1 ids1) as Hlater.
  specialize (IH (S n) ks1 ids1).
  destruct (YamlMasker.walk_lines self (S n) lines ks1 ids1) as [rl ms].
  cbn [fst snd] in *.
  destruct i as [|i]; simpl in Hl.
  - injection Hl as ->. exists ks, ids. rewrite Nat.add_0_r, E. split; [done|].
    intros it [H|H]%elem_of_app Hn; [done|]. exfalso.
    destruct (Hlater it H) as (j & line' & ks' & ids' & _ & Hin).
    apply yaml_line_masked in Hin as (k & _ & _ & _ & -> & _).
    simpl in Hn. lia.
  - destruct (IH i Hl) as (ks' & ids' & H1 & H2).
    exists ks', ids'. rewrite Nat.add_succ_r. split; [done|].
    intros it [H|H]%elem_of_app Hn; [|by apply H2].
    exfalso.
    assert (it ∈ (YamlMasker.mask_line self n l ks ids).1.2) as Hin
      by (by rewrite E).
    apply yaml_line_masked in Hin as (k & _ & _ & _ & -> & _).
    simpl in Hn. lia.
Qed.

Lemma yaml_masked_line_frame self n line ks ids it :
  it ∈ (YamlMasker.mask_line self n line ks ids).1.2 ->
  yaml_frame (YamlMasker.mask_format self) line
    (YamlMasker.mask_line self n line ks ids).1.1 it.
Proof.
  intros Hin. unfold yaml_frame.
  set (v := yaml_value_part line).
  apply yaml_line_masked in Hin as (k & Hc & Hv & _ & -> & Hout).
  rewrite Hout. cbn [fst snd item_original_value]. fold v.
  fold (quoted (YamlMasker.mask_format self)).
  set (q := quoted (YamlMasker.mask_format self)).
  assert (forall rest, first_char (q +:+ rest) = Some (ascii_of_nat 34)) as Hquote
    by done.
  clearbody q. fold v in Hv. clear Hout.
  split; [done|].
  destruct (split1_spec ":" (lstrip line) Hc) as (k0 & rest & Hs & Hs1).
  assert (v = strip rest) as Hvr.
  { unfold v, yaml_value_part. by rewrite Hs1. }
  clearbody v.
  destruct (strip_by_spec is_space rest) as (l & r & Hr & Hl & _ & Hbare & _).
  fold (strip rest) in Hr, Hbare. rewrite <- Hvr in Hr, Hbare. clear Hvr.
  assert (line = (indentation line +:+ k0 +:+ ":" +:+ l) +:+ v +:+ r) as Hown.
  { rewrite (indentation_lstrip line) at 1. rewrite Hs, Hr.
    by rewrite !app_assoc_s. }
  destruct (replace_first_spec v q line)
    as (pre & post & H1 & H2 & H3); [by eexists _, _|].
  assert (exists c, first_char v = Some c) as [c Hfc]
    by (destruct v; [done | by eexists]).
  destruct (occurrence_after_run is_space (indentation line) (lstrip line)
              pre v post c) as [pre' ->].
  { by rewrite <- indentation_lstrip. }
  { apply indentation_spaces. }
  { done. }
  { by apply Hbare. }
  rewrite H2. rewrite !app_assoc_s in H1. split; [|split].
  - rewrite !app_assoc_s. unfold indentation at 1 3.
    rewrite span_app; [done | apply indentation_spaces |].
    assert (lstrip line = pre' +:+ v +:+ post) as Hls.
    { apply (String.app_inj (indentation line)).
      by rewrite <- indentation_lstrip. }
    intros x. destruct pre' as [|y pre'].
    + simpl. rewrite Hquote. by intros [= <-].
    + intros [= <-]. apply (lstrip_first line). by rewrite Hls.
  - exists pre', post. rewrite !app_assoc_s.
    split; [done|]. split; [done|].
    intros pre'' post'' H. by apply (H3 pre'' post'').
  - exists k0, l, r. split; [by rewrite !app_assoc_s in Hown|].
    split; [unfold yaml_key_part; by rewrite Hs1|]. split; [done|].
    intros Hmin.
    destruct (app_same_length (indentation line +:+ pre') (v +:+ post)
                (indentation line +:+ k0 +:+ ":" +:+ l) (v +:+ r))
      as [Hp Hq].
    + rewrite (app_assoc_s (indentation line) pre'), <- H1.
      by rewrite Hown at 1.
    + apply Nat.le_antisymm.
      * apply (H3 _ r). by rewrite Hown at 1.
      * apply (Hmin _ post). rewrite H1 at 1. by rewrite !app_assoc_s.
    + apply String.app_inj in Hq. subst post. rewrite Hp.
      by rewrite !app_assoc_s.
Qed.

Lemma indentation_of_alpha c s :
  Re.is_alpha_ c = true -> indentation (String c s) = "".
Proof.
  intros H%alpha_not_space. unfold indentation. simpl. by rewrite H.
Qed.

Lemma env_masked_line_frame self content i line it :
  split Re.newline content !! i = Some line ->
  it ∈ (EnvMasker.mask_line self (S i) line).2 ->
  env_frame (EnvMasker.mask_format self) line
    (EnvMasker.mask_line self (S i) line).1 it.
Proof.
  intros Hl Hin.
  apply env_line_masked in Hin as (g1 & g2 & g3 & Hm & _ & -> & ->).
  cbn [fst item_key item_original_value].
  pose proof (env_line_of_content content i line g1 g2 g3 Hl Hm) as Hline.
  exists (env_prefix g1), g3. split; [done|]. split; [done|]. split; [done|].
  assert (forall rest, indentation (env_prefix g1 +:+ g2 +:+ rest) = "") as Hi.
  { intros rest.
    apply match_env_spec in Hm as ((c & more & -> & Hc & _) & Hg1 & _).
    destruct Hg1 as [->|(ws & -> & _)]; simpl.
    - by apply indentation_of_alpha.
    - by apply indentation_of_alpha. }
  split; [rewrite Hline|]; apply Hi.
Qed.

Lemma properties_masked_line_frame self content i line it :
  split Re.newline content !! i = Some line ->
  it ∈ (PropertiesMasker.mask_line self (S i) line).2 ->
  properties_frame (PropertiesMasker.mask_format self) line
    (PropertiesMasker.mask_line self (S i) line).1 it.
Proof.
  intros Hl Hin.
  apply properties_line_masked in Hin as (g1 & g2 & Hm & _ & -> & ->).
  cbn [fst item_key item_original_value].
  apply match_properties_spec in Hm as (sep & tail & Hline & _ & Hsep & _ & Ht).
  exists g1, sep, g2. repeat split; try done.
  destruct Ht as [->| ->]; [by rewrite app_empty_r in Hline|].
  apply line_of_content in Hl. rewrite Hline in Hl. exfalso.
  apply (no_newline_tail (g1 +:+ String sep "") g2).
  by rewrite !app_assoc_s.
Qed.

(** C3, the claim as stated, fails for the properties masker: the masked
    line is written anew from the trimmed key, so that the indentation of
    the line and the spaces around the separator are gone. *)
Lemma properties_masking_drops_indentation :
  let line := "  db.password = s3cr3t" in
  PropertiesMasker.mask_line Example.properties_masker 1 line
  = ("db.password=***MASKED***",
     [{| item_line := 1; item_key := "db.password";
         item_original_value := "s3cr3t"; item_type := "properties" |}])
  /\ indentation line = "  "
  /\ indentation "db.password=***MASKED***" = ""
  /\ indentation (PropertiesMasker.mask_line Example.properties_masker 1 line).1
     <> indentation line.
Proof. by vm_compute. Qed.

(** The raw value of a YAML line is looked for from the start of the line:
    when its text occurs in the key, the key is rewritten and the value
    stays. *)
Example yaml_value_text_in_key :
  YamlMasker.mask_content Example.yaml_masker "password: pass"
  = (dq +:+ "***MASKED***" +:+ dq +:+ "word: pass",
     [{| item_line := 1; item_key := "password";
         item_original_value := "pass"; item_type := "yaml" |}]).
Proof. reflexivity. Qed.

(** C3, amended. For the line of the content that an item belongs to:
    the YAML masker replaces the leftmost occurrence of the raw value by the
    quoted mask and nothing else, behind the indentation, and this is the
    value itself, behind the untouched key text, when the text of the value
    does not occur earlier in the line; the env masker keeps the export
    prefix, the key and the [=] and replaces the raw value, a line that it
    masks having no indentation; the properties masker keeps the trimmed key
    and writes the line anew as key, separator and mask, without the
    indentation and the spaces around the separator. *)
Theorem masked_line_frame
  (content : string) (i : nat) (line : string) (it : MaskingItem) :
  split Re.newline content !! i = Some line ->
  item_line it = S i ->
  (forall self : YamlMasker.t,
     it ∈ (YamlMasker.mask_lines self content).2 ->
     exists out, (YamlMasker.mask_lines self content).1 !! i = Some out
                 /\ yaml_frame (YamlMasker.mask_format self) line out it)
  /\ (forall self : EnvMasker.t,
        it ∈ (EnvMasker.mask_lines self content).2 ->
        exists out, (EnvMasker.mask_lines self content).1 !! i = Some out
                    /\ env_frame (EnvMasker.mask_format self) line out it)
  /\ (forall self : PropertiesMasker.t,
        it ∈ (PropertiesMasker.mask_lines self content).2 ->
        exists out, (PropertiesMasker.mask_lines self content).1 !! i = Some out
                    /\ properties_frame (PropertiesMasker.mask_format self)
                         line out it).
Proof.
  intros Hl Hn. split; [|split]; intros self Hin.
  - unfold YamlMasker.mask_lines in *.
    destruct (yaml_walk_lookup self 1 _ [] [0] i line Hl)
      as (ks & ids & Hout & Hit).
    eexists. split; [exact Hout|].
    apply yaml_masked_line_frame. apply Hit; [done|]. by rewrite Hn.
  - unfold EnvMasker.mask_lines in *.
    rewrite (for_each_line_lookup _ _ _ _ _ Hl).
    eexists. split; [reflexivity|].
    apply (env_masked_line_frame self content i line it Hl).
    apply for_each_line_items in Hin as (j & line' & Hj & Hin).
    pose proof Hin as (? & ? & ? & _ & _ & -> & _)%env_line_masked.
    simpl in Hn. injection Hn as ->. rewrite Hl in Hj. by injection Hj as ->.
  - unfold PropertiesMasker.mask_lines.
    rewrite (for_each_line_lookup _ _ _ _ _ Hl).
    eexists. split; [reflexivity|].
    apply (properties_masked_line_frame self content i line it Hl).
    by apply (properties_item_of_line self content).
Qed.

(** The theorem at work on the third line of the nested document. *)
Lemma masked_line_frame_witness :
  exists out,
    (YamlMasker.mask_lines Example.yaml_masker Example.nested_yaml).1 !! 2
    = Some out
    /\ yaml_frame "***MASKED***" "    password: hunter2" out
         {| item_line := 3; item_key := "spring.datasource.password";
            item_original_value := "hunter2"; item_type := "yaml" |}.
Proof.
  refine (proj1 (masked_line_frame Example.nested_yaml 2
                   "    password: hunter2"
                   {| item_line := 3; item_key := "spring.datasource.password";
                      item_original_value := "hunter2"; item_type := "yaml" |}
                   _ _) Example.yaml_masker _).
  - reflexivity.
  - reflexivity.
  - vm_compute. apply list_elem_of_here.
Defined.

End Frame.

(* ===================================================================== *)
(** * FileScanner.scan *)
(* ===================================================================== *)

Section Scan.

Import Py Says Scanner.

Variable fnmatch : string -> string -> bool.
Variable abspath : string -> string.

(** Induction on a directory tree: a property holds of a directory when
    it holds of its sub-directories. *)
Lemma tree_induction (P : tree -> Prop) :
  (forall files dirs, Forall (fun d => P d.2) dirs -> P (Dir files dirs)) ->
  forall t, P t.
Proof.
  intros step. fix IH 1. intros [files dirs]. apply step.
  induction dirs as [|d dirs IHdirs]; constructor; [apply IH | apply IHdirs].
Qed.

(** Every path that the walk yields is the path of a file of the tree whose
    directories, from the root of the walk down, are all kept. *)
Lemma scan_walk_provenance self project t :
  forall root p,
    p ∈ scan_walk fnmatch abspath self project root t ->
    exists ds f, has_file t ds f = true /\ kept self ds = true
                 /\ p = path_of root ds f.
Proof.
  induction t as [files dirs IH] using tree_induction.
  intros root p. cbn [scan_walk].
  rewrite elem_of_app, !list_elem_of_In, !in_flat_map.
  intros [(f & Hf & Hp) | ([d sub] & Hd & Hp)].
  - destruct (_should_process_file _ _ _ _); [|done].
    destruct Hp as [<-|[]]. exists [], f. split; [|done].
    simpl. apply existsb_exists. exists f. by rewrite String.eqb_refl.
  - simpl in Hp.
    destruct (_should_exclude_dir self d) eqn:Ex; [done|].
    rewrite Forall_forall in IH.
    apply list_elem_of_In in Hd. apply list_elem_of_In in Hp.
    destruct (IH (d, sub) Hd _ _ Hp) as (ds & f & H1 & H2 & H3).
    exists (d :: ds), f. split; [|split].
    + simpl. apply existsb_exists. exists (d, sub).
      split; [by apply list_elem_of_In|]. simpl. by rewrite String.eqb_refl.
    + simpl. by rewrite Ex.
    + done.
Qed.

(** ** Paths built by [os.path.join] *)

Lemma endswith_char c s :
  endswith (String c "") s =
  match last_char s with Some x => Ascii.eqb x c | None => false end.
Proof.
  induction s as [|a s IH]; [done|].
  unfold endswith. fold endswith. rewrite IH.
  destruct s as [|b s]; simpl; by destruct (Ascii.eqb a c).
Qed.

Lemma last_char_app a n : n <> "" -> last_char (a +:+ n) = last_char n.
Proof.
  intros Hn. induction a as [|c a IH]; [done|].
  simpl. rewrite IH. destruct (a +:+ n) eqn:E; [|done].
  destruct a; [|done]. simpl in E. by subst n.
Qed.

Lemma all_chars_last p n x :
  all_chars p n = true -> last_char n = Some x -> p x = true.
Proof.
  induction n as [|c n IH]; [done|]. simpl.
  intros [Hc Hn]%andb_true_iff. destruct n as [|d n].
  - by intros [= <-].
  - by apply IH.
Qed.

Lemma name_ok_spec n :
  name_ok n = true -> n <> "" /\ all_chars no_slash n = true.
Proof.
  unfold name_ok. intros [H1 H2]%andb_true_iff. split; [by destruct n | done].
Qed.

Lemma path_join_name a n :
  name_ok n = true -> path_join a n = with_slash a +:+ n.
Proof.
  intros [Hne Hn]%name_ok_spec. unfold path_join, with_slash.
  replace (startswith "/" n) with false.
  - destruct (is_empty a || endswith "/" a); [done|]. by rewrite app_assoc_s.
  - destruct n as [|c n]; [done|]. simpl in Hn.
    apply andb_true_iff in Hn as [Hc _]. unfold no_slash in Hc.
    rewrite startswith_char, Ascii.eqb_sym. by apply negb_true_iff in Hc.
Qed.

(** Once a name has been joined the path is not empty and does not end
    with a slash, so that every further [join] puts a slash in between. *)
Lemma with_slash_joined a n :
  name_ok n = true -> with_slash (a +:+ n) = (a +:+ n) +:+ "/".
Proof.
  intros [Hne Hn]%name_ok_spec. unfold with_slash.
  rewrite endswith_char, (last_char_app a n Hne).
  replace (is_empty (a +:+ n)) with false
    by (destruct a; [by destruct n | done]).
  destruct (last_char n) as [x|] eqn:E; [|done].
  pose proof (all_chars_last _ _ _ Hn E) as Hx. unfold no_slash in Hx.
  by destruct (Ascii.eqb x "/").
Qed.

Lemma fold_join_names ns a n :
  name_ok n = true -> Forall (fun m => name_ok m = true) ns ->
  fold_left path_join ns (a +:+ n) = a +:+ n +:+ slashed ns.
Proof.
  revert a n. induction ns as [|m ns IH]; intros a n Hn Hns.
  - simpl. by rewrite app_empty_r.
  - apply Forall_cons in Hns as [Hm Hns]. cbn [fold_left slashed].
    rewrite (path_join_name _ m Hm), (with_slash_joined a n Hn).
    rewrite (IH _ m Hm Hns). by rewrite !app_assoc_s.
Qed.

Lemma path_of_names root ds f :
  Forall (fun m => name_ok m = true) (ds ++ [f]) ->
  exists n ns, ds ++ [f] = n :: ns
               /\ path_of root ds f = with_slash root +:+ n +:+ slashed ns.
Proof.
  intros H. unfold path_of.
  change (path_join (fold_left path_join ds root) f)
    with (fold_left path_join [f] (fold_left path_join ds root)).
  rewrite <- fold_left_app.
  destruct (ds ++ [f]) as [|n ns] eqn:E; [by destruct ds|].
  apply Forall_cons in H as [Hn Hns]. exists n, ns. split; [done|].
  cbn [fold_left]. rewrite (path_join_name _ n Hn).
  by apply fold_join_names.
Qed.

(** A text without slash followed by nothing or by a slash is determined
    by the whole. *)
Lemma no_slash_prefix_inj a b x y :
  all_chars no_slash a = true -> all_chars no_slash b = true ->
  (x = "" \/ first_char x = Some "/"%char) ->
  (y = "" \/ first_char y = Some "/"%char) ->
  a +:+ x = b +:+ y -> a = b /\ x = y.
Proof.
  revert b. induction a as [|c a IH]; intros [|d b] Ha Hb Hx Hy H; simpl in *.
  - done.
  - apply andb_true_iff in Hb as [Hd _]. subst x.
    destruct Hx as [?|[= ->]]; done.
  - apply andb_true_iff in Ha as [Hc _]. subst y.
    destruct Hy as [?|[= ->]]; done.
  - injection H as -> H.
    apply andb_true_iff in Ha as [_ Ha]. apply andb_true_iff in Hb as [_ Hb].
    by destruct (IH b Ha Hb Hx Hy H) as [-> ->].
Qed.

Lemma slashed_start ns :
  slashed ns = "" \/ first_char (slashed ns) = Some "/"%char.
Proof. destruct ns; [by left | by right]. Qed.

Lemma slashed_inj ns ms :
  Forall (fun m => name_ok m = true) ns ->
  Forall (fun m => name_ok m = true) ms ->
  slashed ns = slashed ms -> ns = ms.
Proof.
  revert ms. induction ns as [|n ns IH]; intros [|m ms] Hns Hms H; try done.
  apply Forall_cons in Hns as [[_ Hn]%name_ok_spec Hns].
  apply Forall_cons in Hms as [[_ Hm]%name_ok_spec Hms].
  simpl in H. injection H as H.
  destruct (no_slash_prefix_inj n m _ _ Hn Hm (slashed_start ns)
              (slashed_start ms) H) as [-> H'].
  by rewrite (IH ms Hns Hms H').
Qed.

(** Two files of a walk with the same path lie in the same directory and
    have the same name. *)
Lemma path_of_inj root ds f ds' f' :
  Forall (fun m => name_ok m = true) (ds ++ [f]) ->
  Forall (fun m => name_ok m = true) (ds' ++ [f']) ->
  path_of root ds f = path_of root ds' f' -> ds = ds' /\ f = f'.
Proof.
  intros H H' Heq.
  destruct (path_of_names root ds f H) as (n & ns & E & Hp).
  destruct (path_of_names root ds' f' H') as (n' & ns' & E' & Hp').
  rewrite Hp, Hp' in Heq. apply String.app_inj in Heq.
  rewrite E in H. rewrite E' in H'.
  apply Forall_cons in H as [[_ Hn]%name_ok_spec Hns].
  apply Forall_cons in H' as [[_ Hn']%name_ok_spec Hns'].
  destruct (no_slash_prefix_inj n n' _ _ Hn Hn' (slashed_start ns)
              (slashed_start ns') Heq) as [-> Hs].
  apply (slashed_inj _ _ Hns Hns') in Hs. subst ns'.
  rewrite <- E' in E. by apply app_inj_tail in E.
Qed.

Lemma has_file_names t :
  names_ok t = true ->
  forall ds f, has_file t ds f = true ->
               Forall (fun m => name_ok m = true) (ds ++ [f]).
Proof.
  induction t as [files dirs IH] using tree_induction.
  cbn [names_ok]. intros [Hfiles Hdirs]%andb_true_iff ds f.
  rewrite forallb_forall in Hfiles. rewrite forallb_forall in Hdirs.
  destruct ds as [|d ds]; cbn [has_file].
  - intros (x & Hx & ->%String.eqb_eq)%existsb_exists.
    apply Forall_singleton. by apply Hfiles.
  - intros ([e sub] & He & [He'%String.eqb_eq Hsub]%andb_true_iff)%existsb_exists.
    simpl in *. subst e. specialize (Hdirs _ He). simpl in Hdirs.
    apply andb_true_iff in Hdirs as [Hd Hok].
    apply Forall_cons. split; [done|].
    rewrite Forall_forall in IH. apply list_elem_of_In in He.
    by apply (IH (d, sub) He).
Qed.

Lemma kept_no_excluded self ds :
  kept self ds = true -> existsb (_should_exclude_dir self) ds = false.
Proof.
  unfold kept. induction ds as [|d ds IH]; [done|]. simpl.
  intros [Hd Hds]%andb_true_iff. apply negb_true_iff in Hd.
  by rewrite Hd, IH.
Qed.

(** C9. Every path that [scan] yields is the path of a file reached from
    the project root through directories of which none has a name in the
    exclude set or a name that starts with a dot.  So no file below such a
    directory is yielded, at whatever depth and whatever the names of the
    directories in between: the walk does not descend into it. *)
Theorem scan_prunes_excluded_directories
  (self : FileScanner) (project_path : string) (t : tree) :
  (forall p, p ∈ scan fnmatch abspath self project_path t ->
             exists ds f, has_file t ds f = true /\ kept self ds = true
                          /\ p = path_of (abspath project_path) ds f)
  /\ (forall ds f,
        names_ok t = true ->
        has_file t ds f = true ->
        existsb (_should_exclude_dir self) ds = true ->
        path_of (abspath project_path) ds f
          ∉ scan fnmatch abspath self project_path t).
Proof.
  split.
  - intros p Hp. by apply scan_walk_provenance in Hp.
  - intros ds f Hok Hf Hex Hin.
    apply scan_walk_provenance in Hin as (ds' & f' & Hf' & Hk & Heq).
    apply path_of_inj in Heq as [-> _]; try by apply (has_file_names t).
    apply kept_no_excluded in Hk. congruence.
Qed.

End Scan.

Section ScanExample.

Import Py Says Scanner.

(** The theorem at work on the project of the specification: a matching
    file in a directory with an ordinary name below [node_modules]. *)
Lemma scan_prunes_excluded_directories_witness :
  "/srv/app/node_modules/config/application.yml"
    ∉ scan Example.fnmatch_literal Example.abspath_id Example.scanner
        "/srv/app" Example.project_tree.
Proof.
  refine (proj2 (scan_prunes_excluded_directories Example.fnmatch_literal
                   Example.abspath_id Example.scanner "/srv/app"
                   Example.project_tree)
            ["node_modules"; "config"] "application.yml" _ _ _).
  - reflexivity.
  - reflexivity.
  - reflexivity.
Defined.

(** The files that the scan of the example project yields. *)
Example scan_example :
  scan Example.fnmatch_literal Example.abspath_id Example.scanner
    "/srv/app" Example.project_tree
  = ["/srv/app/application.yml"; "/srv/app/src/application.yml"].
Proof. reflexivity. Qed.

End ScanExample.

(* ===================================================================== *)
(** * Python dicts as lists of items *)
(* ===================================================================== *)

Section Dict.

Import Py Says Scanner.

Lemma dict_get_set_same d k v : dict_get (dict_set d k v) k = Some v.
Proof.
  induction d as [|[k' v'] d IH]; csimpl.
  - by rewrite String.eqb_refl.
  - destruct (String.eqb k' k) eqn:E; csimpl; by rewrite E.
Qed.

Lemma dict_get_set_other d k v k' :
  k <> k' -> dict_get (dict_set d k v) k' = dict_get d k'.
Proof.
  intros Hne. induction d as [|[k0 v0] d IH]; csimpl.
  - by apply String.eqb_neq in Hne as ->.
  - destruct (String.eqb k0 k) eqn:E; csimpl; [|by rewrite IH].
    apply String.eqb_eq in E as ->. by apply String.eqb_neq in Hne as ->.
Qed.

Lemma dict_set_keys d k v :
  (dict_set d k v).*1 = if bool_decide (k ∈ d.*1) then d.*1 else d.*1 ++ [k].
Proof.
  induction d as [|[k' v'] d IH]; [done|]. csimpl.
  destruct (String.eqb_spec k' k) as [->|Hne]; csimpl.
  - rewrite bool_decide_eq_true_2; [done | by left].
  - rewrite IH. destruct (bool_decide (k ∈ d.*1)) eqn:E.
    + apply bool_decide_eq_true in E.
      rewrite bool_decide_eq_true_2; [done | by right].
    + apply bool_decide_eq_false in E.
      rewrite bool_decide_eq_false_2; [done|].
      by intros [?|?]%elem_of_cons.
Qed.

Lemma dict_set_is_dict d k v : is_dict d -> is_dict (dict_set d k v).
Proof.
  unfold is_dict. rewrite dict_set_keys. intros H.
  destruct (bool_decide (k ∈ d.*1)) eqn:E; [done|].
  apply bool_decide_eq_false in E. apply NoDup_app. split; [done|].
  split; [|apply NoDup_singleton].
  by intros x Hx ->%list_elem_of_singleton.
Qed.

Lemma dict_update_is_dict d other : is_dict d -> is_dict (dict_update d other).
Proof.
  unfold dict_update. revert d.
  induction other as [|[k v] other IH]; intros d H; [done|].
  csimpl. apply IH. by apply dict_set_is_dict.
Qed.

Lemma dict_set_fresh d k v : k ∉ d.*1 -> dict_set d k v = d ++ [(k, v)].
Proof.
  induction d as [|[k' v'] d IH]; [done|]. csimpl.
  intros H. apply not_elem_of_cons in H as [Hne H].
  destruct (String.eqb_spec k' k) as [->|_]; [done|]. by rewrite IH.
Qed.

(** Reading a JSON object whose member names are distinct gives the
    members as they are. *)
Lemma dict_update_app d other :
  is_dict (d ++ other) -> dict_update d other = d ++ other.
Proof.
  unfold dict_update, is_dict. revert d.
  induction other as [|[k v] other IH]; intros d H; csimpl.
  - by rewrite app_nil_r.
  - rewrite dict_set_fresh.
    + rewrite IH; rewrite <- app_assoc; [done|exact H].
    + rewrite fmap_app in H. apply NoDup_app in H as (_ & H & _).
      intros Hk. apply (H k Hk). by left.
Qed.

Lemma dict_load_id d : is_dict d -> dict_update [] d = d.
Proof. intros H. by apply (dict_update_app [] d). Qed.

Lemma dict_get_none d k : dict_get d k = None <-> k ∉ d.*1.
Proof.
  induction d as [|[k' v'] d IH]; csimpl.
  - split; [by intros _ ?%elem_of_nil | done].
  - destruct (String.eqb_spec k' k) as [->|Hne].
    + split; [done | intros H; exfalso; apply H; by left].
    + rewrite IH. split.
      * by intros H [?|?]%elem_of_cons.
      * intros H Hk. apply H. by right.
Qed.

Lemma dict_get_elem d k v : dict_get d k = Some v -> (k, v) ∈ d.
Proof.
  induction d as [|[k' v'] d IH]; [done|]. csimpl.
  destruct (String.eqb_spec k' k) as [->|Hne].
  - intros [= ->]. by left.
  - intros H. right. by apply IH.
Qed.

Lemma dict_elem_get d k v : is_dict d -> (k, v) ∈ d -> dict_get d k = Some v.
Proof.
  unfold is_dict. induction d as [|[k' v'] d IH]; [by intros _ ?%elem_of_nil|].
  csimpl. intros [Hk Hd]%NoDup_cons [[= -> ->]|H]%elem_of_cons.
  - by rewrite String.eqb_refl.
  - destruct (String.eqb_spec k' k) as [->|Hne]; [|by apply IH].
    exfalso. apply Hk. apply list_elem_of_fmap. by exists (k, v).
Qed.

(** [d.update(other)]: the values of [other] where it has the key, those
    of [d] elsewhere. *)
Lemma dict_get_update d other k :
  is_dict other ->
  dict_get (dict_update d other) k =
  match dict_get other k with
  | Some v => Some v
  | None => dict_get d k
  end.
Proof.
  unfold dict_update, is_dict. revert d.
  induction other as [|[k' v'] other IH]; intros d H; [done|].
  csimpl in *. apply NoDup_cons in H as [Hk H]. rewrite (IH _ H).
  destruct (String.eqb_spec k' k) as [->|Hne].
  - apply dict_get_none in Hk. by rewrite Hk, dict_get_set_same.
  - by rewrite dict_get_set_other.
Qed.

Lemma dict_set_elem d k v e : e ∈ dict_set d k v -> e ∈ d \/ e = (k, v).
Proof.
  induction d as [|[k' v'] d IH]; csimpl.
  - intros ->%list_elem_of_singleton. by right.
  - destruct (String.eqb_spec k' k) as [->|Hne].
    + intros [->|H]%elem_of_cons; [by right | left; by right].
    + intros [->|H]%elem_of_cons; [left; by left|].
      destruct (IH H) as [?|?]; [left; by right | by right].
Qed.

Lemma dict_update_elem d other e :
  e ∈ dict_update d other -> e ∈ d \/ e ∈ other.
Proof.
  unfold dict_update. revert d.
  induction other as [|[k v] other IH]; intros d; [by left|].
  csimpl. intros [[H| ->]%dict_set_elem|H]%IH.
  - by left.
  - right. by left.
  - right. by right.
Qed.

End Dict.

(* ===================================================================== *)
(** * BackupManager *)
(* ===================================================================== *)

Section BackupSteps.

Import Py Says Scanner.

Variable abspath : string -> string.
Variable refuses : syscall -> option exn.
Variable json_loads : string -> result loaded.

Lemma path_join_relative a b :
  startswith "/" b = false -> path_join a b = with_slash a +:+ b.
Proof.
  intros Hb. unfold path_join, with_slash. rewrite Hb.
  destruct (is_empty a || endswith "/" a); [done|]. by rewrite app_assoc_s.
Qed.

Lemma replace_sep_relative s rest :
  startswith "/" (replace_sep s +:+ "_" +:+ rest) = false.
Proof.
  destruct s as [|c s]; [done|]. simpl.
  rewrite startswith_char.
  destruct (Ascii.eqb_spec c "/") as [->|Hne]; [done|].
  apply Ascii.eqb_neq. congruence.
Qed.

(** The backup file is never the manifest file: its name has an
    underscore before the time stamp, [manifest.json] has none. *)
Lemma backup_path_not_manifest self timestamp file_path project_path bp :
  _get_backup_path abspath self timestamp file_path project_path = Ok bp ->
  bp <> manifest_path self project_path.
Proof.
  unfold _get_backup_path, manifest_path.
  destruct (is_empty file_path); [done|]. intros [= <-].
  rewrite path_join_relative by apply replace_sep_relative.
  rewrite path_join_relative by done.
  intros H%String.app_inj.
  apply (f_equal (all_chars (fun c => negb (Ascii.eqb c "_")))) in H.
  rewrite all_chars_app in H.
  replace (all_chars _ ("_" +:+ timestamp +:+ suffix self)) with false in H
    by done.
  by rewrite andb_false_r in H.
Qed.

Lemma manifest_path_with_manifest self m project_path :
  manifest_path (with_manifest self m) project_path
  = manifest_path self project_path.
Proof. reflexivity. Qed.

(** ** The steps of the state monad *)

Lemma mbind_returns {A B} (m : M A) (k : A -> M B) st b st' :
  mbind m k st = (Ok b, st') ->
  exists a st1, m st = (Ok a, st1) /\ k a st1 = (Ok b, st').
Proof.
  unfold mbind. destruct (m st) as [[a|e] st1]; [|done]. by eauto.
Qed.

Lemma get_self_returns st a st1 :
  get_self st = (Ok a, st1) -> a = manager st /\ st1 = st.
Proof. by intros [= <- <-]. Qed.

Lemma makedirs_returns d st u st1 :
  makedirs refuses d st = (Ok u, st1) -> disk st !! d = None /\ st1 = st.
Proof.
  unfold makedirs. destruct (disk st !! d); [done|].
  destruct (refuses (Makedirs d)); [done|]. by intros [= _ <-].
Qed.

Lemma copy2_returns src dst st u st1 :
  copy2 refuses src dst st = (Ok u, st1) ->
  exists data, disk st !! src = Some data /\ src <> dst
               /\ st1 = written dst data st.
Proof.
  unfold copy2. destruct (disk st !! src) as [data|]; [|done].
  destruct (String.eqb_spec src dst); [done|].
  destruct (refuses (Copy2 src dst)); [done|]. intros [= _ <-]. by eauto.
Qed.

Lemma manifest_setitem_returns k v st u st1 :
  manifest_setitem k v st = (Ok u, st1) ->
  st1 = {| manager := with_manifest (manager st)
                        (dict_set (_backup_manifest (manager st)) k v);
           disk := disk st |}.
Proof. by intros [= _ <-]. Qed.

Lemma json_of_members data d :
  json_of json_loads data = Ok (Members d) ->
  exists pairs, d = dict_update [] pairs.
Proof.
  destruct data as [s|members]; cbn [json_of].
  - destruct (json_loads (universal_newlines s)) as [[pairs|ty]|e]; [|done..].
    intros [= <-]. by eauto.
  - intros [= <-]. by eauto.
Qed.

Lemma json_load_returns p st v st1 :
  json_load refuses json_loads p st = (Ok v, st1) ->
  exists data, disk st !! p = Some data /\ refuses (OpenRead p) = None
               /\ json_of json_loads data = Ok v /\ st1 = st.
Proof.
  unfold json_load. destruct (disk st !! p) as [data|]; [|done].
  destruct (refuses (OpenRead p)); [done|]. intros [= H <-]. by eauto.
Qed.

Lemma save_manifest_returns project_path st u st1 :
  _save_manifest refuses json_loads project_path st = (Ok u, st1) ->
  let mp := manifest_path (manager st) project_path in
  exists existing,
    manifest_on_disk json_loads (disk st) mp = Some existing
    /\ st1 = written mp
               (Json (dict_update existing (_backup_manifest (manager st)))) st.
Proof.
  intros H mp. unfold _save_manifest in H.
  apply mbind_returns in H as (self & s1 & [-> ->]%get_self_returns & H).
  apply mbind_returns in H as (present & s2 & Hp & H).
  injection Hp as <- <-. fold mp in H.
  apply mbind_returns in H as (v & s3 & He & H).
  apply mbind_returns in H as (self' & s4 & [-> ->]%get_self_returns & H).
  apply mbind_returns in H as (existing & s5 & Hm & H).
  unfold lift in Hm. injection Hm as Hm <-.
  unfold json_dump in H. destruct (refuses (OpenWrite mp)); [done|].
  injection H as _ <-. exists existing. unfold manifest_on_disk.
  destruct (disk st !! mp) as [data|] eqn:Hmp.
  - rewrite bool_decide_eq_true_2 in He by eauto.
    apply json_load_returns in He as (data' & Hd & _ & Hj & ->).
    rewrite Hmp in Hd. injection Hd as <-. rewrite Hj.
    destruct v as [d|ty]; [|done]. cbn in Hm. by injection Hm as <-.
  - rewrite bool_decide_eq_false_2 in He by (by intros [? ?]).
    injection He as <- <-. cbn in Hm. by injection Hm as <-.
Qed.

(** What a [create_backup] that returns has found and done. *)
Lemma create_backup_returns timestamp file_path project_path st bp st' :
  create_backup abspath refuses json_loads timestamp file_path project_path st
  = (Ok bp, st') ->
  let self := manager st in
  let mp := manifest_path self project_path in
  let mem := dict_set (_backup_manifest self) file_path bp in
  _get_backup_path abspath self timestamp file_path project_path = Ok bp
  /\ file_path <> bp
  /\ exists data existing,
       disk st !! file_path = Some data
       /\ manifest_on_disk json_loads (disk st) mp = Some existing
       /\ st' = {| manager := with_manifest self mem;
                   disk := <[mp := Json (dict_update existing mem)]>
                             (<[bp := data]> (disk st)) |}.
Proof.
  intros H self mp mem. unfold create_backup in H.
  apply mbind_returns in H as (self0 & s1 & [-> ->]%get_self_returns & H).
  fold self in H.
  apply mbind_returns in H as (u1 & s2 & [_ ->]%makedirs_returns & H).
  apply mbind_returns in H as (bp0 & s2 & [= Hbp <-] & H).
  apply mbind_returns in H as (u2 & s3 & (data & Hf & Hne & ->)%copy2_returns & H).
  apply mbind_returns in H as (u3 & s4 & ->%manifest_setitem_returns & H).
  apply mbind_returns in H as (u4 & s5 & Hs & H).
  injection H as <- <-.
  apply save_manifest_returns in Hs as (existing & He & ->).
  split; [done|]. split; [done|]. exists data, existing.
  split; [done|]. split; [|done].
  cbn [manager disk written] in He.
  rewrite manifest_path_with_manifest in He. fold self mp in He.
  unfold manifest_on_disk in *.
  rewrite lookup_insert_ne in He; [done|].
  by apply (backup_path_not_manifest self timestamp file_path).
Qed.

(** ** restore_all *)

Lemma path_exists_returns p st :
  path_exists p st = (Ok (bool_decide (is_Some (disk st !! p))), st).
Proof. reflexivity. Qed.

Lemma restore_items_cons o b rest restored st :
  restore_items refuses ((o, b) :: rest) restored st =
  match disk st !! b with
  | Some data =>
      if String.eqb b o then (Raise (SameFileError (same_file b o)), st)
      else
        match refuses (Copy2 b o) with
        | Some e => (Raise e, st)
        | None =>
            restore_items refuses rest (restored ++ [o]) (written o data st)
        end
  | None => restore_items refuses rest restored st
  end.
Proof.
  cbn [restore_items]. unfold mbind at 1. rewrite path_exists_returns.
  destruct (disk st !! b) as [data|] eqn:E.
  - rewrite bool_decide_eq_true_2 by eauto.
    unfold mbind, copy2. rewrite E. destruct (String.eqb b o); [done|].
    by destruct (refuses (Copy2 b o)).
  - by rewrite bool_decide_eq_false_2 by (by intros [? ?]).
Qed.

Lemma restore_items_app a b restored st restored' st' :
  restore_items refuses a restored st = (Ok restored', st') ->
  restore_items refuses (a ++ b) restored st
  = restore_items refuses b restored' st'.
Proof.
  revert restored st. induction a as [|[o bk] a IH]; intros restored st.
  - by intros [= <- <-].
  - rewrite <- app_comm_cons, !restore_items_cons.
    destruct (disk st !! bk); [|by apply IH].
    destruct (String.eqb bk o); [done|].
    destruct (refuses (Copy2 bk o)); [done | by apply IH].
Qed.

Lemma not_refused_copy o b :
  not_refused refuses (o, b) = true -> refuses (Copy2 b o) = None.
Proof. unfold not_refused. simpl. by destruct (refuses (Copy2 b o)). Qed.

(** Entries that are safe for a path, and that the file system lets copy
    back, leave the file at that path alone, and the loop over them
    returns. *)
Lemma restore_items_frame items restored st p :
  Forall (fun e => safe_entry p e = true) items ->
  Forall (fun e => not_refused refuses e = true) items ->
  exists more st',
    restore_items refuses items restored st = (Ok (restored ++ more), st')
    /\ disk st' !! p = disk st !! p.
Proof.
  revert restored st.
  induction items as [|[o b] items IH]; intros restored st H Hok.
  - exists [], st. by rewrite app_nil_r.
  - apply Forall_cons in H as [[Hob Hop]%andb_true_iff H].
    apply Forall_cons in Hok as [Hcopy%not_refused_copy Hok].
    apply negb_true_iff, String.eqb_neq in Hob, Hop. simpl in Hob, Hop.
    rewrite restore_items_cons.
    destruct (disk st !! b) as [data|]; [|by apply IH].
    assert (String.eqb b o = false) as -> by (apply String.eqb_neq; congruence).
    rewrite Hcopy.
    destruct (IH (restored ++ [o]) (written o data st) H Hok)
      as (more & st' & Hr & Hd).
    exists (o :: more), st'. rewrite Hr, <- app_assoc. split; [done|].
    rewrite Hd. by apply lookup_insert_ne.
Qed.

Lemma dict_get_split d k v :
  dict_get d k = Some v ->
  exists before after, d = before ++ (k, v) :: after.
Proof.
  induction d as [|[k' v'] d IH]; [done|]. simpl.
  destruct (String.eqb_spec k' k) as [->|Hne].
  - intros [= ->]. by exists [], d.
  - intros (before & after & ->)%IH. by exists ((k', v') :: before), after.
Qed.

(** The loop of [restore_all] copies the backup of [file] back, when no
    entry stands in the way and no copy is refused. *)
Lemma restore_items_target items st file bp data :
  is_dict items ->
  dict_get items file = Some bp ->
  disk st !! bp = Some data ->
  Forall (fun e => safe_entry bp e = true) items ->
  Forall (fun e => not_refused refuses e = true) items ->
  exists restored st',
    restore_items refuses items [] st = (Ok restored, st')
    /\ disk st' !! file = Some data /\ file ∈ restored.
Proof.
  intros Hd Hget Hbp Hsafe Hok.
  destruct (dict_get_split _ _ _ Hget) as (before & after & ->).
  apply Forall_app in Hsafe as [Hbefore Hrest].
  apply Forall_cons in Hrest as [Hself Hafter].
  apply Forall_app in Hok as [Hok1 Hok2].
  apply Forall_cons in Hok2 as [Hcopy%not_refused_copy Hok2].
  destruct (restore_items_frame before [] st bp Hbefore Hok1)
    as (r1 & st1 & Hr1 & Hd1).
  rewrite (restore_items_app _ _ _ _ _ _ Hr1), restore_items_cons.
  rewrite Hd1, Hbp.
  apply andb_true_iff in Hself as [Hfb _].
  apply negb_true_iff, String.eqb_neq in Hfb. simpl in Hfb.
  assert (String.eqb bp file = false) as ->
    by (apply String.eqb_neq; congruence).
  rewrite Hcopy.
  assert (Forall (fun e => safe_entry file e = true) after) as Hafter'.
  { unfold is_dict in Hd. rewrite fmap_app, fmap_cons in Hd.
    apply NoDup_app in Hd as (_ & _ & [Hk _]%NoDup_cons).
    rewrite Forall_forall in Hafter. apply Forall_forall. intros [o b] He.
    specialize (Hafter _ He). unfold safe_entry in *. simpl in *.
    apply andb_true_iff in Hafter as [-> _]. simpl.
    apply negb_true_iff, String.eqb_neq. intros ->. apply Hk.
    apply list_elem_of_fmap. by exists (file, b). }
  destruct (restore_items_frame after (([] ++ r1) ++ [file])
              (written file data st1) file Hafter' Hok2)
    as (more & st' & Hr & Hdisk).
  exists ((([] ++ r1) ++ [file]) ++ more), st'. split; [done|]. split.
  - rewrite Hdisk. apply lookup_insert_eq.
  - apply elem_of_app. left. apply elem_of_app. right. by left.
Qed.

(** [restore_all] when the manifest file is there, can be read and holds
    a JSON object. *)
Lemma restore_all_loaded project_path st data d :
  disk st !! manifest_path (manager st) project_path = Some data ->
  refuses (OpenRead (manifest_path (manager st) project_path)) = None ->
  json_of json_loads data = Ok (Members d) ->
  restore_all refuses json_loads project_path st
  = restore_items refuses d [] st.
Proof.
  intros H Hr Hj. unfold restore_all, mbind, get_self, path_exists, json_load.
  cbv beta iota. rewrite bool_decide_eq_true_2 by eauto.
  cbv beta iota. cbn [negb]. by rewrite H, Hr, Hj.
Qed.

Lemma restore_all_present project_path st members :
  disk st !! manifest_path (manager st) project_path = Some (Json members) ->
  refuses (OpenRead (manifest_path (manager st) project_path)) = None ->
  restore_all refuses json_loads project_path st
  = restore_items refuses (dict_update [] members) [] st.
Proof. intros H Hr. by apply (restore_all_loaded _ _ _ _ H Hr). Qed.

Lemma manifest_on_disk_is_dict disk mp d :
  manifest_on_disk json_loads disk mp = Some d -> is_dict d.
Proof.
  unfold manifest_on_disk. destruct (disk !! mp) as [data|].
  - destruct (json_of json_loads data) as [[d'|ty]|e] eqn:E; [|done..].
    intros [= <-]. apply json_of_members in E as [pairs ->].
    apply dict_update_is_dict, NoDup_nil_2.
  - intros [= <-]. apply NoDup_nil_2.
Qed.

(** Without a manifest file [restore_all] has nothing to restore: it
    returns the empty list and changes nothing. *)
Lemma restore_all_without_manifest project_path st :
  disk st !! manifest_path (manager st) project_path = None ->
  restore_all refuses json_loads project_path st = (Ok [], st).
Proof.
  intros H. unfold restore_all, mbind, get_self, path_exists.
  cbv beta iota. by rewrite bool_decide_eq_false_2 by (rewrite H; by intros [? ?]).
Qed.

End BackupSteps.

Section Backup.

Import Py Says Scanner.

Variable abspath : string -> string.
Variable json_loads : string -> result loaded.

(** C8. After two [create_backup] calls on the same file, given as one
    path, the manifest of the project maps that path to the second backup
    and to nothing else.  When the file has been overwritten since,
    [restore_all] returns and puts the content of the second snapshot back
    at the path, under these conditions: the file is not the manifest file;
    no manifest entry found at the start, on disk or in the manager, has an
    original path that is its own backup path or the path of the second
    backup; the file system lets [restore_all] read the manifest and copy
    each of these entries, and the second backup, back.  The file system
    may refuse other calls at each of the three steps than at the others.
    Without a manifest file [restore_all] returns the empty list and raises
    nothing. *)
Theorem restore_all_restores_latest_backup
  (refuses1 refuses2 refuses3 : syscall -> option exn)
  (st0 st1 st2 : state) (ts1 ts2 file_path project_path bp1 bp2 : string)
  (data2 data3 : file_data) :
  let self := manager st0 in
  let mp := manifest_path self project_path in
  let entries :=
    default [] (manifest_on_disk json_loads (disk st0) mp)
    ++ _backup_manifest self in
  create_backup abspath refuses1 json_loads ts1 file_path project_path st0
  = (Ok bp1, st1) ->
  create_backup abspath refuses2 json_loads ts2 file_path project_path
    (written file_path data2 st1) = (Ok bp2, st2) ->
  is_dict (_backup_manifest self) ->
  file_path <> mp ->
  forallb (safe_entry bp2) entries = true ->
  refuses3 (OpenRead mp) = None ->
  forallb (not_refused refuses3) ((file_path, bp2) :: entries) = true ->
  (exists d restored st3,
     disk st2 !! mp = Some (Json d)
     /\ is_dict d
     /\ dict_get d file_path = Some bp2
     /\ (forall b, (file_path, b) ∈ d -> b = bp2)
     /\ disk st2 !! bp2 = Some data2
     /\ restore_all refuses3 json_loads project_path
          (written file_path data3 st2)
        = (Ok restored, st3)
     /\ disk st3 !! file_path = Some data2
     /\ file_path ∈ restored)
  /\ (forall st root,
        disk st !! manifest_path (manager st) root = None ->
        restore_all refuses3 json_loads root st = (Ok [], st)).
Proof.
  intros self mp entries H1 H2 Hmem Hfm Hsafe Hread Hcopies.
  split; [|intros st root; apply restore_all_without_manifest].
  subst self mp entries.
  apply create_backup_returns in H1
    as (_ & Hfb1 & data1 & ex0 & _ & Hex0 & ->).
  apply create_backup_returns in H2
    as (Hbp2 & Hfb2 & data & ex1 & Hdata & Hex1 & ->).
  cbn [manager disk written with_manifest _backup_manifest] in *.
  rewrite ?manifest_path_with_manifest in *.
  set (self := manager st0) in *.
  set (mp := manifest_path self project_path) in *.
  rewrite Hex0 in Hsafe, Hcopies. cbn [default from_option] in Hsafe, Hcopies.
  set (mem1 := dict_set (_backup_manifest self) file_path bp1) in *.
  set (mem2 := dict_set mem1 file_path bp2) in *.
  set (d1 := dict_update ex0 mem1) in *.
  assert (is_dict d1) as Hd1.
  { apply dict_update_is_dict. by apply (manifest_on_disk_is_dict _ _ _ _ Hex0). }
  assert (ex1 = d1) as ->.
  { unfold manifest_on_disk in Hex1.
    rewrite lookup_insert_ne, lookup_insert_eq in Hex1 by done.
    cbn [json_of] in Hex1. injection Hex1 as <-. by apply dict_load_id. }
  rewrite lookup_insert_eq in Hdata. injection Hdata as <-.
  set (d2 := dict_update d1 mem2) in *.
  assert (is_dict mem2) as Hmem2 by (by do 2 apply dict_set_is_dict).
  assert (is_dict d2) as Hd2 by (by apply dict_update_is_dict).
  assert (dict_get d2 file_path = Some bp2) as Hget.
  { unfold d2. rewrite dict_get_update by done.
    unfold mem2. by rewrite dict_get_set_same. }
  assert (bp2 <> mp) as Hbm.
  { by apply backup_path_not_manifest in Hbp2. }
  assert (Forall (fun e => safe_entry bp2 e = true) d2) as Hsafe2.
  { apply Forall_forall. intros e He.
    rewrite forallb_forall in Hsafe.
    assert (safe_entry bp2 (file_path, bp1) = true) as Hs1.
    { unfold safe_entry. simpl. apply andb_true_iff.
      split; apply negb_true_iff, String.eqb_neq; done. }
    assert (safe_entry bp2 (file_path, bp2) = true) as Hs2.
    { unfold safe_entry. simpl. apply andb_true_iff.
      split; apply negb_true_iff, String.eqb_neq; done. }
    assert (forall x, x ∈ mem1 -> safe_entry bp2 x = true) as Hm1.
    { intros x [Hx| ->]%dict_set_elem; [|done].
      apply Hsafe, in_or_app. right. by apply list_elem_of_In. }
    apply dict_update_elem in He as [He|He].
    - apply dict_update_elem in He as [He|He]; [|by apply Hm1].
      apply Hsafe, in_or_app. left. by apply list_elem_of_In.
    - apply dict_set_elem in He as [He| ->]; [by apply Hm1 | done]. }
  assert (Forall (fun e => not_refused refuses3 e = true) d2) as Hok2.
  { apply Forall_forall. intros [o b] He.
    cbn [forallb] in Hcopies. apply andb_true_iff in Hcopies as [Hc2 Hrest].
    rewrite forallb_forall in Hrest.
    destruct (decide (o = file_path)) as [->|Hne].
    { apply (dict_elem_get _ _ _ Hd2) in He.
      assert (b = bp2) as -> by congruence. done. }
    assert (forall x, x ∈ mem1 -> x.1 <> file_path ->
                      not_refused refuses3 x = true) as Hm1.
    { intros x [Hx| ->]%dict_set_elem Hx1; [|done].
      apply Hrest, in_or_app. right. by apply list_elem_of_In. }
    apply dict_update_elem in He as [He|He].
    - apply dict_update_elem in He as [He|He]; [|by apply Hm1].
      apply Hrest, in_or_app. left. by apply list_elem_of_In.
    - apply dict_set_elem in He as [He|[= -> ->]]; [by apply Hm1 | done]. }
  destruct (restore_items_target refuses3 d2
              (written file_path data3
                 {| manager := with_manifest (with_manifest self mem1) mem2;
                    disk := <[mp := Json d2]>
                              (<[bp2 := data2]>
                                 (<[file_path := data2]>
                                    (<[mp := Json d1]>
                                       (<[bp1 := data1]> (disk st0))))) |})
              file_path bp2 data2 Hd2 Hget)
    as (restored & st3 & Hr & Hfile & Hin); [|done|done|].
  { cbn [disk written].
    rewrite lookup_insert_ne, lookup_insert_ne, lookup_insert_eq by done.
    done. }
  exists d2, restored, st3.
  split; [by rewrite lookup_insert_eq|]. split; [done|]. split; [done|].
  split; [intros b Hb; apply (dict_elem_get _ _ _ Hd2) in Hb; congruence|].
  split; [by rewrite lookup_insert_ne, lookup_insert_eq|].
  split; [|done].
  rewrite (restore_all_present _ _ _ _ d2).
  - by rewrite (dict_load_id _ Hd2).
  - cbn [manager disk written]. rewrite !manifest_path_with_manifest.
    fold mp. by rewrite lookup_insert_ne, lookup_insert_eq.
  - cbn [manager written]. by rewrite !manifest_path_with_manifest.
Qed.

(** C10. After [create_backup] for a file of one project root and then,
    with the same manager, for a file of another root, the manifest written
    under the second root is the manifest found there, updated with the
    whole in-memory manifest of the manager: it holds every entry of the
    in-memory manifest, and so the entry of the file of the first root. *)
Theorem manifest_holds_entries_of_other_roots
  (refuses1 refuses2 : syscall -> option exn)
  (st0 st1 st2 : state) (ts1 ts2 f1 root1 f2 root2 bp1 bp2 : string) :
  let self := manager st0 in
  let mp2 := manifest_path self root2 in
  let memory := _backup_manifest (manager st2) in
  create_backup abspath refuses1 json_loads ts1 f1 root1 st0 = (Ok bp1, st1) ->
  create_backup abspath refuses2 json_loads ts2 f2 root2 st1 = (Ok bp2, st2) ->
  is_dict (_backup_manifest self) ->
  memory = dict_set (dict_set (_backup_manifest self) f1 bp1) f2 bp2
  /\ exists existing,
       manifest_on_disk json_loads (disk st1) mp2 = Some existing
       /\ disk st2 !! mp2 = Some (Json (dict_update existing memory))
       /\ (forall k, dict_get (dict_update existing memory) k =
                     match dict_get memory k with
                     | Some v => Some v
                     | None => dict_get existing k
                     end)
       /\ (f1 <> f2 -> dict_get (dict_update existing memory) f1 = Some bp1).
Proof.
  intros self mp2 memory H1 H2 Hmem. subst self mp2 memory.
  apply create_backup_returns in H1 as (_ & _ & data1 & ex0 & _ & _ & ->).
  apply create_backup_returns in H2 as (_ & _ & data2 & ex1 & _ & Hex1 & ->).
  cbn [manager disk with_manifest _backup_manifest] in *.
  rewrite ?manifest_path_with_manifest in *.
  set (self := manager st0) in *.
  set (mp2 := manifest_path self root2) in *.
  split; [done|]. exists ex1. split; [done|].
  split; [by rewrite lookup_insert_eq|].
  assert (is_dict (dict_set (dict_set (_backup_manifest self) f1 bp1) f2 bp2))
    as Hd by (by do 2 apply dict_set_is_dict).
  split; [intros k; by apply dict_get_update|].
  intros Hne. rewrite dict_get_update by done.
  rewrite dict_get_set_other by done. by rewrite dict_get_set_same.
Qed.

End Backup.

Section BackupExample.

Import Py Says Scanner.

Lemma returned_state {A} (x : result A * state) (a : A) :
  x.1 = Ok a -> x = (Ok a, x.2).
Proof. destruct x as [r st]. simpl. by intros ->. Qed.


(** The theorem at work: a file is backed up, changed, backed up again
    and masked; [restore_all] brings the second content back. *)
Lemma restore_all_restores_latest_backup_witness :
  let first :=
    create_backup Example.abspath_id Example.never_refuses Example.no_json
      "20240101_120000" "/srv/a/application.yml" "/srv/a"
      Example.two_projects in
  let second :=
    create_backup Example.abspath_id Example.never_refuses Example.no_json
      "20240101_120500" "/srv/a/application.yml" "/srv/a"
      (written "/srv/a/application.yml" (Text "password: two") first.2) in
  exists d restored st3,
    disk second.2 !! "/srv/a/.masking_backup/manifest.json" = Some (Json d)
    /\ is_dict d
    /\ dict_get d "/srv/a/application.yml"
       = Some "/srv/a/.masking_backup/application.yml_20240101_120500.backup"
    /\ (forall b, ("/srv/a/application.yml", b) ∈ d ->
                  b = "/srv/a/.masking_backup/application.yml_20240101_120500.backup")
    /\ disk second.2
         !! "/srv/a/.masking_backup/application.yml_20240101_120500.backup"
       = Some (Text "password: two")
    /\ restore_all Example.never_refuses Example.no_json "/srv/a"
         (written "/srv/a/application.yml" (Text "password: ***") second.2)
       = (Ok restored, st3)
    /\ disk st3 !! "/srv/a/application.yml" = Some (Text "password: two")
    /\ "/srv/a/application.yml" ∈ restored.
Proof.
  intros first second.
  refine (proj1 (restore_all_restores_latest_backup Example.abspath_id
            Example.no_json
            Example.never_refuses Example.never_refuses Example.never_refuses
            Example.two_projects first.2 second.2
            "20240101_120000" "20240101_120500"
            "/srv/a/application.yml" "/srv/a"
            "/srv/a/.masking_backup/application.yml_20240101_120000.backup"
            "/srv/a/.masking_backup/application.yml_20240101_120500.backup"
            (Text "password: two") (Text "password: ***") _ _ _ _ _ _ _)).
  - apply returned_state. by vm_compute.
  - apply returned_state. by vm_compute.
  - apply NoDup_nil_2.
  - by vm_compute.
  - by vm_compute.
  - reflexivity.
  - by vm_compute.
Defined.

(** C8, where the claim fails.  The manifest of the project lists, from an
    earlier run, the backup of a file in the directory [sub], and that
    directory has been removed since.  The file [application.yml] is backed
    up twice and then masked; [restore_all] comes to the older entry first,
    finds its backup, and [shutil.copy2] raises [FileNotFoundError] for the
    missing directory: the call ends there, and [application.yml] keeps the
    masked content. *)
Lemma restore_all_stops_at_a_missing_directory :
  let file := "/srv/a/application.yml" in
  let first :=
    create_backup Example.abspath_id Example.never_refuses Example.no_json
      "20240101_120000" file "/srv/a" Example.earlier_run in
  let second :=
    create_backup Example.abspath_id Example.never_refuses Example.no_json
      "20240101_120500" file "/srv/a"
      (written file (Text "password: two") first.2) in
  let masked := written file (Text "password: ***") second.2 in
  let restored :=
    restore_all Example.sub_is_gone Example.no_json "/srv/a" masked in
  first.1
  = Ok "/srv/a/.masking_backup/application.yml_20240101_120000.backup"
  /\ second.1
     = Ok "/srv/a/.masking_backup/application.yml_20240101_120500.backup"
  /\ disk masked
       !! "/srv/a/.masking_backup/application.yml_20240101_120500.backup"
     = Some (Text "password: two")
  /\ restored.1
     = Raise (FileNotFoundError
                "[Errno 2] No such file or directory: '/srv/a/sub/app.yml'")
  /\ disk restored.2 !! file = Some (Text "password: ***").
Proof. by vm_compute. Qed.

(** The theorem at work: the manifest of the second project lists the
    file of the first. *)
Lemma manifest_holds_entries_of_other_roots_witness :
  let first :=
    create_backup Example.abspath_id Example.never_refuses Example.no_json
      "20240101_120000" "/srv/a/application.yml" "/srv/a"
      Example.two_projects in
  let second :=
    create_backup Example.abspath_id Example.never_refuses Example.no_json
      "20240101_120500" "/srv/b/.env" "/srv/b" first.2 in
  disk second.2 !! "/srv/b/.masking_backup/manifest.json"
  = Some (Json
      [("/srv/a/application.yml",
        "/srv/a/.masking_backup/application.yml_20240101_120000.backup");
       ("/srv/b/.env", "/srv/b/.masking_backup/.env_20240101_120500.backup")]).
Proof.
  intros first second.
  destruct (manifest_holds_entries_of_other_roots Example.abspath_id
              Example.no_json Example.never_refuses Example.never_refuses
              Example.two_projects first.2 second.2
              "20240101_120000" "20240101_120500"
              "/srv/a/application.yml" "/srv/a" "/srv/b/.env" "/srv/b"
              "/srv/a/.masking_backup/application.yml_20240101_120000.backup"
              "/srv/b/.masking_backup/.env_20240101_120500.backup")
    as (Hmem & existing & Hex & Hdisk & _).
  - apply returned_state. by vm_compute.
  - apply returned_state. by vm_compute.
  - apply NoDup_nil_2.
  - etrans; [exact Hdisk|]. rewrite Hmem.
    assert (existing = []) as -> by (vm_compute in Hex; congruence).
    reflexivity.
Defined.

End BackupExample.

(* ===================================================================== *)
(** * Masking twice with a format wrapped in stars *)
(* ===================================================================== *)

Section Remask.

Import Py Masker Says.

Lemma split_whole sep x :
  all_chars (fun c => negb (Ascii.eqb c sep)) x = true -> split sep x = [x].
Proof.
  induction x as [|c x IH]; [done|]. simpl.
  intros [Hc Hx]%andb_true_iff. apply negb_true_iff in Hc.
  by rewrite split_cons, Hc, (IH Hx).
Qed.

Lemma split_at_sep sep x rest :
  all_chars (fun c => negb (Ascii.eqb c sep)) x = true ->
  split sep (x +:+ String sep rest) = x :: split sep rest.
Proof.
  induction x as [|c x IH]; simpl.
  - intros _. by rewrite split_cons, Ascii.eqb_refl.
  - intros [Hc Hx]%andb_true_iff. apply negb_true_iff in Hc.
    by rewrite split_cons, Hc, (IH Hx).
Qed.

(** Lines without line feed, joined and split again, are the same lines. *)
Lemma split_join lines :
  lines <> [] ->
  Forall (fun l => all_chars not_newline l = true) lines ->
  split Re.newline (join (String Re.newline "") lines) = lines.
Proof.
  unfold join. induction lines as [|x [|y rest] IH]; intros Hne Hall.
  - done.
  - apply Forall_cons in Hall as [Hx _]. by apply split_whole.
  - apply Forall_cons in Hall as [Hx Hrest].
    change (String.concat (String Re.newline "") (x :: y :: rest))
      with (x +:+ String Re.newline
                    (String.concat (String Re.newline "") (y :: rest))).
    rewrite (split_at_sep _ _ _ Hx). f_equal. by apply IH.
Qed.

Lemma for_each_line_no_items body n lines :
  (forall i line, lines !! i = Some line -> (body (n + i) line).2 = []) ->
  (for_each_line body n lines).2 = [].
Proof.
  revert n. induction lines as [|l lines IH]; intros n H; [done|].
  simpl. pose proof (H 0 l eq_refl) as H0. rewrite Nat.add_0_r in H0.
  destruct (body n l) as [out its]. simpl in H0. subst its.
  assert ((for_each_line body (S n) lines).2 = []) as Hrest.
  { apply IH. intros i line Hi. specialize (H (S i) line Hi).
    by rewrite Nat.add_succ_r in H. }
  by destruct (for_each_line body (S n) lines).
Qed.

Lemma rstrip_by_app p v r :
  all_chars p r = true -> rstrip_by p (v +:+ r) = rstrip_by p v.
Proof.
  intros Hr. induction v as [|c v IH]; simpl.
  - induction r as [|d r IHr]; [done|]. simpl in *.
    apply andb_true_iff in Hr as [Hd Hr]. by rewrite (IHr Hr), Hd.
  - by rewrite IH.
Qed.

Lemma rstrip_by_bare p v :
  (forall c, last_char v = Some c -> p c = false) -> rstrip_by p v = v.
Proof.
  induction v as [|c v IH]; [done|]. intros H. simpl.
  destruct v as [|d v].
  - simpl. by rewrite (H c eq_refl).
  - rewrite IH; [done|]. intros x Hx. by apply H.
Qed.

(** [strip] undoes a wrapping in characters of the class. *)
Lemma strip_by_wrapped p l v r :
  all_chars p l = true -> all_chars p r = true -> bare p v ->
  strip_by p (l +:+ v +:+ r) = v.
Proof.
  intros Hl Hr [Hfirst Hlast]. unfold strip_by.
  rewrite lstrip_by_span.
  destruct v as [|c v].
  - replace (l +:+ "" +:+ r) with ((l +:+ r) +:+ "")
      by (by rewrite app_empty_r).
    rewrite span_app; [done| |done]. by rewrite all_chars_app, Hl, Hr.

  - rewrite (span_app p l _ Hl).
    + cbn [snd]. rewrite (rstrip_by_app p (String c v) r Hr).
      by apply rstrip_by_bare.
    + intros x [= <-]. by apply Hfirst.
Qed.

Lemma for_each_line_lookup_inv body n lines i out :
  (for_each_line body n lines).1 !! i = Some out ->
  exists line, lines !! i = Some line /\ out = (body (n + i) line).1.
Proof.
  intros H. pose proof (lookup_lt_Some _ _ _ H) as Hlt.
  rewrite for_each_line_length in Hlt.
  destruct (lookup_lt_is_Some_2 lines i Hlt) as [line Hline].
  exists line. split; [done|].
  rewrite (for_each_line_lookup body n lines i line Hline) in H.
  by injection H.
Qed.

Lemma split_not_nil sep s : split sep s <> [].
Proof.
  destruct s as [|c s]; [done|]. rewrite split_cons.
  destruct (Ascii.eqb c sep); [done|]. by destruct (split sep s).
Qed.

Lemma startswith_first p c s :
  startswith (String c p) s = true -> first_char s = Some c.
Proof.
  intros H%prefix_split. rewrite H. done.
Qed.

Lemma endswith_last suf s :
  suf <> "" -> endswith suf s = true -> last_char s = last_char suf.
Proof.
  intros Hsuf. induction s as [|c s IH]; unfold endswith; fold endswith.
  - rewrite orb_false_r. intros H%String.eqb_eq. congruence.
  - intros [H%String.eqb_eq|H]%orb_true_iff; [by rewrite H|].
    rewrite <- (IH H). destruct s as [|d s]; [|done].
    unfold endswith in H. rewrite orb_false_r in H.
    apply String.eqb_eq in H. congruence.
Qed.

Lemma starred_unquoted fmt :
  starred fmt -> strip_chars quote_chars (dq +:+ fmt +:+ dq) = fmt.
Proof.
  intros (H1 & H2 & _). unfold strip_chars.
  apply strip_by_wrapped; [done | done |]. split.
  - intros c Hc. rewrite (startswith_first _ _ _ H1) in Hc.
    by injection Hc as <-.
  - intros c Hc. rewrite (endswith_last "***" fmt) in Hc; [|done|done].
    by injection Hc as <-.
Qed.

Lemma env_line_items_any_number self n m line :
  (EnvMasker.mask_line self n line).2 = [] ->
  (EnvMasker.mask_line self m line).2 = [].
Proof.
  unfold EnvMasker.mask_line.
  destruct (is_empty (strip line) || startswith "#" (strip line)); [done|].
  destruct (Re.match_env line) as [[[g1 g2] g3]|]; [|done].
  by destruct (should_mask _ _ _).
Qed.

(** What the env masker writes for a line is not masked again, when the
    format has stars at both ends. *)
Lemma env_line_not_remasked self n m line :
  starred (EnvMasker.mask_format self) ->
  all_chars not_newline line = true ->
  let out := (EnvMasker.mask_line self n line).1 in
  (EnvMasker.mask_line self m out).2 = []
  /\ all_chars not_newline out = true.
Proof.
  intros Hfmt Hline out. subst out.
  destruct (EnvMasker.mask_line self n line).2 as [|it its] eqn:E.
  - rewrite (env_line_kept _ _ _ E). split; [|done].
    by apply (env_line_items_any_number self n).
  - assert (it ∈ (EnvMasker.mask_line self n line).2) as Hin
      by (rewrite E; by left).
    apply env_line_masked in Hin as (g1 & g2 & g3 & Hm & _ & _ & ->).
    cbn [fst].
    pose proof Hm as (Hid & Hg1 & tail & Hl & _)%match_env_spec.
    assert (all_chars not_newline (dq +:+ EnvMasker.mask_format self +:+ dq)
            = true) as Hv.
    { rewrite !all_chars_app. destruct Hfmt as (_ & _ & ->). done. }
    rewrite Hl, !all_chars_app in Hline.
    apply andb_true_iff in Hline as [Hp [Hk _]%andb_true_iff].
    assert (Re.match_env (env_prefix g1 +:+ g2 +:+ "=" +:+ dq +:+
                          EnvMasker.mask_format self +:+ dq)
            = Some (g1, g2, dq +:+ EnvMasker.mask_format self +:+ dq)) as Hm'.
    { destruct Hg1 as [->|(ws & -> & Hws & Hsp)].
      - by apply match_env_complete_plain.
      - cbn [env_prefix]. rewrite app_assoc_s.
        by apply match_env_complete_export. }
    split.
    + rewrite (env_mask_line_matched _ _ _ _ _ _ Hm').
      rewrite (starred_unquoted _ Hfmt).
      destruct Hfmt as (Hs1 & Hs2 & _).
      by rewrite (should_mask_starred _ _ _ Hs1 Hs2).
    + rewrite (all_chars_app _ (env_prefix g1)), Hp.
      rewrite (all_chars_app _ g2), Hk. exact Hv.
Qed.

(** With a mask format that has stars at both ends, such as the default,
    masking the output of the env masker once more records nothing. *)
Lemma env_remask_starred self content :
  starred (EnvMasker.mask_format self) ->
  (EnvMasker.mask_content self (EnvMasker.mask_content self content).1).2 = [].
Proof.
  intros Hfmt. rewrite env_content_items.
  unfold EnvMasker.mask_content at 1.
  destruct (EnvMasker.mask_lines self content) as [rl its] eqn:E. cbn [fst].
  assert (rl = (EnvMasker.mask_lines self content).1) as Hrl by (by rewrite E).
  unfold EnvMasker.mask_lines in Hrl |- *.
  assert (forall i out, rl !! i = Some out ->
            (EnvMasker.mask_line self (1 + i) out).2 = []
            /\ all_chars not_newline out = true) as Hout.
  { intros i out Hi. rewrite Hrl in Hi.
    apply for_each_line_lookup_inv in Hi as (line & Hline & ->).
    apply env_line_not_remasked; [done|].
    by apply (line_of_content content i). }
  rewrite split_join.
  - apply for_each_line_no_items. intros i out Hi. by apply (Hout i).
  - intros ->. apply (split_not_nil Re.newline content).
    apply (f_equal length) in Hrl. rewrite for_each_line_length in Hrl.
    by destruct (split Re.newline content).
  - apply Forall_lookup. intros i out Hi. by apply (Hout i).
Qed.

Lemma starred_trimmed fmt : starred fmt -> strip fmt = fmt.
Proof.
  intros (H1 & H2 & _). unfold strip.
  rewrite <- (app_empty_r fmt) at 1.
  apply (strip_by_wrapped is_space "" fmt ""); [done | done |]. split.
  - intros c Hc. rewrite (startswith_first _ _ _ H1) in Hc.
    by injection Hc as <-.
  - intros c Hc. rewrite (endswith_last "***" fmt) in Hc; [|done|done].
    by injection Hc as <-.
Qed.

Lemma all_chars_strip p q s :
  all_chars p s = true -> all_chars p (strip_by q s) = true.
Proof.
  destruct (strip_by_spec q s) as (l & r & H & _).
  rewrite H at 1. rewrite !all_chars_app.
  by intros [_ [? _]%andb_true_iff]%andb_true_iff.
Qed.

Lemma properties_line_items_any_number self n m line :
  (PropertiesMasker.mask_line self n line).2 = [] ->
  (PropertiesMasker.mask_line self m line).2 = [].
Proof.
  unfold PropertiesMasker.mask_line.
  destruct (is_empty (strip line) || startswith "#" (strip line)
            || startswith "!" (strip line)); [done|].
  destruct (Re.match_properties line) as [[g1 g2]|]; [|done].
  by destruct (should_mask _ _ _).
Qed.

Lemma written_separator_cases line :
  exists sep, written_separator line = String sep "" /\ Re.is_sep sep = true.
Proof.
  unfold written_separator. destruct (contains "=" line).
  - by exists "="%char.
  - by exists ":"%char.
Qed.

(** What the properties masker writes for a line is not masked again, when
    the format has stars at both ends. *)
Lemma properties_line_not_remasked self n m line :
  starred (PropertiesMasker.mask_format self) ->
  all_chars not_newline line = true ->
  let out := (PropertiesMasker.mask_line self n line).1 in
  (PropertiesMasker.mask_line self m out).2 = []
  /\ all_chars not_newline out = true.
Proof.
  intros Hfmt Hline out. subst out.
  destruct (PropertiesMasker.mask_line self n line).2 as [|it its] eqn:E.
  - rewrite (properties_line_kept _ _ _ E). split; [|done].
    by apply (properties_line_items_any_number self n).
  - assert (it ∈ (PropertiesMasker.mask_line self n line).2) as Hin
      by (rewrite E; by left).
    apply properties_line_masked in Hin as (g1 & g2 & Hm & _ & _ & ->).
    cbn [fst].
    apply match_properties_spec in Hm as (sep0 & tail & Hl & _ & _ & Hg1 & _).
    destruct (written_separator_cases line) as (sep & -> & Hsep).
    set (fmt := PropertiesMasker.mask_format self) in *.
    assert (all_chars not_newline (strip g1) = true) as Hk.
    { apply all_chars_strip. rewrite Hl, all_chars_app in Hline.
      by apply andb_true_iff in Hline as [? _]. }
    assert (all_chars not_newline fmt = true) as Hf by apply Hfmt.
    split.
    + unfold PropertiesMasker.mask_line.
      destruct (is_empty _ || _ || _); [done|].
      destruct (strip g1) as [|c key] eqn:Ekey.
      * simpl. unfold Re.match_properties. simpl.
        apply negb_false_iff in Hsep. by rewrite Hsep.
      * rewrite <- Ekey. change (strip g1 +:+ String sep "" +:+ fmt)
          with (strip g1 +:+ String sep fmt).
        rewrite match_properties_complete; try done.
        -- rewrite (starred_trimmed _ Hfmt).
           destruct Hfmt as (Hs1 & Hs2 & _). fold fmt.
           by rewrite (should_mask_starred _ _ _ Hs1 Hs2).
        -- by rewrite Ekey.
        -- by apply all_chars_strip.
    + rewrite !all_chars_app, Hk. simpl. rewrite Hf.
      destruct (Ascii.eqb_spec sep Re.newline) as [->|Hne]; [done|].
      rewrite !andb_true_r. by apply negb_true_iff, Ascii.eqb_neq.
Qed.

(** With a mask format that has stars at both ends, such as the default,
    masking the output of the properties masker once more records
    nothing. *)
Lemma properties_remask_starred self content :
  starred (PropertiesMasker.mask_format self) ->
  (PropertiesMasker.mask_content self
     (PropertiesMasker.mask_content self content).1).2 = [].
Proof.
  intros Hfmt. rewrite properties_content_items.
  unfold PropertiesMasker.mask_content at 1.
  destruct (PropertiesMasker.mask_lines self content) as [rl its] eqn:E.
  cbn [fst].
  assert (rl = (PropertiesMasker.mask_lines self content).1) as Hrl
    by (by rewrite E).
  unfold PropertiesMasker.mask_lines in Hrl |- *.
  assert (forall i out, rl !! i = Some out ->
            (PropertiesMasker.mask_line self (1 + i) out).2 = []
            /\ all_chars not_newline out = true) as Hout.
  { intros i out Hi. rewrite Hrl in Hi.
    apply for_each_line_lookup_inv in Hi as (line & Hline & ->).
    apply properties_line_not_remasked; [done|].
    by apply (line_of_content content i). }
  rewrite split_join.
  - apply for_each_line_no_items. intros i out Hi. by apply (Hout i).
  - intros ->. apply (split_not_nil Re.newline content).
    apply (f_equal length) in Hrl. rewrite for_each_line_length in Hrl.
    by destruct (split Re.newline content).
  - apply Forall_lookup. intros i out Hi. by apply (Hout i).
Qed.

End Remask.

(* ===================================================================== *)
(** * What the three maskers have in common *)
(* ===================================================================== *)

Section Contract.

Import Py Masker Says.

Lemma in_line_order_nil : in_line_order [].
Proof. intros j k a b Ha. by rewrite lookup_nil in Ha. Qed.

Lemma in_line_order_cons a items :
  (forall b, b ∈ items -> item_line a < item_line b) ->
  in_line_order items -> in_line_order (a :: items).
Proof.
  intros Hlt Hord j k x y Hx Hy Hjk.
  destruct j as [|j], k as [|k]; simpl in *; try lia.
  - injection Hx as <-. apply Hlt. by eapply list_elem_of_lookup_2.
  - eapply (Hord j k); eauto with lia.
Qed.

Lemma for_each_line_by_line body n lines :
  one_item_body body ->
  let out := for_each_line body n lines in
  length out.1 = length lines
  /\ length out.2 <= length lines
  /\ (forall it, it ∈ out.2 -> n <= item_line it < n + length lines)
  /\ in_line_order out.2
  /\ (forall i line,
        lines !! i = Some line ->
        (forall it, it ∈ out.2 -> item_line it <> n + i) ->
        out.1 !! i = Some line).
Proof.
  intros Hbody. revert n.
  induction lines as [|l lines IH]; intros n; cbn [for_each_line].
  - cbn. split; [done|]. split; [done|].
    split; [intros it Hit; by apply elem_of_nil in Hit|].
    split; [apply in_line_order_nil|]. intros i line Hi. by rewrite lookup_nil in Hi.
  - specialize (IH (S n)). cbv zeta in IH.
    destruct (for_each_line body (S n) lines) as [outs items] eqn:E.
    cbn [fst snd] in IH. destruct IH as (Hlen & Hcount & Hrange & Hord & Hkeep).
    pose proof (Hbody n l) as Hb.
    destruct (body n l) as [o its] eqn:Eb. cbn [fst snd] in *.
    split; [simpl; congruence|].
    cbn [length].
    destruct Hb as [[-> ->] | (it & -> & Hn)].
    + cbn [app]. split; [lia|]. split.
      { intros it Hit. apply Hrange in Hit. lia. }
      split; [done|].
      intros [|i] line Hi Hno; cbn in *.
      * by injection Hi as ->.
      * apply Hkeep; [done|]. intros it Hit. specialize (Hno it Hit). lia.
    + cbn [app length]. split; [lia|]. split.
      { intros x Hx. apply elem_of_cons in Hx as [->|Hx]; [lia|].
        apply Hrange in Hx. lia. }
      split.
      { apply in_line_order_cons; [|done].
        intros b Hb. apply Hrange in Hb. lia. }
      intros [|i] line Hi Hno; cbn in *.
      * exfalso. apply (Hno it); [apply elem_of_cons; by left | lia].
      * apply Hkeep; [done|]. intros x Hx.
        specialize (Hno x). rewrite elem_of_cons in Hno.
        specialize (Hno (or_intror Hx)). lia.
Qed.

Lemma properties_one_item self : one_item_body (PropertiesMasker.mask_line self).
Proof.
  intros m line. unfold PropertiesMasker.mask_line. cbv zeta.
  destruct (_ || _); [by left|].
  destruct (Re.match_properties line) as [[g1 g2]|]; [|by left].
  destruct (should_mask _ _ _); [|by left].
  right. eexists. split; [reflexivity|done].
Qed.

Lemma env_one_item self : one_item_body (EnvMasker.mask_line self).
Proof.
  intros m line. unfold EnvMasker.mask_line. cbv zeta.
  destruct (_ || _); [by left|].
  destruct (Re.match_env line) as [[[g1 g2] g3]|]; [|by left].
  destruct (should_mask _ _ _); [|by left].
  right. eexists. split; [reflexivity|done].
Qed.

Lemma yaml_one_item self m line ks ids :
  let r := YamlMasker.mask_line self m line ks ids in
  (r.1.2 = [] /\ r.1.1 = line)
  \/ exists it, r.1.2 = [it] /\ item_line it = m.
Proof.
  unfold YamlMasker.mask_line. cbv zeta.
  destruct (_ || _); [by left|].
  destruct (YamlMasker.adjust _ _ _ _) as [ks' ids'].
  destruct (_ && _); [|by left].
  destruct (_ && _); [|by left].
  destruct (should_mask _ _ _); [|by left].
  right. eexists. split; [reflexivity|done].
Qed.

Lemma yaml_walk_by_line self n lines ks ids :
  let out := YamlMasker.walk_lines self n lines ks ids in
  length out.1 = length lines
  /\ length out.2 <= length lines
  /\ (forall it, it ∈ out.2 -> n <= item_line it < n + length lines)
  /\ in_line_order out.2
  /\ (forall i line,
        lines !! i = Some line ->
        (forall it, it ∈ out.2 -> item_line it <> n + i) ->
        out.1 !! i = Some line).
Proof.
  revert n ks ids.
  induction lines as [|l lines IH]; intros n ks ids; cbn [YamlMasker.walk_lines].
  - cbn. split; [done|]. split; [done|].
    split; [intros it Hit; by apply elem_of_nil in Hit|].
    split; [apply in_line_order_nil|]. intros i line Hi. by rewrite lookup_nil in Hi.
  - pose proof (yaml_one_item self n l ks ids) as Hb. cbv zeta in Hb.
    destruct (YamlMasker.mask_line self n l ks ids) as [[o its] [ks' ids']] eqn:Eb.
    specialize (IH (S n) ks' ids'). cbv zeta in IH.
    destruct (YamlMasker.walk_lines self (S n) lines ks' ids') as [outs items] eqn:E.
    cbn [fst snd] in *. destruct IH as (Hlen & Hcount & Hrange & Hord & Hkeep).
    split; [simpl; congruence|].
    cbn [length].
    destruct Hb as [[-> ->] | (it & -> & Hn)].
    + cbn [app]. split; [lia|]. split.
      { intros it Hit. apply Hrange in Hit. lia. }
      split; [done|].
      intros [|i] line Hi Hno; cbn in *.
      * by injection Hi as ->.
      * apply Hkeep; [done|]. intros it Hit. specialize (Hno it Hit). lia.
    + cbn [app length]. split; [lia|]. split.
      { intros x Hx. apply elem_of_cons in Hx as [->|Hx]; [lia|].
        apply Hrange in Hx. lia. }
      split.
      { apply in_line_order_cons; [|done].
        intros b Hb. apply Hrange in Hb. lia. }
      intros [|i] line Hi Hno; cbn in *.
      * exfalso. apply (Hno it); [apply elem_of_cons; by left | lia].
      * apply Hkeep; [done|]. intros x Hx.
        specialize (Hno x). rewrite elem_of_cons in Hno.
        specialize (Hno (or_intror Hx)). lia.
Qed.

Lemma by_line_from_one lines out :
  (length out.1 = length lines
   /\ length out.2 <= length lines
   /\ (forall it, it ∈ out.2 -> 1 <= item_line it < 1 + length lines)
   /\ in_line_order out.2
   /\ (forall i line,
         lines !! i = Some line ->
         (forall it, it ∈ out.2 -> item_line it <> 1 + i) ->
         out.1 !! i = Some line)) ->
  line_by_line lines out.
Proof.
  intros (H1 & H0 & H2 & H3 & H4). split_and!; try done.
  intros it Hit. apply H2 in Hit. lia.
Qed.

(** X1. The three maskers work line by line.  For every content the loop
    writes as many lines as the content has; it records at most one item for
    a line, so there are no more items than lines; the items carry the
    number of their line, counted from 1, and come in increasing order; and
    a line that no item names is written as it was read. *)
Theorem maskers_work_line_by_line (content : string) :
  (forall self : YamlMasker.t,
     line_by_line (split Re.newline content) (YamlMasker.mask_lines self content))
  /\ (forall self : PropertiesMasker.t,
        line_by_line (split Re.newline content)
          (PropertiesMasker.mask_lines self content))
  /\ (forall self : EnvMasker.t,
        line_by_line (split Re.newline content)
          (EnvMasker.mask_lines self content)).
Proof.
  split; [|split]; intros self; apply by_line_from_one.
  - apply yaml_walk_by_line.
  - apply for_each_line_by_line, properties_one_item.
  - apply for_each_line_by_line, env_one_item.
Qed.


Lemma join_split s : join (String Re.newline "") (split Re.newline s) = s.
Proof.
  unfold join. induction s as [|c s IH]; [done|].
  rewrite split_cons.
  pose proof (split_not_nil Re.newline s) as Hne.
  destruct (split Re.newline s) as [|hd tl] eqn:E; [done|].
  destruct (Ascii.eqb c Re.newline) eqn:Ec.
  - apply Ascii.eqb_eq in Ec as ->.
    change (String.concat (String Re.newline "") ("" :: hd :: tl))
      with ("" +:+ String Re.newline "" +:+ String.concat (String Re.newline "") (hd :: tl)).
    by rewrite IH.
  - destruct tl as [|t tl].
    + cbn in *. by rewrite IH.
    + change (String.concat (String Re.newline "") (String c hd :: t :: tl))
        with (String c (hd +:+ String Re.newline ""
                        +:+ String.concat (String Re.newline "") (t :: tl))).
      change (String.concat (String Re.newline "") (hd :: t :: tl))
        with (hd +:+ String Re.newline ""
              +:+ String.concat (String Re.newline "") (t :: tl)) in IH.
      by rewrite IH.
Qed.

Lemma unchanged_lines lines out :
  line_by_line lines out -> out.2 = [] -> out.1 = lines.
Proof.
  intros (Hlen & _ & _ & _ & Hkeep) Hnil.
  apply list_eq. intros i.
  destruct (lines !! i) as [line|] eqn:E.
  - apply Hkeep; [done|]. rewrite Hnil. intros it Hit. by apply elem_of_nil in Hit.
  - apply lookup_ge_None. apply lookup_ge_None in E. lia.
Qed.

Lemma yaml_content_lines self content :
  (YamlMasker.mask_content self content).1
  = join (String Re.newline "") (YamlMasker.mask_lines self content).1.
Proof.
  unfold YamlMasker.mask_content. by destruct (YamlMasker.mask_lines self content).
Qed.

Lemma properties_content_lines self content :
  (PropertiesMasker.mask_content self content).1
  = join (String Re.newline "") (PropertiesMasker.mask_lines self content).1.
Proof.
  unfold PropertiesMasker.mask_content.
  by destruct (PropertiesMasker.mask_lines self content).
Qed.

Lemma env_content_lines self content :
  (EnvMasker.mask_content self content).1
  = join (String Re.newline "") (EnvMasker.mask_lines self content).1.
Proof.
  unfold EnvMasker.mask_content. by destruct (EnvMasker.mask_lines self content).
Qed.

Lemma yaml_no_items_identity (self : YamlMasker.t) content :
  (YamlMasker.mask_content self content).2 = [] ->
  (YamlMasker.mask_content self content).1 = content.
Proof.
  rewrite yaml_content_items, yaml_content_lines. intros Hnil.
  rewrite (unchanged_lines (split Re.newline content)); [apply join_split| |done].
  apply by_line_from_one, yaml_walk_by_line.
Qed.

Lemma properties_no_items_identity (self : PropertiesMasker.t) content :
  (PropertiesMasker.mask_content self content).2 = [] ->
  (PropertiesMasker.mask_content self content).1 = content.
Proof.
  rewrite properties_content_items, properties_content_lines. intros Hnil.
  rewrite (unchanged_lines (split Re.newline content)); [apply join_split| |done].
  apply by_line_from_one, for_each_line_by_line, properties_one_item.
Qed.

Lemma env_no_items_identity (self : EnvMasker.t) content :
  (EnvMasker.mask_content self content).2 = [] ->
  (EnvMasker.mask_content self content).1 = content.
Proof.
  rewrite env_content_items, env_content_lines. intros Hnil.
  rewrite (unchanged_lines (split Re.newline content)); [apply join_split| |done].
  apply by_line_from_one, for_each_line_by_line, env_one_item.
Qed.

Lemma no_items_when_nothing_sensitive (items : list MaskingItem) m :
  nothing_sensitive m ->
  (forall it, it ∈ items ->
     should_mask m (item_key it) (VStr (item_original_value it)) = true) ->
  items = [].
Proof.
  intros Hno Hacc. destruct items as [|it items]; [done|].
  specialize (Hacc it). rewrite Hno in Hacc.
  discriminate Hacc. apply elem_of_cons. by left.
Qed.

(** X2. Under a matcher for which [should_mask] is false for every key and
    every value, each of the three maskers returns the content as it was
    given, with no item. *)
Theorem nothing_sensitive_nothing_masked
  (m : SensitivePatternMatcher) (fmt content : string) :
  nothing_sensitive m ->
  YamlMasker.mask_content
    {| YamlMasker.matcher := m; YamlMasker.mask_format := fmt |} content
  = (content, [])
  /\ PropertiesMasker.mask_content
       {| PropertiesMasker.matcher := m; PropertiesMasker.mask_format := fmt |}
       content
     = (content, [])
  /\ EnvMasker.mask_content
       {| EnvMasker.matcher := m; EnvMasker.mask_format := fmt |} content
     = (content, []).
Proof.
  intros Hno. split; [|split].
  - set (self := {| YamlMasker.matcher := m; YamlMasker.mask_format := fmt |}).
    assert ((YamlMasker.mask_content self content).2 = []) as Hnil.
    { apply (no_items_when_nothing_sensitive _ m Hno). intros it Hit.
      rewrite yaml_content_items in Hit.
      apply (yaml_items_accepted self content it Hit). }
    pose proof (yaml_no_items_identity self content Hnil).
    destruct (YamlMasker.mask_content self content); simpl in *; congruence.
  - set (self := {| PropertiesMasker.matcher := m;
                    PropertiesMasker.mask_format := fmt |}).
    assert ((PropertiesMasker.mask_content self content).2 = []) as Hnil.
    { apply (no_items_when_nothing_sensitive _ m Hno). intros it Hit.
      rewrite properties_content_items in Hit.
      apply (properties_items_accepted self content it Hit). }
    pose proof (properties_no_items_identity self content Hnil).
    destruct (PropertiesMasker.mask_content self content); simpl in *; congruence.
  - set (self := {| EnvMasker.matcher := m; EnvMasker.mask_format := fmt |}).
    assert ((EnvMasker.mask_content self content).2 = []) as Hnil.
    { apply (no_items_when_nothing_sensitive _ m Hno). intros it Hit.
      rewrite env_content_items in Hit.
      apply (env_items_accepted self content it Hit). }
    pose proof (env_no_items_identity self content Hnil).
    destruct (EnvMasker.mask_content self content); simpl in *; congruence.
Qed.

(** The theorem at work: without patterns an env line with a token is left alone. *)
Lemma nothing_sensitive_nothing_masked_witness :
  EnvMasker.mask_content
    {| EnvMasker.matcher := Example.keys_matcher [];
       EnvMasker.mask_format := "***MASKED***" |} "TOKEN=abc123"
  = ("TOKEN=abc123", []).
Proof.
  apply (nothing_sensitive_nothing_masked (Example.keys_matcher [])
           "***MASKED***" "TOKEN=abc123").
  intros key v. unfold should_mask. destruct v as [|c v]; [reflexivity|].
  destruct (_ && _); reflexivity.
Defined.


Lemma all_chars_drop p n s : all_chars p s = true -> all_chars p (drop n s) = true.
Proof.
  revert s. induction n as [|n IH]; intros [|c s]; simpl; try done.
  intros [_ H]%andb_true_iff. by apply IH.
Qed.

Lemma replace_first_chars p old new s :
  all_chars p s = true -> all_chars p new = true ->
  all_chars p (replace_first old new s) = true.
Proof.
  intros Hs Hnew. unfold replace_first.
  induction s as [|c s IH]; rewrite replace_first_go_eq.
  - destruct (String.prefix old ""); [|done].
    rewrite all_chars_app, Hnew. by destruct (len old).
  - destruct (String.prefix old (String c s)).
    + rewrite all_chars_app, Hnew. by apply all_chars_drop.
    + simpl in *. apply andb_true_iff in Hs as [-> Hs]. by apply IH.
Qed.

Lemma dq_no_newline : all_chars not_newline dq = true.
Proof. reflexivity. Qed.

Lemma yaml_line_no_newline self n line ks ids :
  all_chars not_newline (YamlMasker.mask_format self) = true ->
  all_chars not_newline line = true ->
  all_chars not_newline (YamlMasker.mask_line self n line ks ids).1.1 = true.
Proof.
  intros Hfmt Hline.
  destruct (yaml_one_item self n line ks ids) as [[_ ->]|(it & Hit & _)]; [done|].
  assert (it ∈ (YamlMasker.mask_line self n line ks ids).1.2) as Hin
    by (rewrite Hit; apply elem_of_cons; by left).
  apply yaml_line_masked in Hin as (k & _ & _ & _ & _ & ->). cbn [fst].
  apply replace_first_chars; [done|].
  by rewrite !all_chars_app, Hfmt, dq_no_newline.
Qed.

Lemma properties_line_no_newline self n line :
  all_chars not_newline (PropertiesMasker.mask_format self) = true ->
  all_chars not_newline line = true ->
  all_chars not_newline (PropertiesMasker.mask_line self n line).1 = true.
Proof.
  intros Hfmt Hline.
  destruct (properties_one_item self n line) as [[_ ->]|(it & Hit & _)]; [done|].
  assert (it ∈ (PropertiesMasker.mask_line self n line).2) as Hin
    by (rewrite Hit; apply elem_of_cons; by left).
  apply properties_line_masked in Hin as (g1 & g2 & Hm & _ & _ & ->). cbn [fst].
  apply match_properties_spec in Hm as (sep & tail & Hl & _).
  rewrite Hl, all_chars_app in Hline. apply andb_true_iff in Hline as [Hg1 _].
  rewrite !all_chars_app, Hfmt. rewrite andb_true_r.
  apply andb_true_iff. split; [by apply all_chars_strip|].
  unfold written_separator. by destruct (contains "=" line).
Qed.

Lemma env_line_no_newline self n line :
  all_chars not_newline (EnvMasker.mask_format self) = true ->
  all_chars not_newline line = true ->
  all_chars not_newline (EnvMasker.mask_line self n line).1 = true.
Proof.
  intros Hfmt Hline.
  destruct (env_one_item self n line) as [[_ ->]|(it & Hit & _)]; [done|].
  assert (it ∈ (EnvMasker.mask_line self n line).2) as Hin
    by (rewrite Hit; apply elem_of_cons; by left).
  apply env_line_masked in Hin as (g1 & g2 & g3 & Hm & _ & _ & ->). cbn [fst].
  apply match_env_spec in Hm as (_ & _ & tail & Hl & _).
  rewrite Hl, !all_chars_app in Hline.
  apply andb_true_iff in Hline as [Hp Hline].
  apply andb_true_iff in Hline as [Hk _].
  by rewrite !all_chars_app, Hp, Hk, Hfmt, dq_no_newline.
Qed.

Lemma for_each_line_no_newline body n lines :
  (forall m line, all_chars not_newline line = true ->
                  all_chars not_newline (body m line).1 = true) ->
  Forall (fun l => all_chars not_newline l = true) lines ->
  Forall (fun l => all_chars not_newline l = true) (for_each_line body n lines).1.
Proof.
  intros Hbody. revert n.
  induction lines as [|l lines IH]; intros n Hall; cbn [for_each_line].
  - constructor.
  - apply Forall_cons in Hall as [Hl Hall].
    specialize (IH (S n) Hall). specialize (Hbody n l Hl).
    destruct (body n l), (for_each_line body (S n) lines).
    by constructor.
Qed.

Lemma yaml_walk_no_newline self n lines ks ids :
  all_chars not_newline (YamlMasker.mask_format self) = true ->
  Forall (fun l => all_chars not_newline l = true) lines ->
  Forall (fun l => all_chars not_newline l = true)
    (YamlMasker.walk_lines self n lines ks ids).1.
Proof.
  intros Hfmt. revert n ks ids.
  induction lines as [|l lines IH]; intros n ks ids Hall;
    cbn [YamlMasker.walk_lines].
  - constructor.
  - apply Forall_cons in Hall as [Hl Hall].
    pose proof (yaml_line_no_newline self n l ks ids Hfmt Hl) as Ho.
    destruct (YamlMasker.mask_line self n l ks ids) as [[o its] [ks' ids']].
    specialize (IH (S n) ks' ids' Hall).
    destruct (YamlMasker.walk_lines self (S n) lines ks' ids').
    by constructor.
Qed.

Lemma lines_of_content content :
  Forall (fun l => all_chars not_newline l = true) (split Re.newline content).
Proof.
  apply Forall_forall. intros l Hl.
  apply list_elem_of_lookup in Hl as [i Hi]. by eapply line_of_content.
Qed.

Lemma not_nil_of_length {A} (xs ys : list A) :
  length xs = length ys -> ys <> [] -> xs <> [].
Proof. intros Hlen Hne ->. destruct ys; [done|discriminate]. Qed.

(** X3. When the mask format holds no line feed, the text that
    [mask_content] returns splits into the very lines that the loop wrote:
    the masked text has as many lines as the content, and line by line it is
    [result_lines].  (The loop joins [result_lines] with line feeds, so a
    line feed inside the mask format would add lines.) *)
Theorem masked_text_has_the_written_lines
  (fmt : string) (m : SensitivePatternMatcher) (content : string) :
  all_chars not_newline fmt = true ->
  let yaml := {| YamlMasker.matcher := m; YamlMasker.mask_format := fmt |} in
  let properties :=
    {| PropertiesMasker.matcher := m; PropertiesMasker.mask_format := fmt |} in
  let env := {| EnvMasker.matcher := m; EnvMasker.mask_format := fmt |} in
  (split Re.newline (YamlMasker.mask_content yaml content).1
   = (YamlMasker.mask_lines yaml content).1
   /\ split Re.newline (PropertiesMasker.mask_content properties content).1
      = (PropertiesMasker.mask_lines properties content).1
   /\ split Re.newline (EnvMasker.mask_content env content).1
      = (EnvMasker.mask_lines env content).1)
  /\ length (split Re.newline (YamlMasker.mask_content yaml content).1)
     = length (split Re.newline content)
  /\ length (split Re.newline (PropertiesMasker.mask_content properties content).1)
     = length (split Re.newline content)
  /\ length (split Re.newline (EnvMasker.mask_content env content).1)
     = length (split Re.newline content).
Proof.
  intros Hfmt yaml properties env.
  pose proof (split_not_nil Re.newline content) as Hne.
  pose proof (lines_of_content content) as Hall.
  assert (length (YamlMasker.mask_lines yaml content).1
          = length (split Re.newline content)) as Hy
    by apply yaml_walk_by_line.
  assert (length (PropertiesMasker.mask_lines properties content).1
          = length (split Re.newline content)) as Hp
    by apply for_each_line_length.
  assert (length (EnvMasker.mask_lines env content).1
          = length (split Re.newline content)) as He
    by apply for_each_line_length.
  assert (split Re.newline (YamlMasker.mask_content yaml content).1
          = (YamlMasker.mask_lines yaml content).1) as Ey.
  { rewrite yaml_content_lines. apply split_join.
    - by apply (not_nil_of_length _ _ Hy).
    - by apply yaml_walk_no_newline. }
  assert (split Re.newline (PropertiesMasker.mask_content properties content).1
          = (PropertiesMasker.mask_lines properties content).1) as Ep.
  { rewrite properties_content_lines. apply split_join.
    - by apply (not_nil_of_length _ _ Hp).
    - apply for_each_line_no_newline; [|done].
      intros k line. by apply properties_line_no_newline. }
  assert (split Re.newline (EnvMasker.mask_content env content).1
          = (EnvMasker.mask_lines env content).1) as Ee.
  { rewrite env_content_lines. apply split_join.
    - by apply (not_nil_of_length _ _ He).
    - apply for_each_line_no_newline; [|done].
      intros k line. by apply env_line_no_newline. }
  rewrite Ey, Ep, Ee. done.
Qed.

(** The theorem at work: a comment and a masked line, two lines in and two lines out. *)
Lemma masked_text_has_the_written_lines_witness :
  length (split Re.newline
            (EnvMasker.mask_content Example.env_masker
               ("# secrets" +:+ Example.nl +:+ "TOKEN=abc123")).1)
  = length (split Re.newline ("# secrets" +:+ Example.nl +:+ "TOKEN=abc123")).
Proof.
  apply (masked_text_has_the_written_lines "***MASKED***"
           Example.password_matcher
           ("# secrets" +:+ Example.nl +:+ "TOKEN=abc123")).
  vm_compute. reflexivity.
Defined.


Lemma for_each_line_passed body lines i line :
  one_item_body body ->
  lines !! i = Some line ->
  (body (S i) line).2 = [] ->
  passed_over (for_each_line body 1 lines) i line.
Proof.
  intros Hbody Hi Hnil. split.
  - rewrite (for_each_line_lookup body 1 lines i line Hi). f_equal.
    change (1 + i) with (S i).
    destruct (Hbody (S i) line) as [[_ ->]|(it & Hit & _)]; [done|congruence].
  - intros it Hit Hline.
    apply for_each_line_items in Hit as (j & l & Hj & Hit).
    destruct (Hbody (1 + j) l) as [[Hn _]|(x & Hx & Hxl)].
    + rewrite Hn in Hit. by apply elem_of_nil in Hit.
    + rewrite Hx in Hit. apply list_elem_of_singleton in Hit as ->.
      assert (j = i) as -> by lia.
      assert (l = line) as -> by congruence.
      change (1 + i) with (S i) in Hx. congruence.
Qed.

Lemma yaml_walk_passed self lines i line :
  lines !! i = Some line ->
  (forall ks ids, (YamlMasker.mask_line self (S i) line ks ids).1.2 = []) ->
  passed_over (YamlMasker.walk_lines self 1 lines [] [0]) i line.
Proof.
  intros Hi Hnil.
  destruct (yaml_walk_lookup self 1 lines [] [0] i line Hi)
    as (ks & ids & Hout & Hitems).
  change (1 + i) with (S i) in *. split.
  - rewrite Hout. f_equal.
    destruct (yaml_one_item self (S i) line ks ids) as [[_ ->]|(it & Hit & _)];
      [done|]. by rewrite Hnil in Hit.
  - intros it Hit Hline. specialize (Hitems it Hit Hline).
    rewrite Hnil in Hitems. by apply elem_of_nil in Hitems.
Qed.

(** X4. A line that is blank or that starts, after white space, with [#]
    is written as it was read by every masker, and no item is recorded for
    it; the properties masker treats a line that starts with [!] in the same
    way. *)
Theorem comments_and_blank_lines_pass_through
  (content : string) (i : nat) (line : string) :
  split Re.newline content !! i = Some line ->
  (blank_or_comment line = true ->
   (forall self : YamlMasker.t,
      passed_over (YamlMasker.mask_lines self content) i line)
   /\ (forall self : EnvMasker.t,
         passed_over (EnvMasker.mask_lines self content) i line))
  /\ (blank_or_comment line || startswith "!" (strip line) = true ->
      forall self : PropertiesMasker.t,
        passed_over (PropertiesMasker.mask_lines self content) i line).
Proof.
  intros Hi. split.
  - intros Hskip. split; intros self.
    + apply yaml_walk_passed; [done|]. intros ks ids.
      unfold YamlMasker.mask_line. unfold blank_or_comment in Hskip.
      by rewrite Hskip.
    + apply for_each_line_passed; [apply env_one_item|done|].
      unfold EnvMasker.mask_line. cbv zeta. unfold blank_or_comment in Hskip.
      by rewrite Hskip.
  - intros Hskip self.
    apply for_each_line_passed; [apply properties_one_item|done|].
    unfold PropertiesMasker.mask_line. cbv zeta. unfold blank_or_comment in Hskip.
    by rewrite Hskip.
Qed.

(** The theorem at work: a comment of a properties file that starts with [!]. *)
Lemma comments_and_blank_lines_pass_through_witness :
  passed_over
    (PropertiesMasker.mask_lines Example.properties_masker
       ("! password=x" +:+ Example.nl +:+ "db.password=s3cr3t")) 0
    "! password=x".
Proof.
  apply (comments_and_blank_lines_pass_through
           ("! password=x" +:+ Example.nl +:+ "db.password=s3cr3t")
           0 "! password=x").
  - vm_compute. reflexivity.
  - vm_compute. reflexivity.
Defined.

Lemma contains_suffix sub a b :
  contains sub b = true -> contains sub (a +:+ b) = true.
Proof.
  intros Hb. induction a as [|c a IH]; [done|].
  cbn [String.append]. unfold contains in *. fold contains in *.
  rewrite IH. apply orb_true_r.
Qed.

Lemma contains_lstrip sub line :
  contains sub line = false -> contains sub (lstrip line) = false.
Proof.
  intros Hno. destruct (contains sub (lstrip line)) eqn:E; [|done].
  rewrite (indentation_lstrip line), (contains_suffix _ _ _ E) in Hno.
  discriminate.
Qed.

(** X5. The YAML masker writes back unchanged, and records no item for,
    every line that starts with a dash after its indentation (a sequence
    item, whatever follows the dash), every line without a colon, and every
    key whose value part is empty or is a comment. *)
Theorem yaml_passes_over_sequence_items_and_parents
  (self : YamlMasker.t) (content : string) (i : nat) (line : string) :
  split Re.newline content !! i = Some line ->
  startswith "-" (lstrip line) = true
  \/ contains ":" line = false
  \/ yaml_value_part line = ""
  \/ startswith "#" (yaml_value_part line) = true ->
  passed_over (YamlMasker.mask_lines self content) i line.
Proof.
  intros Hi Hcase. apply yaml_walk_passed; [done|]. intros ks ids.
  unfold YamlMasker.mask_line. cbv zeta.
  destruct (_ || _); [done|].
  destruct (YamlMasker.adjust _ _ _ _) as [ks' ids'].
  destruct Hcase as [H|[H|[H|H]]].
  - rewrite H. by rewrite andb_false_r.
  - by rewrite (contains_lstrip _ _ H).
  - destruct (contains ":" (lstrip line)) eqn:Ec; [|done].
    destruct (negb (startswith "-" (lstrip line))); [|done]. cbn [andb].
    fold (yaml_value_part line). by rewrite H.
  - destruct (contains ":" (lstrip line)) eqn:Ec; [|done].
    destruct (negb (startswith "-" (lstrip line))); [|done]. cbn [andb].
    fold (yaml_value_part line). rewrite H. by rewrite andb_false_r.
Qed.

(** The theorem at work: a password in a sequence item is not masked. *)
Lemma yaml_passes_over_sequence_items_and_parents_witness :
  passed_over
    (YamlMasker.mask_lines Example.yaml_masker
       ("users:" +:+ Example.nl +:+ "  - password: hunter2")) 1
    "  - password: hunter2".
Proof.
  apply (yaml_passes_over_sequence_items_and_parents Example.yaml_masker
           ("users:" +:+ Example.nl +:+ "  - password: hunter2")
           1 "  - password: hunter2").
  - vm_compute. reflexivity.
  - left. vm_compute. reflexivity.
Defined.

(** X6. The env masker matches its pattern against the line as it stands,
    not against the trimmed line: a line whose first character is no letter
    and no underscore, such as an indented assignment, is written back
    unchanged and no item is recorded for it, whatever its key. *)
Theorem env_passes_over_lines_not_starting_with_a_name
  (self : EnvMasker.t) (content : string) (i : nat) (line : string) (c : ascii) :
  split Re.newline content !! i = Some line ->
  first_char line = Some c -> Re.is_alpha_ c = false ->
  passed_over (EnvMasker.mask_lines self content) i line.
Proof.
  intros Hi Hc Hna.
  apply for_each_line_passed; [apply env_one_item|done|].
  unfold EnvMasker.mask_line. cbv zeta.
  destruct (_ || _); [done|].
  destruct (Re.match_env line) as [g|] eqn:Em; [|done].
  apply match_env_first in Em as (c' & Hc' & Ha). congruence.
Qed.

(** The theorem at work: an indented assignment is not masked. *)
Lemma env_passes_over_lines_not_starting_with_a_name_witness :
  passed_over
    (EnvMasker.mask_lines Example.env_masker
       ("TOKEN=abc123" +:+ Example.nl +:+ "  PASSWORD=hunter2")) 1
    "  PASSWORD=hunter2".
Proof.
  apply (env_passes_over_lines_not_starting_with_a_name Example.env_masker
           ("TOKEN=abc123" +:+ Example.nl +:+ "  PASSWORD=hunter2")
           1 "  PASSWORD=hunter2" " "%char).
  - vm_compute. reflexivity.
  - reflexivity.
  - reflexivity.
Defined.

End Contract.
(* ===================================================================== *)
(** * The guard of should_mask, and masking twice *)
(* ===================================================================== *)

Section Guard.

Import Py Masker Says.

Lemma some_match_true (ps : list Re.Pattern) (v : string) :
  some_match ps v = true <-> Exists (fun p => Re.match_ p v = true) ps.
Proof.
  induction ps as [|p ps IH]; cbn [some_match].
  - split; [done|]. intros H. inversion H.
  - rewrite Exists_cons. destruct (Re.match_ p v); [by intuition|].
    rewrite IH. intuition congruence.
Qed.

Lemma some_match_false (ps : list Re.Pattern) (v : string) :
  some_match ps v = false <-> Forall (fun p => Re.match_ p v = false) ps.
Proof.
  induction ps as [|p ps IH]; cbn [some_match].
  - split; [by constructor|done].
  - rewrite Forall_cons. destruct (Re.match_ p v); [intuition congruence|].
    rewrite IH. intuition.
Qed.

(** X7. [should_mask] is true for exactly two kinds of value: a [str] that
    is not empty and not of the form [***...***], when the key is sensitive
    or the value is; and a value that is no [str] nor [None], when the key
    is sensitive.  [is_sensitive_value] is true for a [str] iff no excluded
    value pattern matches it at its start and some value pattern does, and
    false for every value that is no [str]. *)
Theorem should_mask_exactly
  (m : SensitivePatternMatcher) (key : string) (v : value) :
  (should_mask m key v = true <->
   (exists s, v = VStr s /\ s <> ""
              /\ startswith "***" s && endswith "***" s = false
              /\ (is_sensitive_key m key = true
                  \/ is_sensitive_value m v = true))
   \/ (exists n, v = VInt n /\ is_sensitive_key m key = true))
  /\ (forall s,
        is_sensitive_value m (VStr s) = true <->
        Forall (fun p => Re.match_ p s = false) (exclude_value_patterns m)
        /\ Exists (fun p => Re.match_ p s = true) (value_patterns m))
  /\ is_sensitive_value m VNone = false
  /\ (forall n, is_sensitive_value m (VInt n) = false).
Proof.
  split; [|split; [|done]].
  - unfold should_mask. destruct v as [|s|n].
    + split; [done|]. by intros [(s & ? & _)|(n & ? & _)].
    + destruct s as [|c s].
      { split; [done|]. by intros [(s & [= <-] & ? & _)|(n & ? & _)]. }
      destruct (startswith "***" (String c s) && endswith "***" (String c s))
        eqn:E.
      { split; [done|].
        intros [(s' & [= <-] & _ & E' & _)|(n & ? & _)]; congruence. }
      cbn [isinstance_str andb]. rewrite orb_true_iff. split.
      * intros H. left. exists (String c s). by split_and!.
      * intros [(s' & [= <-] & _ & _ & H)|(n & ? & _)]; done.
    + cbn [isinstance_str andb]. rewrite orb_false_r. split.
      * intros H. right. by exists n.
      * intros [(s & ? & _)|(n' & _ & H)]; done.
  - intros s. unfold is_sensitive_value.
    rewrite <- some_match_false, <- some_match_true.
    destruct (some_match (exclude_value_patterns m) s),
      (some_match (value_patterns m) s); intuition congruence.
Qed.

(** X8. When the mask format starts and ends with three stars and holds no
    line feed, as the default does, masking the output of the env masker,
    or of the properties masker, once more returns that output unchanged
    and records no item. *)
Theorem remasking_with_a_starred_format_changes_nothing
  (m : SensitivePatternMatcher) (fmt content : string) :
  starred fmt ->
  let env := {| EnvMasker.matcher := m; EnvMasker.mask_format := fmt |} in
  let properties :=
    {| PropertiesMasker.matcher := m; PropertiesMasker.mask_format := fmt |} in
  let once_env := (EnvMasker.mask_content env content).1 in
  let once_properties := (PropertiesMasker.mask_content properties content).1 in
  EnvMasker.mask_content env once_env = (once_env, [])
  /\ PropertiesMasker.mask_content properties once_properties
     = (once_properties, []).
Proof.
  intros Hfmt env properties once_env once_properties. split.
  - pose proof (env_remask_starred env content Hfmt) as Hnil.
    fold once_env in Hnil.
    pose proof (env_no_items_identity env once_env Hnil).
    destruct (EnvMasker.mask_content env once_env); simpl in *; congruence.
  - pose proof (properties_remask_starred properties content Hfmt) as Hnil.
    fold once_properties in Hnil.
    pose proof (properties_no_items_identity properties once_properties Hnil).
    destruct (PropertiesMasker.mask_content properties once_properties);
      simpl in *; congruence.
Qed.

(** The theorem at work: the masked line of a token is left as it is. *)
Lemma remasking_with_a_starred_format_changes_nothing_witness :
  EnvMasker.mask_content Example.env_masker
    ("TOKEN=" +:+ dq +:+ "***MASKED***" +:+ dq)
  = ("TOKEN=" +:+ dq +:+ "***MASKED***" +:+ dq, []).
Proof.
  apply (remasking_with_a_starred_format_changes_nothing
           Example.password_matcher "***MASKED***" "TOKEN=abc123").
  split_and!; vm_compute; reflexivity.
Defined.

End Guard.
(* ===================================================================== *)
(** * The choice of the masker *)
(* ===================================================================== *)

Section Dispatch.

Import Py Masker Says.

Lemma prefix_refl a : String.prefix a a = true.
Proof. rewrite <- (app_empty_r a) at 2. apply prefix_app. Qed.

Lemma endswith_contains suf s : endswith suf s = true -> contains suf s = true.
Proof.
  induction s as [|c s IH]; unfold endswith, contains; fold endswith; fold contains.
  - rewrite orb_false_r. intros ->%String.eqb_eq. by rewrite prefix_refl.
  - intros [->%String.eqb_eq | H]%orb_true_iff.
    + by rewrite prefix_refl.
    + rewrite (IH H). apply orb_true_r.
Qed.

Lemma mask_file_of_strings (self : MaskingEngine) (p c : string) :
  exists out : string * list MaskingItem,
    mask_file self (VStr p) (VStr c)
    = Ok {| file_path := VStr p; original_content := VStr c;
            masked_content := VStr out.1; masked_items := out.2;
            error := None |}
    /\ out =
       if endswith ".yml" p || endswith ".yaml" p
       then YamlMasker.mask_content (yaml_masker self) c
       else if endswith ".properties" p
       then PropertiesMasker.mask_content (properties_masker self) c
       else if contains ".env" p
       then EnvMasker.mask_content (env_masker self) c
       else PropertiesMasker.mask_content (properties_masker self) c.
Proof.
  unfold mask_file, mask_file_try. cbn [str_method bind].
  destruct (endswith ".yml" p || endswith ".yaml" p).
  { cbn. destruct (YamlMasker.mask_content _ c) as [a b]. by eexists (a, b). }
  destruct (endswith ".properties" p).
  { cbn. destruct (PropertiesMasker.mask_content _ c) as [a b]. by eexists (a, b). }
  assert (endswith ".env" p || contains ".env" p = contains ".env" p) as ->.
  { destruct (endswith ".env" p) eqn:E; [|done].
    by rewrite (endswith_contains _ _ E). }
  destruct (contains ".env" p).
  { cbn. destruct (EnvMasker.mask_content _ c) as [a b]. by eexists (a, b). }
  cbn. destruct (PropertiesMasker.mask_content _ c) as [a b]. by eexists (a, b).
Qed.

(** X9. For a path and a content that are [str], [mask_file] returns a
    result without error that holds the output of one masker, chosen by the
    path alone: the YAML masker when the path ends in [.yml] or [.yaml];
    otherwise the properties masker when it ends in [.properties];
    otherwise the env masker when [.env] occurs anywhere in the path (the
    test for the ending [.env] adds nothing to this one); and the properties
    masker in every other case. *)
Theorem mask_file_dispatch (self : MaskingEngine) (p c : string) :
  exists out : string * list MaskingItem,
    mask_file self (VStr p) (VStr c)
    = Ok {| file_path := VStr p; original_content := VStr c;
            masked_content := VStr out.1; masked_items := out.2;
            error := None |}
    /\ out =
       if endswith ".yml" p || endswith ".yaml" p
       then YamlMasker.mask_content (yaml_masker self) c
       else if endswith ".properties" p
       then PropertiesMasker.mask_content (properties_masker self) c
       else if contains ".env" p
       then EnvMasker.mask_content (env_masker self) c
       else PropertiesMasker.mask_content (properties_masker self) c.
Proof. apply mask_file_of_strings. Qed.


Lemma masker_output_no_items self content out :
  masker_output self content out -> out.2 = [] -> out.1 = content.
Proof.
  intros [->|[->| ->]].
  - apply yaml_no_items_identity.
  - apply properties_no_items_identity.
  - apply env_no_items_identity.
Qed.

(** X10. A result of [mask_file] whose [masked_count] is 0 has the content
    it was given as its [masked_content], be it a result with or without
    error. *)
Theorem result_without_items_is_unchanged
  (self : MaskingEngine) (path content : value) (r : MaskingResult) :
  mask_file self path content = Ok r ->
  masked_count r = 0 ->
  masked_content r = content /\ original_content r = content.
Proof.
  unfold mask_file, masked_count. intros Hr Hnil.
  destruct (mask_file_try self path content) as [[masked items]|e] eqn:E.
  - cbn in Hr. injection Hr as <-. cbn in *.
    apply mask_file_try_ok in E as (p & c & -> & -> & Hout).
    split; [|done]. f_equal.
    apply (masker_output_no_items self c (masked, items) Hout).
    by destruct items.
  - cbn in Hr. by injection Hr as <-.
Qed.

End Dispatch.

(* ===================================================================== *)
(** * Compiling and adding patterns *)
(* ===================================================================== *)

Section Widening.

Import Py Masker Says.

Variable re_compile : bool -> string -> option Re.Pattern.
Variable re_raises : bool -> string -> exn.

Lemma some_search_app ps qs key :
  some_search (ps ++ qs) key = some_search ps key || some_search qs key.
Proof.
  induction ps as [|p ps IH]; [done|]. cbn [app some_search].
  by destruct (Re.search p key).
Qed.

Lemma add_sensitive_patterns_matcher self patterns :
  let run := add_sensitive_patterns re_compile re_raises self patterns in
  let after := run.2 in
  let stop := gives_up re_compile re_raises in
  run.1 = match List.find stop patterns with
          | Some src => Raise (re_raises true src)
          | None => Ok tt
          end
  /\ key_patterns (matcher after)
     = key_patterns (matcher self)
       ++ omap (re_compile true) (before_first stop patterns)
  /\ value_patterns (matcher after) = value_patterns (matcher self)
  /\ exclude_key_patterns (matcher after) = exclude_key_patterns (matcher self)
  /\ exclude_value_patterns (matcher after) = exclude_value_patterns (matcher self)
  /\ mask_format after = mask_format self
  /\ YamlMasker.mask_format (yaml_masker after)
     = YamlMasker.mask_format (yaml_masker self)
  /\ PropertiesMasker.mask_format (properties_masker after)
     = PropertiesMasker.mask_format (properties_masker self)
  /\ EnvMasker.mask_format (env_masker after)
     = EnvMasker.mask_format (env_masker self)
  /\ (shares_matcher self -> shares_matcher after).
Proof.
  revert self. induction patterns as [|p ps IH]; intros self; cbn zeta.
  - cbn. rewrite app_nil_r. done.
  - cbn [add_sensitive_patterns before_first List.find]. unfold gives_up at 1 3.
    destruct (re_compile true p) as [compiled|] eqn:E.
    + specialize (IH (append_key_pattern self compiled)). cbv zeta in IH.
      destruct IH as (H0 & H1 & H2 & H3 & H4 & H5 & H6 & H7 & H8 & H9).
      cbn [omap list_omap]. rewrite E.
      rewrite H0, H1, H2, H3, H4, H5, H6, H7, H8. cbn.
      rewrite <- app_assoc. split_and!; try done.
      intros _. apply H9. by split_and!.
    + cbv zeta. destruct (is_re_error (re_raises true p)); cbn [negb].
      * cbn [omap list_omap]. rewrite E. apply IH.
      * cbn. rewrite app_nil_r. done.
Qed.

(** X11. [add_sensitive_patterns] goes through the sources in their order
    and appends the compiled pattern of each to the key patterns; a source
    whose compiling raises [re.error] is passed over, and the first whose
    compiling raises another exception ends the call with that exception,
    the patterns appended before it staying in the engine.  In the engine
    that the call leaves, be it by returning or by raising, a key is
    sensitive iff no excluded key pattern matches it and either a key
    pattern of before matches it or one of the sources reached compiles and
    matches it; the sensitivity of values is as before, and a key that was
    sensitive stays so. *)
Theorem add_sensitive_patterns_widens_keys
  (self : MaskingEngine) (patterns : list string) (key : string) :
  let run := add_sensitive_patterns re_compile re_raises self patterns in
  let after := run.2 in
  let stop := gives_up re_compile re_raises in
  let reached := before_first stop patterns in
  run.1 = match List.find stop patterns with
          | Some src => Raise (re_raises true src)
          | None => Ok tt
          end
  /\ key_patterns (matcher after)
     = key_patterns (matcher self) ++ omap (re_compile true) reached
  /\ (is_sensitive_key (matcher after) key = true <->
      some_search (exclude_key_patterns (matcher self)) key = false
      /\ (some_search (key_patterns (matcher self)) key = true
          \/ exists src compiled,
               src ∈ reached /\ re_compile true src = Some compiled
               /\ Re.search compiled key = true))
  /\ (forall v, is_sensitive_value (matcher after) v
                = is_sensitive_value (matcher self) v)
  /\ (is_sensitive_key (matcher self) key = true ->
      is_sensitive_key (matcher after) key = true).
Proof.
  intros run after stop reached.
  destruct (add_sensitive_patterns_matcher self patterns)
    as (Hrun & Hk & Hv & Hek & Hev & _).
  fold run after stop reached in Hrun, Hk, Hv, Hek, Hev.
  assert (is_sensitive_key (matcher after) key = true <->
          some_search (exclude_key_patterns (matcher self)) key = false
          /\ (some_search (key_patterns (matcher self)) key = true
              \/ some_search (omap (re_compile true) reached) key = true))
    as Hiff.
  { unfold is_sensitive_key. rewrite Hk, Hek, some_search_app.
    destruct (some_search (exclude_key_patterns (matcher self)) key),
      (some_search (key_patterns (matcher self)) key),
      (some_search (omap (re_compile true) reached) key);
      cbn [orb]; intuition congruence. }
  split; [done|]. split; [done|]. split; [|split].
  - rewrite Hiff. apply and_iff_compat_l. apply or_iff_compat_l.
    rewrite some_search_true, Exists_exists. split.
    + intros (compiled & Hin & Hs).
      rewrite list_elem_of_omap in Hin.
      destruct Hin as (src & Hsrc & Hc).
      by exists src, compiled.
    + intros (src & compiled & Hsrc & Hc & Hs). exists compiled. split; [|done].
      rewrite list_elem_of_omap. by exists src.
  - intros v. unfold is_sensitive_value. by rewrite Hv, Hev.
  - intros Hs. apply Hiff. unfold is_sensitive_key in Hs.
    destruct (some_search (exclude_key_patterns (matcher self)) key); [done|].
    split; [done|]. left.
    by destruct (some_search (key_patterns (matcher self)) key).
Qed.

Lemma properties_line_more self self' n line it :
  masks_at_least (PropertiesMasker.matcher self) (PropertiesMasker.matcher self') ->
  it ∈ (PropertiesMasker.mask_line self n line).2 ->
  it ∈ (PropertiesMasker.mask_line self' n line).2.
Proof.
  intros Hmore. unfold PropertiesMasker.mask_line. cbv zeta.
  destruct (_ || _); [done|].
  destruct (Re.match_properties line) as [[g1 g2]|]; [|done].
  destruct (should_mask (PropertiesMasker.matcher self) _ _) eqn:E.
  - by rewrite (Hmore _ _ E).
  - intros Hin. by apply elem_of_nil in Hin.
Qed.

Lemma env_line_more self self' n line it :
  masks_at_least (EnvMasker.matcher self) (EnvMasker.matcher self') ->
  it ∈ (EnvMasker.mask_line self n line).2 ->
  it ∈ (EnvMasker.mask_line self' n line).2.
Proof.
  intros Hmore. unfold EnvMasker.mask_line. cbv zeta.
  destruct (_ || _); [done|].
  destruct (Re.match_env line) as [[[g1 g2] g3]|]; [|done].
  destruct (should_mask (EnvMasker.matcher self) _ _) eqn:E.
  - by rewrite (Hmore _ _ E).
  - intros Hin. by apply elem_of_nil in Hin.
Qed.

Lemma yaml_line_more self self' n line ks ids :
  masks_at_least (YamlMasker.matcher self) (YamlMasker.matcher self') ->
  (YamlMasker.mask_line self n line ks ids).2
  = (YamlMasker.mask_line self' n line ks ids).2
  /\ forall it, it ∈ (YamlMasker.mask_line self n line ks ids).1.2 ->
                it ∈ (YamlMasker.mask_line self' n line ks ids).1.2.
Proof.
  intros Hmore. unfold YamlMasker.mask_line. cbv zeta.
  destruct (_ || _); [done|].
  destruct (YamlMasker.adjust _ _ _ _) as [ks' ids'].
  destruct (_ && _); [|done].
  destruct (_ && _); [|done].
  destruct (should_mask (YamlMasker.matcher self) _ _) eqn:E.
  - by rewrite (Hmore _ _ E).
  - destruct (should_mask (YamlMasker.matcher self') _ _); cbn; split; try done;
      intros it Hin; by apply elem_of_nil in Hin.
Qed.

Lemma yaml_walk_more self self' n lines ks ids it :
  masks_at_least (YamlMasker.matcher self) (YamlMasker.matcher self') ->
  it ∈ (YamlMasker.walk_lines self n lines ks ids).2 ->
  it ∈ (YamlMasker.walk_lines self' n lines ks ids).2.
Proof.
  intros Hmore. revert n ks ids.
  induction lines as [|l lines IH]; intros n ks ids; cbn [YamlMasker.walk_lines];
    [done|].
  destruct (yaml_line_more self self' n l ks ids Hmore) as [Hst Hit].
  destruct (YamlMasker.mask_line self n l ks ids) as [[o its] [ks1 ids1]].
  destruct (YamlMasker.mask_line self' n l ks ids) as [[o' its'] [ks2 ids2]].
  cbn [fst snd] in *. injection Hst as <- <-.
  specialize (IH (S n) ks1 ids1).
  destruct (YamlMasker.walk_lines self (S n) lines ks1 ids1) as [outs items].
  destruct (YamlMasker.walk_lines self' (S n) lines ks1 ids1) as [outs' items'].
  cbn [fst snd] in *. rewrite !elem_of_app. intros [H|H]; [left|right]; auto.
Qed.

Lemma should_mask_widened self patterns :
  masks_at_least (matcher self)
    (matcher (add_sensitive_patterns re_compile re_raises self patterns).2).
Proof.
  intros key v.
  destruct (add_sensitive_patterns_matcher self patterns)
    as (_ & Hk & Hv & Hek & Hev & _).
  unfold should_mask, is_sensitive_key, is_sensitive_value.
  rewrite Hk, Hv, Hek, Hev, some_search_app.
  destruct v as [|c v]; [done|].
  destruct (_ && _); [done|].
  destruct (some_search (exclude_key_patterns (matcher self)) key); [done|].
  destruct (some_search (key_patterns (matcher self)) key); cbn [orb]; [done|].
  intros ->. apply orb_true_r.
Qed.

(** X12. For an engine whose maskers read the matcher of the engine, every
    item that [mask_file] records for a path and a content is recorded as
    well by the engine that [add_sensitive_patterns] leaves, whatever the
    patterns added and whether the call returns or raises; and a
    [mask_file] that ended in an error ends in the same error. *)
Theorem widening_never_unmasks
  (self : MaskingEngine) (patterns : list string) (path content : value)
  (r r' : MaskingResult) :
  let after :=
    (add_sensitive_patterns re_compile re_raises self patterns).2 in
  shares_matcher self ->
  mask_file self path content = Ok r ->
  mask_file after path content = Ok r' ->
  (forall it, it ∈ masked_items r -> it ∈ masked_items r')
  /\ error r' = error r.
Proof.
  intros after Hshare Hr Hr'.
  destruct (mask_file_try self path content) as [out|e] eqn:E.
  - apply mask_file_try_ok in E as (p & c & -> & -> & _).
    destruct (mask_file_of_strings self p c) as (out1 & H1 & Ho1).
    destruct (mask_file_of_strings after p c) as (out2 & H2 & Ho2).
    rewrite H1 in Hr. rewrite H2 in Hr'.
    injection Hr as <-. injection Hr' as <-. cbn [masked_items error].
    split; [|done]. intros it.
    pose proof (should_mask_widened self patterns) as Hmore. fold after in Hmore.
    destruct (add_sensitive_patterns_matcher self patterns)
      as (_ & _ & _ & _ & _ & _ & _ & _ & _ & Hsh).
    specialize (Hsh Hshare). fold after in Hsh.
    destruct Hshare as (Sy & Sp & Se). destruct Hsh as (Sy' & Sp' & Se').
    rewrite Ho1, Ho2.
    destruct (endswith ".yml" p || endswith ".yaml" p).
    { rewrite !yaml_content_items. apply yaml_walk_more. by rewrite Sy, Sy'. }
    assert (forall it,
              it ∈ (PropertiesMasker.mask_content (properties_masker self) c).2 ->
              it ∈ (PropertiesMasker.mask_content (properties_masker after) c).2)
      as Hprop.
    { intros x. rewrite !properties_content_items.
      unfold PropertiesMasker.mask_lines. rewrite !for_each_line_items.
      intros (i & line & Hi & Hx). exists i, line. split; [done|].
      eapply properties_line_more; [|done]. by rewrite Sp, Sp'. }
    destruct (endswith ".properties" p); [apply Hprop|].
    destruct (contains ".env" p); [|apply Hprop].
    rewrite !env_content_items.
    unfold EnvMasker.mask_lines. rewrite !for_each_line_items.
    intros (i & line & Hi & Hx). exists i, line. split; [done|].
    eapply env_line_more; [|done]. by rewrite Se, Se'.
  - unfold mask_file in Hr. rewrite E in Hr. cbn in Hr. injection Hr as <-.
    cbn [masked_items error]. split.
    { intros it Hit. by apply elem_of_nil in Hit. }
    destruct (mask_file_try after path content) as [out|e'] eqn:E'.
    + apply mask_file_try_ok in E' as (p & c & -> & -> & _).
      destruct (mask_file_of_strings self p c) as (out1 & H1 & _).
      unfold mask_file in H1. rewrite E in H1. cbn in H1. discriminate.
    + unfold mask_file in Hr'. rewrite E' in Hr'. cbn in Hr'. injection Hr' as <-.
      cbn [error]. f_equal. f_equal.
      clear -E E'. unfold mask_file_try in *.
      destruct path as [|p|z]; cbn in *; [congruence| |congruence].
      destruct content as [|c|z]; cbn in *.
      * repeat (destruct (_ || _) in E, E' || destruct (endswith _ _) in E, E');
          cbn in *; congruence.
      * repeat (destruct (_ || _) in E || destruct (endswith _ _) in E);
          cbn in *; congruence.
      * repeat (destruct (_ || _) in E, E' || destruct (endswith _ _) in E, E');
          cbn in *; congruence.
Qed.

Lemma compile_all_none ignorecase srcs :
  compile_all re_compile ignorecase srcs = None
  <-> Exists (fun p => re_compile ignorecase p = None) srcs.
Proof.
  induction srcs as [|p srcs IH]; cbn [compile_all].
  - split; [done|]. intros H. inversion H.
  - rewrite Exists_cons.
    destruct (re_compile ignorecase p) as [c|]; [|by intuition].
    destruct (compile_all re_compile ignorecase srcs) as [cs|].
    + split; [done|]. intros [?|H]; [done|]. by apply IH in H.
    + split; [|done]. intros _. right. by apply IH.
Qed.

Lemma compile_all_some ignorecase srcs compiled :
  compile_all re_compile ignorecase srcs = Some compiled ->
  compiled = omap (re_compile ignorecase) srcs
  /\ length compiled = length srcs.
Proof.
  revert compiled. induction srcs as [|p srcs IH]; intros compiled;
    cbn [compile_all omap list_omap].
  - by intros [= <-].
  - destruct (re_compile ignorecase p) as [c|]; [|done].
    destruct (compile_all re_compile ignorecase srcs) as [cs|]; [|done].
    intros [= <-]. destruct (IH cs eq_refl) as [<- Hlen].
    split; [done|]. cbn. by rewrite Hlen.
Qed.

(** X13. The engine is built iff each pattern of the four lists of the
    configuration compiles; one that does not compile is not passed over, as
    [add_sensitive_patterns] passes over a source that raises [re.error],
    but makes [__init__] raise.  An engine
    that is built has the mask format of the configuration, or
    [***MASKED***] without one, its patterns are the compiled sources in
    their order, and its three maskers read its matcher. *)
Theorem engine_init_fails_on_a_bad_pattern (config : Config) :
  let keys := default [] (cfg_sensitive_key_patterns config) in
  let values := default [] (cfg_sensitive_value_patterns config) in
  let no_keys := default [] (cfg_exclude_key_patterns config) in
  let no_values := default [] (cfg_exclude_value_patterns config) in
  (engine_init re_compile config = None <->
   Exists (fun p => re_compile true p = None) (keys ++ no_keys)
   \/ Exists (fun p => re_compile false p = None) (values ++ no_values))
  /\ (forall self, engine_init re_compile config = Some self ->
        shares_matcher self
        /\ mask_format self = default "***MASKED***" (cfg_mask_format config)
        /\ key_patterns (matcher self) = omap (re_compile true) keys
        /\ length (key_patterns (matcher self)) = length keys
        /\ value_patterns (matcher self) = omap (re_compile false) values
        /\ exclude_key_patterns (matcher self) = omap (re_compile true) no_keys
        /\ exclude_value_patterns (matcher self)
           = omap (re_compile false) no_values).
Proof.
  intros keys values no_keys no_values.
  unfold engine_init, new_matcher. cbn [from_option].
  repeat change (id ?x) with x.
  fold keys values no_keys no_values.
  rewrite !Exists_app, <- !compile_all_none.
  destruct (compile_all re_compile true keys) as [kp|] eqn:Ek;
    [|split; [intuition|done]].
  destruct (compile_all re_compile false values) as [vp|] eqn:Ev;
    [|split; [intuition|done]].
  destruct (compile_all re_compile true no_keys) as [ekp|] eqn:Eek;
    [|split; [intuition|done]].
  destruct (compile_all re_compile false no_values) as [evp|] eqn:Eev;
    [|split; [intuition|done]].
  split; [intuition congruence|].
  intros self [= <-]. cbn.
  apply compile_all_some in Ek as [-> Hlen], Ev as [-> _], Eek as [-> _],
    Eev as [-> _].
  by split_and!.
Qed.

End Widening.
(* ===================================================================== *)
(** * What the scanner yields *)
(* ===================================================================== *)

Section ScanMore.

Import Py Says Scanner.

Variable fnmatch : string -> string -> bool.
Variable abspath : string -> string.

Lemma path_of_cons root d ds f :
  path_of root (d :: ds) f = path_of (path_join root d) ds f.
Proof. done. Qed.

Lemma scan_walk_iff self project t :
  forall root p,
    p ∈ scan_walk fnmatch abspath self project root t <->
    exists ds f,
      has_file t ds f = true /\ kept self ds = true
      /\ p = path_of root ds f
      /\ _should_process_file fnmatch self (relpath abspath p project) f = true.
Proof.
  induction t as [files dirs IH] using tree_induction.
  intros root p. cbn [scan_walk].
  rewrite elem_of_app, !list_elem_of_In, !in_flat_map. split.
  - intros [(f & Hf & Hp) | ([d sub] & Hd & Hp)].
    + destruct (_should_process_file _ _ _ _) eqn:Ok; [|done].
      destruct Hp as [<-|[]]. exists [], f. split_and!; try done.
      simpl. apply existsb_exists. exists f. by rewrite String.eqb_refl.
    + simpl in Hp.
      destruct (_should_exclude_dir self d) eqn:Ex; [done|].
      rewrite Forall_forall in IH.
      apply list_elem_of_In in Hd. apply list_elem_of_In in Hp.
      apply (IH (d, sub) Hd) in Hp as (ds & f & H1 & H2 & H3 & H4).
      exists (d :: ds), f. split_and!; try done.
      * simpl. apply existsb_exists. exists (d, sub).
        split; [by apply list_elem_of_In|]. simpl. by rewrite String.eqb_refl.
      * simpl. by rewrite Ex.
  - intros (ds & f & Hhas & Hkept & -> & Hok).
    destruct ds as [|d ds].
    + left. simpl in Hhas. apply existsb_exists in Hhas as (f' & Hin & ->%String.eqb_eq).
      exists f'. split; [done|].
      unfold path_of in Hok. simpl in Hok. rewrite Hok. by left.
    + right. simpl in Hhas.
      apply existsb_exists in Hhas as ([d' sub] & Hin & Hd).
      simpl in Hd. apply andb_true_iff in Hd as [->%String.eqb_eq Hsub].
      simpl in Hkept. apply andb_true_iff in Hkept as [Hd Hkept].
      exists (d, sub). split; [done|]. simpl.
      apply negb_true_iff in Hd. rewrite Hd.
      apply list_elem_of_In. rewrite Forall_forall in IH.
      apply (IH (d, sub)); [by apply list_elem_of_In|].
      exists ds, f. by split_and!.
Qed.

(** X14. [scan] yields a path iff it is the path of a file of the tree
    below the project root that is reached through directories none of which
    is excluded, and [_should_process_file] accepts the path of the file
    relative to the project root together with its name. *)
Theorem scan_yields_exactly_the_accepted_files
  (self : FileScanner) (project_path : string) (t : tree) (p : string) :
  p ∈ scan fnmatch abspath self project_path t <->
  exists ds f,
    has_file t ds f = true /\ kept self ds = true
    /\ p = path_of (abspath project_path) ds f
    /\ _should_process_file fnmatch self
         (relpath abspath p (abspath project_path)) f = true.
Proof. unfold scan. apply scan_walk_iff. Qed.

Lemma matches_pattern_true filename patterns :
  _matches_pattern fnmatch filename patterns = true
  <-> Exists (fun pattern => fnmatch filename pattern = true) patterns.
Proof.
  induction patterns as [|p ps IH]; cbn [_matches_pattern].
  - split; [done|]. intros H. inversion H.
  - rewrite Exists_cons. destruct (fnmatch filename p); [by intuition|].
    rewrite IH. intuition congruence.
Qed.

Lemma some_exclude_false file_path filename patterns :
  some_exclude fnmatch file_path filename patterns = false
  <-> Forall (fun pattern => fnmatch file_path pattern = false
                             /\ fnmatch filename pattern = false) patterns.
Proof.
  induction patterns as [|p ps IH]; cbn [some_exclude].
  - split; [by constructor|done].
  - rewrite Forall_cons.
    destruct (fnmatch file_path p), (fnmatch filename p); cbn [orb];
      rewrite ?IH; intuition congruence.
Qed.

(** X15. [_should_process_file] accepts a file iff no pattern of
    [exclude_patterns] matches its relative path or its name and its name
    matches a pattern of [include_patterns] or, when there are no include
    patterns, of [file_patterns]: with include patterns the file patterns of
    the configuration are not consulted. *)
Theorem should_process_file_precedence
  (self : FileScanner) (file_path filename : string) :
  _should_process_file fnmatch self file_path filename = true <->
  Forall (fun pattern => fnmatch file_path pattern = false
                         /\ fnmatch filename pattern = false)
    (exclude_patterns self)
  /\ Exists (fun pattern => fnmatch filename pattern = true)
       (match include_patterns self with
        | [] => file_patterns self
        | _ => include_patterns self
        end).
Proof.
  unfold _should_process_file.
  rewrite <- some_exclude_false.
  destruct (some_exclude _ _ _ _); [intuition congruence|].
  destruct (include_patterns self) as [|i more]; cbn [Masker.is_nil negb];
    rewrite matches_pattern_true; intuition.
Qed.


Lemma split_app_sep sep a b :
  split sep (a +:+ String sep b) = split sep a ++ split sep b.
Proof.
  induction a as [|c a IH]; cbn [String.append].
  - rewrite split_cons, Ascii.eqb_refl. done.
  - rewrite !(split_cons sep c). destruct (Ascii.eqb c sep).
    + by rewrite IH.
    + rewrite IH. pose proof (split_not_nil sep a).
      by destruct (split sep a).
Qed.

Lemma components_app_slash a b :
  components (a +:+ "/" +:+ b) = components a ++ components b.
Proof.
  unfold components. change ("/" +:+ b) with (String "/" b).
  by rewrite split_app_sep, filter_app.
Qed.

Lemma components_empty : components "" = [].
Proof. reflexivity. Qed.

Lemma last_char_slash s c :
  last_char s = Some c -> exists r, s = r +:+ String c "".
Proof.
  induction s as [|x s IH]; [done|].
  destruct s as [|y s].
  - intros [= ->]. by exists "".
  - intros H. destruct (IH H) as [r Hr]. exists (String x r).
    cbn [String.append]. by rewrite <- Hr.
Qed.

Lemma components_with_slash root rest :
  components (with_slash root +:+ rest) = components root ++ components rest.
Proof.
  unfold with_slash. destruct root as [|c root]; [done|]. cbn [is_empty orb].
  destruct (endswith "/" (String c root)) eqn:E.
  - rewrite endswith_char in E.
    destruct (last_char (String c root)) as [x|] eqn:El; [|done].
    apply Ascii.eqb_eq in E as ->.
    apply last_char_slash in El as [r ->].
    rewrite app_assoc_s. change (String "/" "" +:+ rest) with ("/" +:+ rest).
    rewrite components_app_slash.
    change (String "/" "") with ("/" +:+ "").
    by rewrite components_app_slash, components_empty, app_nil_r.
  - rewrite app_assoc_s. apply components_app_slash.
Qed.

Lemma components_name n : name_ok n = true -> components n = [n].
Proof.
  intros [Hne Hns]%name_ok_spec. unfold components.
  rewrite (split_whole "/" n Hns). destruct n; [done|reflexivity].
Qed.

Lemma components_names n ns :
  Forall (fun m => name_ok m = true) (n :: ns) ->
  components (n +:+ slashed ns) = n :: ns.
Proof.
  revert n. induction ns as [|m ms IH]; intros n Hall.
  - cbn [slashed]. rewrite app_empty_r. apply components_name.
    by apply Forall_cons in Hall as [? _].
  - apply Forall_cons in Hall as [Hn Hall]. cbn [slashed].
    rewrite components_app_slash, (components_name n Hn), (IH m Hall). done.
Qed.

Lemma common_len_app xs ys : common_len xs (xs ++ ys) = length xs.
Proof.
  induction xs as [|x xs IH]; [by destruct ys|].
  cbn. by rewrite String.eqb_refl, IH.
Qed.

Lemma join_names n ns : join "/" (n :: ns) = n +:+ slashed ns.
Proof.
  unfold join. revert n. induction ns as [|m ms IH]; intros n.
  - cbn. by rewrite app_empty_r.
  - change (String.concat "/" (n :: m :: ms))
      with (n +:+ "/" +:+ String.concat "/" (m :: ms)).
    by rewrite IH.
Qed.

Lemma relpath_of_names root n ns :
  abspath root = root ->
  abspath (with_slash root +:+ n +:+ slashed ns) = with_slash root +:+ n +:+ slashed ns ->
  Forall (fun m => name_ok m = true) (n :: ns) ->
  relpath abspath (with_slash root +:+ n +:+ slashed ns) root
  = join "/" (n :: ns).
Proof.
  intros Hroot Hpath Hall. unfold relpath. rewrite Hroot, Hpath.
  rewrite components_with_slash, (components_names n ns Hall).
  rewrite common_len_app, Nat.sub_diag. cbn [repeat app].
  rewrite drop_app_length.
  rewrite join_names.
  apply Forall_cons in Hall as [Hn Hall].
  apply (fold_join_names ns "" n Hn Hall).
Qed.

Lemma relpath_of_path root ds f :
  abspath root = root ->
  abspath (path_of root ds f) = path_of root ds f ->
  Forall (fun m => name_ok m = true) (ds ++ [f]) ->
  relpath abspath (path_of root ds f) root = join "/" (ds ++ [f]).
Proof.
  intros Hroot Hpath Hall.
  destruct (path_of_names root ds f Hall) as (n & ns & Hn & Hp).
  rewrite Hp in *. rewrite Hn in *. by apply relpath_of_names.
Qed.

(** X16. In a tree of proper names, with [os.path.abspath] leaving the
    paths of the walk as they are, the relative path that [scan] tests is
    the names of the directories and of the file joined by slashes: a file
    of the tree is yielded iff none of its directories is excluded and
    [_should_process_file] accepts that relative path and the name. *)
Theorem scan_tests_the_path_from_the_root
  (self : FileScanner) (project_path : string) (t : tree)
  (ds : list string) (f : string) :
  let root := abspath project_path in
  names_ok t = true ->
  abspath root = root ->
  (forall ds' f', has_file t ds' f' = true ->
                  abspath (path_of root ds' f') = path_of root ds' f') ->
  has_file t ds f = true ->
  (path_of root ds f ∈ scan fnmatch abspath self project_path t <->
   kept self ds = true
   /\ _should_process_file fnmatch self (join "/" (ds ++ [f])) f = true).
Proof.
  intros root Hnames Hroot Hfix Hhas.
  pose proof (has_file_names t Hnames ds f Hhas) as Hall.
  pose proof (relpath_of_path root ds f Hroot (Hfix ds f Hhas) Hall) as Hrel.
  unfold scan. fold root. rewrite scan_walk_iff. split.
  - intros (ds' & f' & Hhas' & Hkept & Heq & Hok).
    pose proof (has_file_names t Hnames ds' f' Hhas') as Hall'.
    apply path_of_inj in Heq as [-> ->]; [|done..].
    by rewrite Hrel in Hok.
  - intros [Hkept Hok]. exists ds, f. rewrite Hrel. by split_and!.
Qed.

End ScanMore.

Section ScanMoreExample.

Import Py Says Scanner.

(** The theorem at work: the file in [src] is yielded. *)
Lemma scan_tests_the_path_from_the_root_witness :
  "/srv/app/src/application.yml"
    ∈ scan Example.fnmatch_literal Example.abspath_id Example.scanner
        "/srv/app" Example.project_tree.
Proof.
  apply (scan_tests_the_path_from_the_root Example.fnmatch_literal
           Example.abspath_id Example.scanner "/srv/app" Example.project_tree
           ["src"] "application.yml").
  - vm_compute. reflexivity.
  - reflexivity.
  - intros ds' f' _. reflexivity.
  - vm_compute. reflexivity.
  - split; vm_compute; reflexivity.
Defined.

End ScanMoreExample.
(* ===================================================================== *)
(** * Yielding a file once, or twice *)
(* ===================================================================== *)

Section ScanOnce.

Import Py Says Scanner.

Variable fnmatch : string -> string -> bool.
Variable abspath : string -> string.

Lemma NoDup_flat_map {A B} (f : A -> list B) (l : list A) :
  NoDup l ->
  (forall x, x ∈ l -> NoDup (f x)) ->
  (forall x1 x2 y, x1 ∈ l -> x2 ∈ l -> y ∈ f x1 -> y ∈ f x2 -> x1 = x2) ->
  NoDup (flat_map f l).
Proof.
  induction l as [|x l IH]; intros Hl Hf Hdis; cbn [flat_map]; [constructor|].
  apply NoDup_cons in Hl as [Hx Hl].
  apply NoDup_app. split_and!.
  - apply Hf. by left.
  - intros y Hy Hin. apply list_elem_of_In, in_flat_map in Hin as (x' & Hx' & Hy').
    apply list_elem_of_In in Hx', Hy'.
    assert (x = x') as <-.
    { apply (Hdis x x' y); [by left|by right|done..]. }
    done.
  - apply IH; [done|..].
    + intros z Hz. apply Hf. by right.
    + intros x1 x2 y H1 H2. apply Hdis; by right.
Qed.

Lemma path_join_inj root n m :
  name_ok n = true -> name_ok m = true ->
  path_join root n = path_join root m -> n = m.
Proof.
  intros Hn Hm. rewrite !path_join_name by done.
  intros H. assert (len (with_slash root) = len (with_slash root)) as Hl by done.
  by destruct (app_same_length _ _ _ _ H Hl).
Qed.

Lemma scan_walk_once self project t :
  forall root,
    names_ok t = true -> distinct_names t = true ->
    NoDup (scan_walk fnmatch abspath self project root t).
Proof.
  induction t as [files dirs IH] using tree_induction.
  intros root Hnames Hdist. cbn [scan_walk].
  cbn [names_ok] in Hnames. apply andb_true_iff in Hnames as [Hfiles Hdirs].
  rewrite forallb_forall in Hfiles. rewrite forallb_forall in Hdirs.
  cbn [distinct_names] in Hdist. apply andb_true_iff in Hdist as [Hnd Hsub].
  apply bool_decide_eq_true_1 in Hnd. rewrite forallb_forall in Hsub.
  apply NoDup_app in Hnd as (Hndf & Hfd & Hndd).
  rewrite Forall_forall in IH.
  assert (forall d p, d ∈ dirs ->
            p ∈ (if _should_exclude_dir self d.1 then []
                 else scan_walk fnmatch abspath self project
                        (path_join root d.1) d.2) ->
            exists ds f, p = path_of root (d.1 :: ds) f
                         /\ Forall (fun m => name_ok m = true)
                              ((d.1 :: ds) ++ [f])) as Hprov.
  { intros d p Hd Hp.
    destruct (_should_exclude_dir self d.1); [by apply elem_of_nil in Hp|].
    apply scan_walk_provenance in Hp as (ds & f & Hhas & _ & ->).
    apply list_elem_of_In in Hd. specialize (Hdirs d Hd).
    apply andb_true_iff in Hdirs as [Hd1 Hd2].
    exists ds, f. split; [done|]. cbn [app]. constructor; [done|].
    by apply has_file_names with (t := d.2). }
  apply NoDup_app. split_and!.
  - apply NoDup_flat_map; [done|..].
    + intros f _. destruct (_should_process_file _ _ _ _); repeat constructor.
      by intros H%elem_of_nil.
    + intros f1 f2 y H1 H2 Hy1 Hy2.
      destruct (_should_process_file _ _ _ f1); [|by apply elem_of_nil in Hy1].
      destruct (_should_process_file _ _ _ f2); [|by apply elem_of_nil in Hy2].
      apply list_elem_of_singleton in Hy1, Hy2. subst y.
      apply (path_join_inj root); [apply Hfiles|apply Hfiles|done];
        by apply list_elem_of_In.
  - intros p Hp Hq.
    apply list_elem_of_In, in_flat_map in Hp as (f & Hf & Hp).
    apply list_elem_of_In, in_flat_map in Hq as (d & Hd & Hq).
    apply list_elem_of_In in Hd, Hq.
    destruct (Hprov d p Hd Hq) as (ds & f' & Hp' & Hall).
    destruct (_should_process_file _ _ _ f); [|done].
    destruct Hp as [<-|[]].
    change (path_join root f) with (path_of root [] f) in Hp'.
    apply path_of_inj in Hp' as [[=] _]; [|done].
    cbn [app]. repeat constructor. by apply Hfiles.
  - apply NoDup_flat_map.
    + by apply NoDup_fmap_1 in Hndd.
    + intros d Hd. destruct (_should_exclude_dir self d.1); [constructor|].
      apply IH; [done|..].
      * apply list_elem_of_In in Hd. specialize (Hdirs d Hd).
        by apply andb_true_iff in Hdirs as [_ ?].
      * apply Hsub. by apply list_elem_of_In.
    + intros d1 d2 p H1 H2 Hp1 Hp2.
      destruct (Hprov d1 p H1 Hp1) as (ds1 & f1 & Heq1 & Hall1).
      destruct (Hprov d2 p H2 Hp2) as (ds2 & f2 & Heq & Hall2).
      rewrite Heq1 in Heq.
      apply path_of_inj in Heq as [[= Hd _] _]; [|done..].
      destruct d1 as [n1 s1], d2 as [n2 s2]. cbn in Hd. subst n2.
      f_equal.
      apply list_elem_of_lookup in H1 as [i Hi], H2 as [j Hj].
      assert (dirs.*1 !! i = Some n1) as Hi' by (by rewrite list_lookup_fmap, Hi).
      assert (dirs.*1 !! j = Some n1) as Hj' by (by rewrite list_lookup_fmap, Hj).
      pose proof (NoDup_lookup _ _ _ _ Hndd Hi' Hj') as ->. congruence.
Qed.

(** X17. In a tree of proper names where no directory lists a name twice,
    [scan] yields no path twice. *)
Theorem scan_yields_no_file_twice
  (self : FileScanner) (project_path : string) (t : tree) :
  names_ok t = true -> distinct_names t = true ->
  NoDup (scan fnmatch abspath self project_path t).
Proof. intros. by apply scan_walk_once. Qed.

Lemma flat_map_same {A B} (f g : A -> list B) (l : list A) :
  (forall x, x ∈ l -> f x = g x) -> flat_map f l = flat_map g l.
Proof.
  induction l as [|x l IH]; intros H; [done|]. cbn [flat_map].
  rewrite (H x) by (by left). rewrite IH; [done|].
  intros y Hy. apply H. by right.
Qed.

Lemma scan_walk_without_excludes self project project' t :
  exclude_patterns self = [] ->
  forall root,
    scan_walk fnmatch abspath self project root t
    = scan_walk fnmatch abspath self project' root t.
Proof.
  intros Hex. induction t as [files dirs IH] using tree_induction.
  intros root. cbn [scan_walk]. f_equal.
  - apply flat_map_ext. intros f. unfold _should_process_file.
    by rewrite Hex.
  - rewrite Forall_forall in IH.
    apply flat_map_same. intros d Hd.
    destruct (_should_exclude_dir self d.1); [done|].
    by apply IH.
Qed.

(** X18. [scan_multiple] yields the scans of the projects one after the
    other and removes nothing: when a project is given together with one of
    its kept sub-directories, and there are no exclude patterns, every file
    yielded for the sub-directory is yielded for the project as well, so the
    whole sequence holds it twice. *)
Theorem scan_multiple_repeats_overlapping_projects
  (self : FileScanner) (project_path d : string) (files : list string)
  (dirs : list (string * tree)) (sub : tree) (p : string) :
  let root := abspath project_path in
  let inner := path_join root d in
  let scans := scan_multiple fnmatch abspath self
                 [(project_path, Dir files dirs); (inner, sub)] in
  exclude_patterns self = [] ->
  (d, sub) ∈ dirs -> _should_exclude_dir self d = false ->
  abspath inner = inner ->
  scans = scan fnmatch abspath self project_path (Dir files dirs)
          ++ scan fnmatch abspath self inner sub
  /\ (p ∈ scan fnmatch abspath self inner sub ->
      p ∈ scan fnmatch abspath self project_path (Dir files dirs)
      /\ ~ NoDup scans).
Proof.
  intros root inner scans Hex Hd Hkeep Hinner.
  assert (scans = scan fnmatch abspath self project_path (Dir files dirs)
                  ++ scan fnmatch abspath self inner sub) as Hscans.
  { unfold scans, scan_multiple. cbn [flat_map fst snd]. by rewrite app_nil_r. }
  split; [done|]. intros Hp.
  assert (p ∈ scan fnmatch abspath self project_path (Dir files dirs)) as Hin.
  { unfold scan in *. fold root. rewrite Hinner in Hp. cbn [scan_walk].
    apply elem_of_app. right. apply list_elem_of_In, in_flat_map.
    exists (d, sub). split; [by apply list_elem_of_In|]. cbn [fst snd].
    rewrite Hkeep. apply list_elem_of_In.
    by rewrite (scan_walk_without_excludes self root inner sub Hex). }
  split; [done|]. rewrite Hscans. intros Hnd.
  apply NoDup_app in Hnd as (_ & Hdis & _). by apply (Hdis p).
Qed.

End ScanOnce.
(* ===================================================================== *)
(** * Making, finding and restoring backups *)
(* ===================================================================== *)

Section BackupMore.

Import Py Says Scanner.

Variable abspath : string -> string.

Variable json_loads : string -> result loaded.

(** [get_latest_backup] step by step. *)
Lemma get_latest_backup_steps refuses file_path project_path st :
  let mp := manifest_path (manager st) project_path in
  get_latest_backup refuses json_loads file_path project_path st
  = (match disk st !! mp with
     | None => Ok None
     | Some data =>
         match refuses (OpenRead mp) with
         | Some e => Raise e
         | None =>
             let* manifest := json_of json_loads data in
             let* manifest := dict_method "get" manifest in
             Ok (dict_get manifest file_path)
         end
     end, st).
Proof.
  intros mp.
  unfold get_latest_backup, mbind, get_self, path_exists, json_load, lift, ret.
  fold mp. destruct (disk st !! mp) as [data|] eqn:E.
  - rewrite bool_decide_eq_true_2 by eauto. cbn [negb]. rewrite E.
    destruct (refuses (OpenRead mp)); [done|].
    destruct (json_of json_loads data) as [[d|ty]|e]; done.
  - by rewrite bool_decide_eq_false_2 by (by intros [? ?]).
Qed.

Lemma get_latest_backup_present refuses file_path project_path st members :
  let mp := manifest_path (manager st) project_path in
  disk st !! mp = Some (Json members) ->
  get_latest_backup refuses json_loads file_path project_path st
  = (match refuses (OpenRead mp) with
     | Some e => Raise e
     | None => Ok (dict_get (dict_update [] members) file_path)
     end, st).
Proof.
  intros mp H. rewrite get_latest_backup_steps. fold mp. rewrite H.
  by destruct (refuses (OpenRead mp)).
Qed.

(** X19. After [create_backup] has returned a backup path for a file, the
    in-memory manifest maps the file to that path, the backup file holds
    what the file held, and [get_latest_backup] for the file and the
    project returns that path, unless the file system refuses the reading
    of the manifest; it changes nothing. *)
Theorem latest_backup_is_the_one_just_made
  (refuses refuses' : syscall -> option exn)
  (st st' : state) (timestamp file_path project_path bp : string) :
  create_backup abspath refuses json_loads timestamp file_path project_path st
  = (Ok bp, st') ->
  is_dict (_backup_manifest (manager st)) ->
  get_latest_backup refuses' json_loads file_path project_path st'
  = (match refuses' (OpenRead (manifest_path (manager st) project_path)) with
     | Some e => Raise e
     | None => Ok (Some bp)
     end, st')
  /\ dict_get (_backup_manifest (manager st')) file_path = Some bp
  /\ disk st' !! bp = disk st !! file_path.
Proof.
  intros H Hmem.
  pose proof H as Hret.
  apply create_backup_returns in Hret
    as (Hbp & Hfb & data & existing & Hdata & Hex & ->).
  cbn [manager disk with_manifest _backup_manifest].
  set (self := manager st) in *.
  set (mp := manifest_path self project_path) in *.
  set (mem := dict_set (_backup_manifest self) file_path bp) in *.
  assert (bp <> mp) as Hbm by (by apply backup_path_not_manifest in Hbp).
  split; [|split].
  - rewrite get_latest_backup_steps. cbv zeta.
    cbn [manager disk]. rewrite manifest_path_with_manifest. fold mp.
    rewrite lookup_insert_eq. destruct (refuses' (OpenRead mp)); [done|].
    cbn [json_of bind dict_method]. rewrite dict_load_id.
    + rewrite dict_get_update by (by apply dict_set_is_dict).
      unfold mem. by rewrite dict_get_set_same.
    + apply dict_update_is_dict. by eapply manifest_on_disk_is_dict.
  - unfold mem. by rewrite dict_get_set_same.
  - rewrite lookup_insert_ne, lookup_insert_eq by done. done.
Qed.

(** X20. [get_latest_backup] never changes the state.  It returns [None]
    when the project has no manifest file and when the manifest has no
    member for the file.  It raises when the manifest file is there and the
    file system refuses the reading, when [json.load] raises, and, with
    [AttributeError], when [json.load] returns a value that is no dict and
    so has no method [get]. *)
Theorem no_latest_backup_without_entry
  (refuses : syscall -> option exn)
  (st : state) (file_path project_path : string) :
  let mp := manifest_path (manager st) project_path in
  let run := get_latest_backup refuses json_loads file_path project_path st in
  run.2 = st
  /\ (disk st !! mp = None -> run.1 = Ok None)
  /\ (forall data members,
        disk st !! mp = Some data -> refuses (OpenRead mp) = None ->
        json_of json_loads data = Ok (Members members) ->
        file_path ∉ members.*1 ->
        run.1 = Ok None)
  /\ (forall data e,
        disk st !! mp = Some data -> refuses (OpenRead mp) = Some e ->
        run.1 = Raise e)
  /\ (forall data e,
        disk st !! mp = Some data -> refuses (OpenRead mp) = None ->
        json_of json_loads data = Raise e ->
        run.1 = Raise e)
  /\ (forall data type_name,
        disk st !! mp = Some data -> refuses (OpenRead mp) = None ->
        json_of json_loads data = Ok (Another type_name) ->
        run.1 = Raise (AttributeError
                         ("'" +:+ type_name
                          +:+ "' object has no attribute 'get'"))).
Proof.
  intros mp run. subst run. rewrite get_latest_backup_steps. fold mp.
  cbn [fst snd]. split_and!.
  - done.
  - by intros ->.
  - intros data members -> -> -> Hno. cbn [bind dict_method]. f_equal.
    apply dict_get_none. intros Hin. by apply Hno.
  - by intros data e -> ->.
  - by intros data e -> -> ->.
  - by intros data ty -> -> ->.
Qed.

Lemma replace_sep_no_slash s : all_chars no_slash (replace_sep s) = true.
Proof.
  induction s as [|c s IH]; [done|]. cbn [replace_sep all_chars].
  rewrite IH, andb_true_r. unfold no_slash.
  destruct (Ascii.eqb c "/") eqn:E; [done|]. by rewrite E.
Qed.

Lemma backup_path_shape self timestamp original_path project_path bp :
  _get_backup_path abspath self timestamp original_path project_path = Ok bp ->
  original_path <> ""
  /\ bp = with_slash (_get_backup_dir self project_path)
          +:+ replace_sep (relpath abspath original_path project_path)
          +:+ "_" +:+ timestamp +:+ suffix self.
Proof.
  unfold _get_backup_path. destruct original_path as [|c p]; [done|].
  cbn [is_empty]. intros [= <-]. split; [done|].
  rewrite path_join_relative; [done|]. apply replace_sep_relative.
Qed.

(** X21. A [create_backup] that returns has written two files and no
    other: the backup, which holds what the file held, and the manifest,
    which maps the file to the backup.  The backup path differs from the
    path of the file and from the path of the manifest, and it lies in the
    backup directory itself: the name after the directory has no slash when
    the time stamp and the suffix have none. *)
Theorem create_backup_writes_the_copy_and_the_manifest
  (refuses : syscall -> option exn)
  (st st' : state) (timestamp file_path project_path bp : string) :
  create_backup abspath refuses json_loads timestamp file_path project_path st
  = (Ok bp, st') ->
  is_dict (_backup_manifest (manager st)) ->
  let self := manager st in
  let mp := manifest_path self project_path in
  (exists data, disk st !! file_path = Some data /\ disk st' !! bp = Some data)
  /\ (exists members, disk st' !! mp = Some (Json members)
                      /\ dict_get members file_path = Some bp)
  /\ (forall p, p <> bp -> p <> mp -> disk st' !! p = disk st !! p)
  /\ bp <> file_path /\ bp <> mp
  /\ (exists name,
        bp = with_slash (_get_backup_dir self project_path) +:+ name
        /\ (all_chars no_slash timestamp = true ->
            all_chars no_slash (suffix self) = true ->
            all_chars no_slash name = true)).
Proof.
  intros H Hmem self mp.
  apply create_backup_returns in H
    as (Hbp & Hfb & data & existing & Hdata & Hex & ->).
  fold self in Hbp, Hex |- *. fold mp in Hex |- *.
  cbn [manager disk].
  assert (bp <> mp) as Hbm by (by apply backup_path_not_manifest in Hbp).
  split_and!.
  - exists data. split; [done|]. by rewrite lookup_insert_ne, lookup_insert_eq.
  - eexists. split; [by rewrite lookup_insert_eq|].
    rewrite dict_get_update by (by apply dict_set_is_dict).
    by rewrite dict_get_set_same.
  - intros p Hp1 Hp2. by rewrite !lookup_insert_ne.
  - done.
  - done.
  - apply backup_path_shape in Hbp as [_ ->].
    eexists. split; [reflexivity|].
    intros Hts Hsuf. rewrite !all_chars_app, replace_sep_no_slash, Hts, Hsuf.
    done.
Qed.


Lemma mbind_raises {A B} (m : M A) (k : A -> M B) st e st' :
  mbind m k st = (Raise e, st') ->
  m st = (Raise e, st')
  \/ exists a st1, m st = (Ok a, st1) /\ k a st1 = (Raise e, st').
Proof.
  unfold mbind. destruct (m st) as [[a|e0] st1]; [|left; congruence].
  intros H. right. by exists a, st1.
Qed.

Lemma save_manifest_raises refuses project_path st e st1 :
  _save_manifest refuses json_loads project_path st = (Raise e, st1) ->
  st1 = st.
Proof.
  unfold _save_manifest, mbind, get_self, path_exists, json_load, lift,
    json_dump, ret.
  set (mp := manifest_path (manager st) project_path).
  destruct (disk st !! mp) as [data|] eqn:E.
  - rewrite bool_decide_eq_true_2 by eauto. rewrite E.
    destruct (refuses (OpenRead mp)); [by intros [= _ <-]|].
    destruct (json_of json_loads data) as [[d|ty]|e0]; cbn [dict_method];
      [|by intros [= _ <-]..].
    destruct (refuses (OpenWrite mp)); [by intros [= _ <-]|done].
  - rewrite bool_decide_eq_false_2 by (by intros [? ?]). cbn [dict_method].
    destruct (refuses (OpenWrite mp)); [by intros [= _ <-]|done].
Qed.

(** What a [create_backup] that raises has done: nothing, or the copy and
    the entry of the in-memory manifest. *)
Lemma create_backup_raises refuses
  (st st' : state) (timestamp file_path project_path : string) (e : exn) :
  create_backup abspath refuses json_loads timestamp file_path project_path st
  = (Raise e, st') ->
  let self := manager st in
  st' = st
  \/ exists bp data,
       _get_backup_path abspath self timestamp file_path project_path = Ok bp
       /\ bp <> file_path
       /\ disk st !! file_path = Some data
       /\ st' = {| manager :=
                     with_manifest self
                       (dict_set (_backup_manifest self) file_path bp);
                   disk := <[bp := data]> (disk st) |}.
Proof.
  intros H self. unfold create_backup in H.
  apply mbind_raises in H as [H|(a & st1 & Ha & H)]; [discriminate|].
  apply get_self_returns in Ha as [-> ->]. fold self in H.
  apply mbind_raises in H as [H|([] & st1 & Ha & H)].
  { left. unfold makedirs in H.
    destruct (disk st !! _); [by injection H as _ <-|].
    destruct (refuses _); [by injection H as _ <-|discriminate]. }
  apply makedirs_returns in Ha as [_ ->].
  apply mbind_raises in H as [H|(bp & st1 & Ha & H)].
  { left. unfold lift in H. by injection H as _ <-. }
  unfold lift in Ha. injection Ha as Hbp <-.
  apply mbind_raises in H as [H|([] & st1 & Ha & H)].
  { left. unfold copy2 in H.
    destruct (disk st !! file_path) as [data|]; [|by injection H as _ <-].
    destruct (String.eqb file_path bp); [by injection H as _ <-|].
    destruct (refuses _); [by injection H as _ <-|discriminate]. }
  apply copy2_returns in Ha as (data & Hdata & Hne & ->).
  apply mbind_raises in H as [H|([] & st1 & Ha & H)]; [discriminate|].
  apply manifest_setitem_returns in Ha as ->.
  apply mbind_raises in H as [H|([] & st1 & Ha & H)]; [|discriminate].
  apply save_manifest_raises in H as ->.
  right. exists bp, data. by split_and!.
Qed.




Lemma separate_cons e d : separate (e :: d) -> separate d.
Proof.
  intros H o b o' b' H1 H2. apply (H o b o' b'); apply elem_of_cons; by right.
Qed.

Lemma restore_items_all refuses (items : list (string * string)) restored st :
  is_dict items -> separate items ->
  Forall (fun e => not_refused refuses e = true) (restorable (disk st) items) ->
  exists st',
    restore_items refuses items restored st
    = (Ok (restored ++ (restorable (disk st) items).*1), st')
    /\ manager st' = manager st
    /\ (forall o b data, (o, b) ∈ items -> disk st !! b = Some data ->
                         disk st' !! o = Some data)
    /\ (forall p, p ∉ (restorable (disk st) items).*1 ->
                  disk st' !! p = disk st !! p).
Proof.
  revert restored st.
  induction items as [|[o b] items IH]; intros restored st Hdict Hsep Hok.
  - exists st. cbn. rewrite app_nil_r. split_and!; try done.
    intros o b data Hin. by apply elem_of_nil in Hin.
  - rewrite restore_items_cons.
    assert (is_dict items) as Hdict'.
    { unfold is_dict in *. cbn in Hdict. by apply NoDup_cons in Hdict as [_ ?]. }
    assert (o ∉ items.*1) as Hfresh.
    { unfold is_dict in Hdict. cbn in Hdict. by apply NoDup_cons in Hdict as [? _]. }
    pose proof (separate_cons _ _ Hsep) as Hsep'.
    unfold restorable in Hok |- *. cbn [List.filter] in Hok |- *.
    fold (restorable (disk st) items) in Hok |- *.
    change (present (disk st) (o, b))
      with (bool_decide (is_Some (disk st !! b))) in Hok |- *.
    destruct (disk st !! b) as [data|] eqn:Eb.
    + rewrite bool_decide_eq_true_2 in Hok |- * by eauto.
      apply Forall_cons in Hok as [Hcopy%not_refused_copy Hok].
      assert (b <> o) as Hbo.
      { intros ->. apply (Hsep o o o o); [apply elem_of_cons; by left..|done]. }
      apply String.eqb_neq in Hbo as Hbo'. rewrite Hbo', Hcopy.
      assert (restorable (disk (written o data st)) items
              = restorable (disk st) items) as Hsame.
      { unfold restorable. apply List.filter_ext_in. intros [o' b'] Hin.
        unfold present. cbn [snd disk written].
        rewrite lookup_insert_ne; [done|].
        apply (Hsep o b o' b'); apply elem_of_cons; [by left|right].
        by apply list_elem_of_In. }
      rewrite <- Hsame in Hok.
      destruct (IH (restored ++ [o]) (written o data st) Hdict' Hsep' Hok)
        as (st' & Hrun & Hman & Hres & Hframe).
      rewrite Hsame in Hrun, Hframe.
      exists st'. split_and!.
      * rewrite Hrun. by rewrite <- app_assoc.
      * done.
      * intros o' b' data' Hin Hb'.
        apply elem_of_cons in Hin as [[= -> ->]|Hin].
        -- rewrite Hframe.
           ++ cbn [disk written]. rewrite lookup_insert_eq. congruence.
           ++ intros Hin. apply Hfresh.
              apply list_elem_of_fmap in Hin as (e & -> & Hin).
              apply list_elem_of_In, List.filter_In in Hin as [Hin _].
              apply list_elem_of_fmap. exists e. split; [done|].
              by apply list_elem_of_In.
        -- apply (Hres o' b' data' Hin). cbn [disk written].
           rewrite lookup_insert_ne; [done|].
           apply (Hsep o b o' b'); apply elem_of_cons; [by left|by right].
      * intros p Hp. cbn [fmap list_fmap fst] in Hp.
        apply not_elem_of_cons in Hp as [Hpo Hp].
        rewrite (Hframe p Hp). cbn [disk written].
        by rewrite lookup_insert_ne.
    + rewrite bool_decide_eq_false_2 in Hok |- * by (by intros [? ?]).
      destruct (IH restored st Hdict' Hsep' Hok)
        as (st' & Hrun & Hman & Hres & Hframe).
      exists st'. split_and!; try done.
      intros o' b' data' Hin Hb'.
      apply elem_of_cons in Hin as [[= -> ->]|Hin]; [congruence|].
      by apply (Hres o' b' data').
Qed.

(** X23. When no original path of the manifest is also a backup path of
    it, and the file system lets the manifest be read and the backups that
    exist be copied back, [restore_all] returns, in the order of the
    manifest, the original paths whose backup file exists; each of these
    files then holds what its backup holds; an entry whose backup file is
    missing is passed over; a path that is not returned holds what it held;
    and the manager is as it was. *)
Theorem restore_all_restores_every_entry
  (refuses : syscall -> option exn)
  (st : state) (project_path : string) (manifest : list (string * string)) :
  let mp := manifest_path (manager st) project_path in
  manifest_on_disk json_loads (disk st) mp = Some manifest ->
  separate manifest ->
  refuses (OpenRead mp) = None ->
  forallb (not_refused refuses) (restorable (disk st) manifest) = true ->
  exists st',
    restore_all refuses json_loads project_path st
    = (Ok (restorable (disk st) manifest).*1, st')
    /\ manager st' = manager st
    /\ (forall o b data,
          (o, b) ∈ manifest -> disk st !! b = Some data ->
          disk st' !! o = Some data
          /\ o ∈ (restorable (disk st) manifest).*1)
    /\ (forall o b, (o, b) ∈ manifest -> disk st !! b = None ->
                    o ∉ (restorable (disk st) manifest).*1)
    /\ (forall p, p ∉ (restorable (disk st) manifest).*1 ->
                  disk st' !! p = disk st !! p).
Proof.
  intros mp Hm Hsep Hread Hcopies.
  pose proof (manifest_on_disk_is_dict _ _ _ _ Hm) as Hdict.
  assert (Forall (fun e => not_refused refuses e = true)
            (restorable (disk st) manifest)) as Hok.
  { apply Forall_forall. intros e He. rewrite forallb_forall in Hcopies.
    apply Hcopies. by apply list_elem_of_In. }
  destruct (restore_items_all refuses manifest [] st Hdict Hsep Hok)
    as (st' & Hrun & Hman & Hres & Hframe).
  cbn [app] in Hrun.
  assert (forall o b, (o, b) ∈ manifest -> disk st !! b = None ->
                      o ∉ (restorable (disk st) manifest).*1) as Hskip.
  { intros o b Hin Hb Ho.
    apply list_elem_of_fmap in Ho as ([o' b'] & Heq & Ho). cbn in Heq. subst o'.
    apply list_elem_of_In, List.filter_In in Ho as [Ho Hp].
    apply list_elem_of_In in Ho.
    unfold present in Hp. cbn in Hp. apply bool_decide_eq_true_1 in Hp.
    assert (b' = b) as ->.
    { apply (dict_elem_get _ _ _ Hdict) in Hin, Ho. congruence. }
    rewrite Hb in Hp. by destruct Hp. }
  assert (forall o b data, (o, b) ∈ manifest -> disk st !! b = Some data ->
                           o ∈ (restorable (disk st) manifest).*1) as Hlisted.
  { intros o b data Hin Hb. apply list_elem_of_fmap. exists (o, b).
    split; [done|]. apply list_elem_of_In, List.filter_In.
    split; [by apply list_elem_of_In|].
    unfold present. cbn. apply bool_decide_eq_true_2. eauto. }
  unfold manifest_on_disk in Hm. fold mp in Hm.
  destruct (disk st !! mp) as [data|] eqn:E.
  - destruct (json_of json_loads data) as [[d|ty]|e] eqn:Ej; [|done..].
    injection Hm as ->. exists st'. split_and!; try done.
    + by rewrite (restore_all_loaded _ _ _ _ _ _ E Hread Ej).
    + intros o b data' Hin Hb. split; [by eapply Hres|by eapply Hlisted].
  - injection Hm as <-. exists st. split_and!; try done.
    + exact (restore_all_without_manifest refuses json_loads project_path st E).
    + intros o b data Hin. by apply elem_of_nil in Hin.
Qed.


Lemma replace_sep_app a b :
  replace_sep (a +:+ b) = replace_sep a +:+ replace_sep b.
Proof. induction a as [|c a IH]; [done|]. cbn. by rewrite IH. Qed.

Lemma replace_sep_name n : all_chars no_slash n = true -> replace_sep n = n.
Proof.
  induction n as [|c n IH]; [done|]. cbn [all_chars replace_sep].
  intros [Hc Hn]%andb_true_iff. rewrite (IH Hn).
  unfold no_slash in Hc. apply negb_true_iff in Hc. by rewrite Hc.
Qed.

Lemma replace_sep_names n ns :
  Forall (fun m => name_ok m = true) (n :: ns) ->
  replace_sep (join "/" (n :: ns)) = join "_" (n :: ns).
Proof.
  unfold join. revert n. induction ns as [|m ms IH]; intros n Hall.
  - apply Forall_cons in Hall as [[_ Hn]%name_ok_spec _].
    cbn. by apply replace_sep_name.
  - apply Forall_cons in Hall as [[_ Hn]%name_ok_spec Hall].
    change (String.concat "/" (n :: m :: ms))
      with (n +:+ "/" +:+ String.concat "/" (m :: ms)).
    change (String.concat "_" (n :: m :: ms))
      with (n +:+ "_" +:+ String.concat "_" (m :: ms)).
    rewrite !replace_sep_app, (replace_sep_name n Hn), (IH m Hall). done.
Qed.

Lemma path_of_not_empty root ds f :
  Forall (fun m => name_ok m = true) (ds ++ [f]) -> path_of root ds f <> "".
Proof.
  intros Hall. destruct (path_of_names root ds f Hall) as (n & ns & Hn & ->).
  rewrite Hn in Hall. apply Forall_cons in Hall as [[Hne _]%name_ok_spec _].
  intros H. assert (len (with_slash root +:+ n +:+ slashed ns) = 0) as Hl
    by (by rewrite H).
  rewrite !len_app in Hl. destruct n; [done|]. cbn in Hl. lia.
Qed.

Lemma backup_path_of_names self timestamp root ds f :
  abspath root = root ->
  abspath (path_of root ds f) = path_of root ds f ->
  Forall (fun m => name_ok m = true) (ds ++ [f]) ->
  _get_backup_path abspath self timestamp (path_of root ds f) root
  = Ok (with_slash (_get_backup_dir self root)
        +:+ join "_" (ds ++ [f]) +:+ "_" +:+ timestamp +:+ suffix self).
Proof.
  intros Hroot Hpath Hall.
  pose proof (path_of_not_empty root ds f Hall) as Hne.
  unfold _get_backup_path.
  assert (is_empty (path_of root ds f) = false) as ->
    by (by destruct (path_of root ds f)).
  rewrite (relpath_of_path abspath root ds f Hroot Hpath Hall).
  destruct (ds ++ [f]) as [|n ns] eqn:En; [by destruct ds|].
  rewrite (replace_sep_names n ns Hall).
  rewrite path_join_relative; [done|].
  rewrite <- (replace_sep_names n ns Hall). apply replace_sep_relative.
Qed.

(** X24. The backup path of a file of the project is the backup directory,
    then the names of the directories of the file and of the file joined by
    underscores, then an underscore, the time stamp and the suffix. *)
Theorem backup_name_flattens_the_path
  (self : BackupManager) (timestamp root : string) (ds : list string)
  (f : string) :
  abspath root = root ->
  abspath (path_of root ds f) = path_of root ds f ->
  Forall (fun m => name_ok m = true) (ds ++ [f]) ->
  _get_backup_path abspath self timestamp (path_of root ds f) root
  = Ok (with_slash (_get_backup_dir self root)
        +:+ join "_" (ds ++ [f]) +:+ "_" +:+ timestamp +:+ suffix self).
Proof. apply backup_path_of_names. Qed.

Lemma name_ok_glued d f :
  name_ok d = true -> name_ok f = true -> name_ok (d +:+ "_" +:+ f) = true.
Proof.
  intros [Hd1 Hd2]%name_ok_spec [Hf1 Hf2]%name_ok_spec. unfold name_ok.
  rewrite !all_chars_app, Hd2, Hf2. by destruct d.
Qed.

(** X25. The file [f] in the directory [d] and the file [d_f] beside that
    directory are different files with the same backup path.  Backed up
    within one second, the second backup overwrites the first: the manifest
    maps both files to one backup file, and this file holds what the second
    file held.  [get_latest_backup] returns that one path for either file,
    unless the file system refuses the reading of the manifest. *)
Theorem backups_of_different_files_collide
  (refuses1 refuses2 refuses3 : syscall -> option exn)
  (st0 st1 st2 : state) (timestamp root d f bp1 bp2 : string) :
  let f1 := path_of root [d] f in
  let f2 := path_of root [] (d +:+ "_" +:+ f) in
  let found :=
    match refuses3 (OpenRead (manifest_path (manager st0) root)) with
    | Some e => Raise e
    | None => Ok (Some bp1)
    end in
  name_ok d = true -> name_ok f = true ->
  abspath root = root -> abspath f1 = f1 -> abspath f2 = f2 ->
  is_dict (_backup_manifest (manager st0)) ->
  create_backup abspath refuses1 json_loads timestamp f1 root st0
  = (Ok bp1, st1) ->
  create_backup abspath refuses2 json_loads timestamp f2 root st1
  = (Ok bp2, st2) ->
  f1 <> f2
  /\ bp2 = bp1
  /\ disk st1 !! bp1 = disk st0 !! f1
  /\ disk st2 !! bp1 = disk st1 !! f2
  /\ get_latest_backup refuses3 json_loads f1 root st2 = (found, st2)
  /\ get_latest_backup refuses3 json_loads f2 root st2 = (found, st2).
Proof.
  intros f1 f2 found Hd Hf Hroot Hf1 Hf2 Hmem H1 H2.
  assert (Forall (fun m => name_ok m = true) ([d] ++ [f])) as Hall1
    by (by repeat constructor).
  assert (Forall (fun m => name_ok m = true) ([] ++ [d +:+ "_" +:+ f])) as Hall2
    by (repeat constructor; by apply name_ok_glued).
  assert (f1 <> f2) as Hne.
  { intros Heq. by apply path_of_inj in Heq as [[=] _]. }
  apply create_backup_returns in H1
    as (Hbp1 & Hfb1 & data1 & ex0 & Hdata1 & Hex0 & ->).
  apply create_backup_returns in H2
    as (Hbp2 & Hfb2 & data2 & ex1 & Hdata2 & Hex1 & ->).
  cbn [manager disk with_manifest _backup_manifest] in *.
  rewrite ?manifest_path_with_manifest in *.
  set (self := manager st0) in *.
  set (mp := manifest_path self root) in *.
  fold f1 in Hbp1. fold f2 in Hbp2.
  unfold f1 in Hbp1 at 1. unfold f2 in Hbp2 at 1.
  rewrite backup_path_of_names in Hbp1 by done.
  rewrite backup_path_of_names in Hbp2 by done.
  assert (bp2 = bp1) as ->.
  { injection Hbp1 as <-. injection Hbp2 as <-. unfold join. cbn. done. }
  assert (bp1 <> mp) as Hbm.
  { apply (backup_path_not_manifest abspath self timestamp f1 root).
    unfold f1 at 1. by rewrite backup_path_of_names. }
  set (mem1 := dict_set (_backup_manifest self) f1 bp1) in *.
  set (mem2 := dict_set mem1 f2 bp1) in *.
  assert (is_dict mem2) as Hmem2 by (by do 2 apply dict_set_is_dict).
  assert (is_dict (dict_update ex1 mem2)) as Hd2.
  { apply dict_update_is_dict. by eapply manifest_on_disk_is_dict. }
  split_and!; try done.
  - rewrite lookup_insert_ne, lookup_insert_eq by done. done.
  - rewrite lookup_insert_ne, lookup_insert_eq by done. done.
  - rewrite (get_latest_backup_present _ _ _ _ (dict_update ex1 mem2)).
    + cbn [manager]. rewrite !manifest_path_with_manifest. fold mp.
      rewrite (dict_load_id _ Hd2), dict_get_update by done.
      unfold mem2, mem1.
      rewrite dict_get_set_other by done. by rewrite dict_get_set_same.
    + cbn [manager disk]. rewrite !manifest_path_with_manifest. fold mp.
      by rewrite lookup_insert_eq.
  - rewrite (get_latest_backup_present _ _ _ _ (dict_update ex1 mem2)).
    + cbn [manager]. rewrite !manifest_path_with_manifest. fold mp.
      rewrite (dict_load_id _ Hd2), dict_get_update by done.
      unfold mem2. by rewrite dict_get_set_same.
    + cbn [manager disk]. rewrite !manifest_path_with_manifest. fold mp.
      by rewrite lookup_insert_eq.
Qed.

End BackupMore.
(* ===================================================================== *)
(** * The file processor *)
(* ===================================================================== *)

Section Processor.

Import Py Says Scanner.

Variable abspath : string -> string.
Variable json_loads : string -> result loaded.
Variable json_text : dict -> string.

Lemma write_text_steps refuses file_path content st :
  write_text refuses file_path content st
  = match refuses (OpenWrite file_path) with
    | Some e => (Raise e, st)
    | None => (Ok tt, written file_path (Text content) st)
    end.
Proof. reflexivity. Qed.

Lemma write_file_without_backup refuses self timestamp file_path content
  project_path flag st :
  backs_up self project_path flag = false ->
  write_file abspath refuses json_loads self timestamp file_path content
    project_path flag st
  = write_text refuses file_path content st.
Proof.
  unfold backs_up, write_file. intros ->. done.
Qed.

Lemma write_file_with_backup refuses self timestamp file_path content root
  flag st :
  backs_up self (Some root) flag = true ->
  write_file abspath refuses json_loads self timestamp file_path content
    (Some root) flag st
  = match create_backup abspath refuses json_loads timestamp file_path root st
    with
    | (Ok _, st1) => write_text refuses file_path content st1
    | (Raise e, st1) => (Raise e, st1)
    end.
Proof.
  unfold backs_up, write_file. intros ->. cbn [default from_option].
  unfold mbind at 1 2. unfold id.
  destruct (create_backup abspath refuses json_loads timestamp file_path root st)
    as [[bp|e] st1]; done.
Qed.

(** X26. [write_file] makes the backup first and writes then, to the state
    that the backup has left; the writing itself raises, and changes
    nothing, when the file system refuses it.  Without a backup manager, a
    project path or the flag, it writes at once.  When the backup raises,
    [write_file] raises the same exception and the file is not written;
    when it returns, the backup holds what the file held before the call,
    whether the writing succeeds or not. *)
Theorem write_file_backs_up_first
  (refuses : syscall -> option exn)
  (self : FileProcessor) (timestamp file_path content : string)
  (project_path : option string) (flag : bool) (st : state) :
  let run :=
    write_file abspath refuses json_loads self timestamp file_path content
      project_path flag st in
  let writing st1 :=
    match refuses (OpenWrite file_path) with
    | Some e => (Raise e, st1)
    | None => (Ok tt, written file_path (Text content) st1)
    end in
  (backs_up self project_path flag = false -> run = writing st)
  /\ (forall root,
        project_path = Some root -> backs_up self project_path flag = true ->
        (forall e st',
           create_backup abspath refuses json_loads timestamp file_path root st
           = (Raise e, st') ->
           run = (Raise e, st')
           /\ (file_path <> manifest_path (manager st) root ->
               disk st' !! file_path = disk st !! file_path))
        /\ (forall bp st1,
              create_backup abspath refuses json_loads timestamp file_path
                root st
              = (Ok bp, st1) ->
              run = writing st1
              /\ bp <> file_path
              /\ disk run.2 !! bp = disk st !! file_path
              /\ is_Some (disk st !! file_path))).
Proof.
  intros run writing. split.
  { intros Hoff. subst run.
    by rewrite (write_file_without_backup _ _ _ _ _ _ _ _ Hoff). }
  intros root -> Hon. subst run.
  rewrite (write_file_with_backup _ _ _ _ _ _ _ _ Hon). split.
  - intros e st' Hc. rewrite Hc. split; [done|]. intros _.
    apply create_backup_raises in Hc as [->|(bp & data & _ & Hne & _ & ->)];
      [done|].
    cbn [disk]. by rewrite lookup_insert_ne.
  - intros bp st1 Hc. rewrite Hc. split; [done|].
    apply create_backup_returns in Hc
      as (Hbp & Hfb & data & existing & Hdata & Hex & ->).
    assert (bp <> manifest_path (manager st) root) as Hbm
      by (by apply backup_path_not_manifest in Hbp).
    split; [done|]. rewrite write_text_steps, Hdata.
    split; [|by eauto].
    destruct (refuses (OpenWrite file_path)); cbn [snd disk written].
    + by rewrite lookup_insert_ne, lookup_insert_eq.
    + by rewrite lookup_insert_ne, lookup_insert_ne, lookup_insert_eq.
Qed.

Lemma process_file_steps refuses self timestamp file_path processor_func
  project_path flag dry_run st :
  process_file abspath refuses json_loads json_text self timestamp file_path
    processor_func project_path flag dry_run st
  = match disk st !! file_path with
    | None => (Raise (FileNotFoundError (no_such_file file_path)), st)
    | Some data =>
        match refuses (OpenRead file_path) with
        | Some e => (Raise e, st)
        | None =>
            let content := universal_newlines (text_of_file json_text data) in
            match processor_func content with
            | Raise e => (Raise e, st)
            | Ok processed =>
                if negb dry_run && negb (String.eqb content processed)
                then
                  match write_file abspath refuses json_loads self timestamp
                          file_path processed project_path flag st with
                  | (Ok _, st') => (Ok processed, st')
                  | (Raise e, st') => (Raise e, st')
                  end
                else (Ok processed, st)
            end
        end
    end.
Proof.
  unfold process_file, mbind at 1, read_file.
  destruct (disk st !! file_path) as [data|]; [|done].
  destruct (refuses (OpenRead file_path)); [done|]. cbv zeta.
  unfold mbind at 1, lift.
  destruct (processor_func _) as [processed|e]; [|done].
  unfold mbind at 1.
  destruct (negb dry_run && negb (String.eqb _ processed)); [|done].
  destruct (write_file _ _ _ _ _ _ _ _ _ st) as [[u|e] st']; done.
Qed.


(** X28. A file that [process_file] has changed, with a backup, gets back
    from [restore_all] what it held before, byte for byte, under the
    conditions of the restoring: the file is not the manifest file, no
    manifest entry found at the start has an original path that is its own
    backup path or the path of the new backup, and the file system lets
    [restore_all] read the manifest and copy these entries, and the new
    backup, back.  Before the restoring the file holds what the function
    returned, and the backup what the file held. *)
Theorem process_file_then_restore_all
  (refuses refuses' : syscall -> option exn)
  (self : FileProcessor) (timestamp file_path root bp : string)
  (processor_func : string -> result string)
  (st st1 : state) (data : file_data) (processed : string) :
  let mp := manifest_path (manager st) root in
  let entries :=
    default [] (manifest_on_disk json_loads (disk st) mp)
    ++ _backup_manifest (manager st) in
  backs_up self (Some root) true = true ->
  disk st !! file_path = Some data ->
  processed <> universal_newlines (text_of_file json_text data) ->
  process_file abspath refuses json_loads json_text self timestamp file_path
    processor_func (Some root) true false st = (Ok processed, st1) ->
  _get_backup_path abspath (manager st) timestamp file_path root = Ok bp ->
  is_dict (_backup_manifest (manager st)) ->
  file_path <> mp ->
  forallb (safe_entry bp) entries = true ->
  refuses' (OpenRead mp) = None ->
  forallb (not_refused refuses') ((file_path, bp) :: entries) = true ->
  disk st1 !! file_path = Some (Text processed)
  /\ disk st1 !! bp = Some data
  /\ exists restored st2,
       restore_all refuses' json_loads root st1 = (Ok restored, st2)
       /\ disk st2 !! file_path = Some data
       /\ file_path ∈ restored.
Proof.
  intros mp entries Hon Hdata Hne Hrun Hbp Hmem Hfm Hsafe Hread Hcopies.
  subst entries.
  rewrite process_file_steps, Hdata in Hrun.
  destruct (refuses (OpenRead file_path)); [discriminate|]. cbv zeta in Hrun.
  set (content := universal_newlines (text_of_file json_text data)) in *.
  destruct (processor_func content) as [p|e]; [|discriminate].
  apply not_eq_sym, String.eqb_neq in Hne as Hne'.
  destruct (decide (p = processed)) as [->|Hp].
  2:{ destruct (negb false && negb (String.eqb content p));
        [|by injection Hrun].
      destruct (write_file _ _ _ _ _ _ _ _ _ st) as [[u|e] st'];
        [by injection Hrun|discriminate]. }
  rewrite Hne' in Hrun. cbn [negb andb] in Hrun.
  rewrite (write_file_with_backup _ _ _ _ _ _ _ _ Hon) in Hrun.
  destruct (create_backup abspath refuses json_loads timestamp file_path root st)
    as [[bp'|e] st'] eqn:Hc; [|discriminate].
  rewrite write_text_steps in Hrun.
  destruct (refuses (OpenWrite file_path)); [discriminate|].
  injection Hrun as <-.
  apply create_backup_returns in Hc
    as (Hbp' & Hfb & data' & ex & Hdata' & Hex & ->).
  assert (bp' = bp) as -> by congruence.
  assert (data' = data) as -> by congruence.
  fold mp in Hex. rewrite Hex in Hsafe, Hcopies.
  cbn [default from_option] in Hsafe, Hcopies.
  set (mem := dict_set (_backup_manifest (manager st)) file_path bp) in *.
  set (d := dict_update ex mem) in *.
  assert (bp <> mp) as Hbm by (by apply backup_path_not_manifest in Hbp).
  assert (is_dict d) as Hd.
  { apply dict_update_is_dict. by eapply manifest_on_disk_is_dict. }
  assert (dict_get d file_path = Some bp) as Hget.
  { unfold d. rewrite dict_get_update by (by apply dict_set_is_dict).
    unfold mem. by rewrite dict_get_set_same. }
  assert (Forall (fun e => safe_entry bp e = true) d) as Hsafe'.
  { apply Forall_forall. intros e He. rewrite forallb_forall in Hsafe.
    assert (safe_entry bp (file_path, bp) = true) as Hs.
    { unfold safe_entry. simpl. apply andb_true_iff.
      split; apply negb_true_iff, String.eqb_neq; done. }
    apply dict_update_elem in He as [He|He].
    - apply Hsafe, in_or_app. left. by apply list_elem_of_In.
    - apply dict_set_elem in He as [He| ->]; [|done].
      apply Hsafe, in_or_app. right. by apply list_elem_of_In. }
  assert (Forall (fun e => not_refused refuses' e = true) d) as Hok.
  { apply Forall_forall. intros e He.
    cbn [forallb] in Hcopies. apply andb_true_iff in Hcopies as [Hc Hrest].
    rewrite forallb_forall in Hrest.
    apply dict_update_elem in He as [He|He].
    - apply Hrest, in_or_app. left. by apply list_elem_of_In.
    - apply dict_set_elem in He as [He| ->]; [|done].
      apply Hrest, in_or_app. right. by apply list_elem_of_In. }
  cbn [disk written manager].
  split; [by rewrite lookup_insert_eq|].
  split; [by rewrite lookup_insert_ne, lookup_insert_ne, lookup_insert_eq|].
  match goal with |- context [restore_all _ _ root ?s] => set (st1 := s) end.
  destruct (restore_items_target refuses' d st1 file_path bp data Hd Hget)
    as (restored & st2 & Hr & Hfile & Hin); [|done|done|].
  { unfold st1. cbn [disk written].
    by rewrite lookup_insert_ne, lookup_insert_ne, lookup_insert_eq. }
  exists restored, st2. split; [|done].
  rewrite (restore_all_present _ _ _ _ d).
  - by rewrite (dict_load_id _ Hd).
  - unfold st1. cbn [manager disk written].
    rewrite manifest_path_with_manifest. fold mp.
    by rewrite lookup_insert_ne, lookup_insert_eq.
  - unfold st1. cbn [manager written].
    by rewrite manifest_path_with_manifest.
Qed.

End Processor.
(* ===================================================================== *)
(** * The counters of the report *)
(* ===================================================================== *)

Section Report.

Import Py Says Reporter.

Lemma report_of_totals start frs :
  let r := report_of start frs in
  files r = files start ++ frs
  /\ total_files_scanned r
     = (total_files_scanned start + Z.of_nat (length frs))%Z
  /\ total_files_masked r
     = (total_files_masked start + Z.of_nat (length (List.filter counted frs)))%Z
  /\ total_items_masked r = (total_items_masked start + items_of frs)%Z
  /\ errors r = errors start ++ omap error_line frs
  /\ project_path r = project_path start
  /\ timestamp r = timestamp start
  /\ llm_used r = llm_used start /\ dry_run r = dry_run start.
Proof.
  unfold report_of. revert start.
  induction frs as [|fr frs IH]; intros start; cbn [fold_left].
  - cbn. rewrite !app_nil_r, !Z.add_0_r. done.
  - destruct (IH (add_file_report start fr))
      as (H1 & H2 & H3 & H4 & H5 & H6 & H7 & H8 & H9).
    cbv zeta. rewrite H1, H2, H3, H4, H5, H6, H7, H8, H9.
    cbn [add_file_report files total_files_scanned total_files_masked
         total_items_masked errors project_path timestamp llm_used dry_run
         List.filter items_of omap list_omap length].
    fold (counted fr). unfold error_line at 2.
    rewrite <- !app_assoc. cbn [app].
    split_and!; try done.
    + lia.
    + destruct (counted fr); cbn [length]; lia.
    + destruct (counted fr); lia.
    + destruct (error_text fr); [by rewrite <- app_assoc|done].
Qed.

Lemma items_of_bounds frs :
  (Z.of_nat (length (List.filter counted frs)) <= items_of frs)%Z.
Proof.
  induction frs as [|fr frs IH]; [done|]. cbn [List.filter items_of].
  destruct (counted fr) eqn:E; cbn [length]; [|lia].
  unfold counted in E. apply andb_true_iff in E as [_ E].
  apply Z.ltb_lt in E. lia.
Qed.

(** X29. From a new report, after [add_file_report] for a sequence of file
    reports: [files] is the sequence, [total_files_scanned] its length,
    [total_files_masked] the number of file reports without error and with a
    positive count, [total_items_masked] the sum of their counts, and
    [errors] holds one line for each file report with an error that is not
    empty.  So the masked files are no more than the scanned files and no
    more than the masked items, and the errors no more than the scanned
    files. *)
Theorem report_counters
  (project timestamp : string) (llm dry : bool) (frs : list FileReport) :
  let r := report_of (new_report project timestamp llm dry) frs in
  files r = frs
  /\ total_files_scanned r = Z.of_nat (length frs)
  /\ total_files_masked r = Z.of_nat (length (List.filter counted frs))
  /\ total_items_masked r = items_of frs
  /\ errors r = omap error_line frs
  /\ (0 <= total_files_masked r <= total_files_scanned r)%Z
  /\ (total_files_masked r <= total_items_masked r)%Z
  /\ (Z.of_nat (length (errors r)) <= total_files_scanned r)%Z.
Proof.
  intros r.
  destruct (report_of_totals (new_report project timestamp llm dry) frs)
    as (H1 & H2 & H3 & H4 & H5 & _).
  fold r in H1, H2, H3, H4, H5. cbn in H1, H2, H3, H4, H5.
  rewrite H1, H2, H3, H4, H5. split_and!; try done.
  - lia.
  - pose proof (List.filter_length_le counted frs). lia.
  - apply items_of_bounds.
  - assert (length (omap error_line frs) <= length frs) as Hle.
    { clear. induction frs as [|fr frs IH]; [done|]. cbn.
      destruct (error_line fr); cbn; lia. }
    lia.
Qed.

(** X30. [has_errors] of a report is true iff some file report carries an
    error message that is not empty.  A file report whose error is the empty
    string, the [str] of an exception without message, is no success, is not
    counted as masked and adds no line to [errors]. *)
Theorem report_errors
  (project timestamp : string) (llm dry : bool) (frs : list FileReport) :
  let r := report_of (new_report project timestamp llm dry) frs in
  (has_errors r = true <->
   exists fr e, fr ∈ frs /\ error fr = Some e /\ e <> "")
  /\ (forall fr, fr ∈ frs -> error fr = Some "" ->
                 counted fr = false /\ error_line fr = None
                 /\ is_success fr = false).
Proof.
  intros r.
  destruct (report_of_totals (new_report project timestamp llm dry) frs)
    as (_ & _ & _ & _ & H5 & _).
  fold r in H5. cbn in H5. split.
  - unfold has_errors. rewrite H5, Nat.ltb_lt. split.
    + intros Hlen. destruct (omap error_line frs) as [|x xs] eqn:E;
        [cbn in Hlen; lia|].
      assert (x ∈ omap error_line frs) as Hx by (rewrite E; by left).
      apply list_elem_of_omap in Hx as (fr & Hfr & Hl).
      unfold error_line, error_text in Hl.
      destruct (error fr) as [e|] eqn:Ee; [|done].
      destruct e as [|c e]; [done|]. by exists fr, (String c e).
    + intros (fr & e & Hfr & He & Hne).
      assert (file_path fr +:+ ": " +:+ e ∈ omap error_line frs) as Hin.
      { apply list_elem_of_omap. exists fr. split; [done|].
        unfold error_line, error_text. rewrite He. by destruct e. }
      destruct (omap error_line frs); [by apply elem_of_nil in Hin|cbn; lia].
  - intros fr _ He. unfold counted, error_line, error_text, is_success.
    by rewrite He.
Qed.

End Report.
(* ===================================================================== *)
(** * The theorems at work *)
(* ===================================================================== *)

Section MoreExamples.

Import Py Masker Says Scanner.

(** The theorem at work: a YAML file without secrets. *)
Lemma result_without_items_is_unchanged_witness :
  exists r,
    mask_file Example.engine (VStr "application.yml")
      (VStr ("server:" +:+ Example.nl +:+ "  port: 8080")) = Ok r
    /\ masked_content r = VStr ("server:" +:+ Example.nl +:+ "  port: 8080").
Proof.
  eexists. split; [vm_compute; reflexivity|].
  apply (result_without_items_is_unchanged Example.engine
           (VStr "application.yml")).
  - vm_compute. reflexivity.
  - reflexivity.
Defined.

(** The theorem at work: [api_key] is added together with an opening
    bracket, which is passed over, and with a repetition count that ends the
    call with [OverflowError]; in the engine that the call leaves the token
    stays masked and the key of the API is masked as well. *)
Lemma widening_never_unmasks_witness :
  let run :=
    add_sensitive_patterns Example.compile_words Example.raises_words
      Example.engine ["api_key"; "["; Example.huge_repeat; "secret"] in
  exists r r',
    run.1 = Raise (OverflowError "the repetition number is too large")
    /\ mask_file Example.engine (VStr ".env") (VStr Example.env_with_api_key)
       = Ok r
    /\ mask_file run.2 (VStr ".env") (VStr Example.env_with_api_key) = Ok r'
    /\ map item_key (masked_items r) = ["TOKEN"]
    /\ map item_key (masked_items r') = ["TOKEN"; "API_KEY"]
    /\ forall it, it ∈ masked_items r -> it ∈ masked_items r'.
Proof.
  intros run. eexists. eexists.
  split; [reflexivity|].
  split; [vm_compute; reflexivity|].
  split; [vm_compute; reflexivity|].
  split; [reflexivity|]. split; [reflexivity|].
  apply (widening_never_unmasks Example.compile_words Example.raises_words
           Example.engine ["api_key"; "["; Example.huge_repeat; "secret"]
           (VStr ".env") (VStr Example.env_with_api_key)).
  - by split_and!.
  - vm_compute. reflexivity.
  - vm_compute. reflexivity.
Defined.

(** The theorem at work: the scan of the example project. *)
Lemma scan_yields_no_file_twice_witness :
  NoDup (scan Example.fnmatch_literal Example.abspath_id Example.scanner
           "/srv/app" Example.project_tree).
Proof.
  apply scan_yields_no_file_twice; vm_compute; reflexivity.
Defined.

(** The theorem at work: the example project is scanned together with its
    directory [src], and the file there is yielded twice. *)
Lemma scan_multiple_repeats_overlapping_projects_witness :
  "/srv/app/src/application.yml"
    ∈ scan Example.fnmatch_literal Example.abspath_id Example.scanner
        "/srv/app" Example.project_tree
  /\ ~ NoDup (scan_multiple Example.fnmatch_literal Example.abspath_id
                Example.scanner
                [("/srv/app", Example.project_tree);
                 ("/srv/app/src", Dir ["application.yml"] [])]).
Proof.
  refine (proj2 (scan_multiple_repeats_overlapping_projects
            Example.fnmatch_literal Example.abspath_id Example.scanner
            "/srv/app" "src" ["application.yml"; "README.md"] _
            (Dir ["application.yml"] []) "/srv/app/src/application.yml"
            _ _ _ _) _).
  - reflexivity.
  - apply list_elem_of_In. right. left. reflexivity.
  - vm_compute. reflexivity.
  - reflexivity.
  - apply list_elem_of_In. vm_compute. by left.
Defined.

(** The theorem at work: the backup of the first example file. *)
Lemma latest_backup_is_the_one_just_made_witness :
  let made :=
    create_backup Example.abspath_id Example.never_refuses Example.no_json
      "20240101_120000" "/srv/a/application.yml" "/srv/a"
      Example.two_projects in
  get_latest_backup Example.never_refuses Example.no_json
    "/srv/a/application.yml" "/srv/a" made.2
  = (Ok (Some "/srv/a/.masking_backup/application.yml_20240101_120000.backup"),
     made.2).
Proof.
  intros made.
  refine (proj1 (latest_backup_is_the_one_just_made Example.abspath_id
            Example.no_json Example.never_refuses Example.never_refuses
            Example.two_projects made.2 "20240101_120000"
            "/srv/a/application.yml" "/srv/a"
            "/srv/a/.masking_backup/application.yml_20240101_120000.backup"
            _ _)).
  - apply returned_state. by vm_compute.
  - apply NoDup_nil_2.
Defined.

(** The theorem at work: the backup holds the content of the example file. *)
Lemma create_backup_writes_the_copy_and_the_manifest_witness :
  let made :=
    create_backup Example.abspath_id Example.never_refuses Example.no_json
      "20240101_120000" "/srv/a/application.yml" "/srv/a"
      Example.two_projects in
  exists data,
    disk Example.two_projects !! "/srv/a/application.yml" = Some data
    /\ disk made.2
         !! "/srv/a/.masking_backup/application.yml_20240101_120000.backup"
       = Some data.
Proof.
  intros made.
  refine (proj1 (create_backup_writes_the_copy_and_the_manifest
            Example.abspath_id Example.no_json Example.never_refuses
            Example.two_projects made.2 "20240101_120000"
            "/srv/a/application.yml" "/srv/a"
            "/srv/a/.masking_backup/application.yml_20240101_120000.backup"
            _ _)).
  - apply returned_state. by vm_compute.
  - apply NoDup_nil_2.
Defined.


Lemma separate_checked (d : list (string * string)) :
  separate_check d = true -> separate d.
Proof.
  unfold separate_check. rewrite forallb_forall.
  intros H o b o' b' Hin Hin'.
  apply list_elem_of_In in Hin, Hin'.
  specialize (H (o, b) Hin). rewrite forallb_forall in H.
  specialize (H (o', b') Hin'). cbn in H.
  by apply negb_true_iff, String.eqb_neq in H.
Qed.

(** The theorem at work: a file is backed up and masked, and restored. *)
Lemma restore_all_restores_every_entry_witness :
  let made :=
    create_backup Example.abspath_id Example.never_refuses Example.no_json
      "20240101_120000" "/srv/a/application.yml" "/srv/a"
      Example.two_projects in
  let masked :=
    written "/srv/a/application.yml" (Text "password: ***") made.2 in
  exists st',
    restore_all Example.never_refuses Example.no_json "/srv/a" masked
    = (Ok ["/srv/a/application.yml"], st')
    /\ disk st' !! "/srv/a/application.yml" = Some (Text "password: one").
Proof.
  intros made masked.
  destruct (restore_all_restores_every_entry Example.no_json
              Example.never_refuses masked "/srv/a"
              [("/srv/a/application.yml",
                "/srv/a/.masking_backup/application.yml_20240101_120000.backup")])
    as (st' & Hrun & _ & Hres & _).
  - by vm_compute.
  - apply separate_checked. by vm_compute.
  - reflexivity.
  - by vm_compute.
  - exists st'. split.
    + etrans; [exact Hrun|]. f_equal.
    + apply (Hres "/srv/a/application.yml"
               "/srv/a/.masking_backup/application.yml_20240101_120000.backup").
      * apply list_elem_of_In. by left.
      * by vm_compute.
Defined.

(** The theorem at work: a file in the directory [conf]. *)
Lemma backup_name_flattens_the_path_witness :
  _get_backup_path Example.abspath_id Example.backup_manager "20240101_120000"
    "/srv/a/conf/app.yml" "/srv/a"
  = Ok "/srv/a/.masking_backup/conf_app.yml_20240101_120000.backup".
Proof.
  apply (backup_name_flattens_the_path Example.abspath_id
           Example.backup_manager "20240101_120000" "/srv/a" ["conf"]
           "app.yml").
  - reflexivity.
  - reflexivity.
  - by repeat constructor.
Defined.

(** The theorem at work: [conf/app.yml] and [conf_app.yml] are backed up in
    the same second. *)
Lemma backups_of_different_files_collide_witness :
  let first :=
    create_backup Example.abspath_id Example.never_refuses Example.no_json
      "20240101_120000" "/srv/a/conf/app.yml" "/srv/a"
      Example.colliding_files in
  let second :=
    create_backup Example.abspath_id Example.never_refuses Example.no_json
      "20240101_120000" "/srv/a/conf_app.yml" "/srv/a" first.2 in
  get_latest_backup Example.never_refuses Example.no_json
    "/srv/a/conf/app.yml" "/srv/a" second.2
  = (Ok (Some "/srv/a/.masking_backup/conf_app.yml_20240101_120000.backup"),
     second.2)
  /\ disk second.2
       !! "/srv/a/.masking_backup/conf_app.yml_20240101_120000.backup"
     = Some (Text "password: two").
Proof.
  intros first second.
  destruct (backups_of_different_files_collide Example.abspath_id
              Example.no_json Example.never_refuses Example.never_refuses
              Example.never_refuses
              Example.colliding_files first.2 second.2 "20240101_120000"
              "/srv/a" "conf" "app.yml"
              "/srv/a/.masking_backup/conf_app.yml_20240101_120000.backup"
              "/srv/a/.masking_backup/conf_app.yml_20240101_120000.backup")
    as (_ & _ & _ & Hcopy & Hlatest & _).
  - reflexivity.
  - reflexivity.
  - reflexivity.
  - reflexivity.
  - reflexivity.
  - apply NoDup_nil_2.
  - apply returned_state. by vm_compute.
  - apply returned_state. by vm_compute.
  - split; [exact Hlatest|]. etrans; [exact Hcopy|]. by vm_compute.
Defined.

(** The theorem at work: a file whose line ends with a carriage return
    and a line feed is processed with a backup; the function is given the
    line with a line feed alone, and [restore_all] puts the file back
    with its carriage return. *)
Lemma process_file_then_restore_all_witness :
  let before :=
    Text ("password: one" +:+ String (ascii_of_nat 13) Example.nl) in
  let run :=
    process_file Example.abspath_id Example.never_refuses Example.no_json
      Example.no_json_text Example.processor "20240101_120000"
      "/srv/a/application.yml" Example.mask_everything (Some "/srv/a")
      true false Example.crlf_project in
  disk run.2 !! "/srv/a/application.yml" = Some (Text "password: ***")
  /\ disk run.2
       !! "/srv/a/.masking_backup/application.yml_20240101_120000.backup"
     = Some before
  /\ exists restored st2,
       restore_all Example.never_refuses Example.no_json "/srv/a" run.2
       = (Ok restored, st2)
       /\ disk st2 !! "/srv/a/application.yml" = Some before
       /\ "/srv/a/application.yml" ∈ restored.
Proof.
  intros before run.
  apply (process_file_then_restore_all Example.abspath_id Example.no_json
           Example.no_json_text Example.never_refuses Example.never_refuses
           Example.processor "20240101_120000"
           "/srv/a/application.yml" "/srv/a"
           "/srv/a/.masking_backup/application.yml_20240101_120000.backup"
           Example.mask_everything Example.crlf_project run.2
           before "password: ***").
  - reflexivity.
  - by vm_compute.
  - by vm_compute.
  - apply returned_state. by vm_compute.
  - by vm_compute.
  - apply NoDup_nil_2.
  - by vm_compute.
  - by vm_compute.
  - reflexivity.
  - by vm_compute.
Defined.

End MoreExamples.
